(** * DevExpress Bootstrap MCP: crawler, repository indexer and query service

    A shallow embedding of the TypeScript sources
    - [crawl.ts] (stand-alone crawler, two revisions),
    - [server.ts] (MCP server with its in-process crawler, two revisions),
    - [github-crawler.ts] (code-example indexer, two revisions),
    together with the properties the design document states about them
    and further properties of the code.

    JavaScript strings are modelled by [string], one character per UTF-16
    code unit (code units below 256).  Counters and lengths are integers,
    modelled by [Z] or [nat].  A limit that the code only compares with a
    count is modelled by [Z] as well: such a limit acts as the whole number
    it is or the next one above it ([whole_limit]).  A number that the code
    also slices at and prints is a [Js.number].  The runtime services the
    code calls but does not define (the URL class, cheerio, MiniSearch, the
    network, the file system, the clock) are interfaces: type classes for
    libraries, records of oracles for the outside world. *)

From stdpp Require Import base tactics option list strings gmap sets.
From Stdlib Require Import ZArith QArith Qround Qminmax Ascii String Lia Lqa
  DecimalString.

Local Open Scope string_scope.
Local Open Scope Z_scope.

(* ===================================================================== *)
(** * JavaScript string primitives                                        *)
(* ===================================================================== *)

Module Js.

Definition len (s : string) : Z := Z.of_nat (String.length s).

(** The index arithmetic of [String.prototype.slice]: a negative index
    counts from the end, everything is clamped to [0, length]. *)
Definition slice_index (n : Z) (k : Z) : Z :=
  if k <? 0 then Z.max (n + k) 0 else Z.min k n.

Definition slice (s : string) (start stop : Z) : string :=
  let from := slice_index (len s) start in
  let to := slice_index (len s) stop in
  if from <? to then String.substring (Z.to_nat from) (Z.to_nat (to - from)) s
  else EmptyString.

(** [String.prototype.substring]: negative indices are 0, indices are
    clamped to the length and swapped when out of order. *)
Definition clamp (n : Z) (k : Z) : Z := Z.max 0 (Z.min k n).

Definition substring (s : string) (a b : Z) : string :=
  let a' := clamp (len s) a in
  let b' := clamp (len s) b in
  let from := Z.min a' b' in
  let to := Z.max a' b' in
  String.substring (Z.to_nat from) (Z.to_nat (to - from)) s.

Definition startsWith (s p : string) : bool := String.prefix p s.

Definition endsWith (s p : string) : bool :=
  (String.length p <=? String.length s)%nat &&
  String.eqb (String.substring (String.length s - String.length p)
                               (String.length p) s) p.

Fixpoint includes (s sub : string) : bool :=
  if String.prefix sub s then true
  else match s with
       | EmptyString => false
       | String _ s' => includes s' sub
       end.

(** [s.split(c)] for a one-character separator. *)
Fixpoint split_on (c : ascii) (s : string) : list string :=
  match s with
  | EmptyString => [EmptyString]
  | String a s' =>
      if Ascii.eqb a c then EmptyString :: split_on c s'
      else match split_on c s' with
           | [] => [String a EmptyString]
           | w :: ws => String a w :: ws
           end
  end.

(** [arr.join(sep)] *)
Fixpoint join (sep : string) (l : list string) : string :=
  match l with
  | [] => EmptyString
  | [x] => x
  | x :: rest => x ++ sep ++ join sep rest
  end.

(** White space and line terminators in the Latin-1 range, the set
    matched by [\s] and removed by [trim]. *)
Definition is_space (c : ascii) : bool :=
  let n := nat_of_ascii c in
  ((9 <=? n) && (n <=? 13) || (n =? 32) || (n =? 160))%nat.

(** [\w] *)
Definition is_word (c : ascii) : bool :=
  let n := nat_of_ascii c in
  ((48 <=? n) && (n <=? 57) || (65 <=? n) && (n <=? 90)
   || (97 <=? n) && (n <=? 122) || (n =? 95))%nat.

Fixpoint trimStart (s : string) : string :=
  match s with
  | String c s' => if is_space c then trimStart s' else s
  | EmptyString => EmptyString
  end.

Fixpoint trimEnd (s : string) : string :=
  match s with
  | EmptyString => EmptyString
  | String c s' =>
      match trimEnd s' with
      | EmptyString => if is_space c then EmptyString else String c EmptyString
      | t => String c t
      end
  end.

Definition trim (s : string) : string := trimEnd (trimStart s).

(** [s.replace(/\s+/g, " ")] *)
Fixpoint collapse_spaces_aux (in_run : bool) (s : string) : string :=
  match s with
  | EmptyString => EmptyString
  | String c s' =>
      if is_space c
      then (if in_run then collapse_spaces_aux true s'
            else String " " (collapse_spaces_aux true s'))
      else String c (collapse_spaces_aux false s')
  end.

Definition collapse_spaces (s : string) : string := collapse_spaces_aux false s.

Definition lower_char (c : ascii) : ascii :=
  let n := nat_of_ascii c in
  if ((65 <=? n) && (n <=? 90)
      || (192 <=? n) && (n <=? 222) && negb (n =? 215))%nat
  then ascii_of_nat (n + 32) else c.

Fixpoint toLowerCase (s : string) : string :=
  match s with
  | EmptyString => EmptyString
  | String c s' => String (lower_char c) (toLowerCase s')
  end.

(** Decimal rendering of an integer, as string concatenation with a
    number produces it. *)
Definition of_Z (z : Z) : string := NilZero.string_of_int (Z.to_int z).

(** Digits of [Number.prototype.toString(36)]. *)
Definition digit36 (d : Z) : ascii :=
  if d <? 10 then ascii_of_nat (Z.to_nat (48 + d))
  else ascii_of_nat (Z.to_nat (87 + d)).

Fixpoint to_base36_aux (fuel : nat) (n : Z) (acc : string) : string :=
  match fuel with
  | O => acc
  | S f =>
      let acc' := String (digit36 (n mod 36)) acc in
      if n / 36 =? 0 then acc' else to_base36_aux f (n / 36) acc'
  end.

Definition to_base36 (n : Z) : string := to_base36_aux 64 n EmptyString.

(** [ToInt32]: wrap into the signed 32-bit range. *)
Definition to_int32 (z : Z) : Z := (z + 2 ^ 31) mod 2 ^ 32 - 2 ^ 31.

(** An insertion-ordered [Set<string>] built from a sequence, read back
    with [Array.from] or spread: first occurrences, in order. *)
Fixpoint set_of_list_aux (seen : list string) (l : list string) : list string :=
  match l with
  | [] => []
  | x :: rest =>
      if bool_decide (x ∈ seen) then set_of_list_aux seen rest
      else x :: set_of_list_aux (x :: seen) rest
  end.

Definition set_of_list (l : list string) : list string := set_of_list_aux [] l.

(** [arr.length] *)
Definition len_list {A} (l : list A) : Z := Z.of_nat (List.length l).

(** [Array.prototype.slice], with the index arithmetic of [slice]. *)
Definition slice_list {A} (l : list A) (start stop : Z) : list A :=
  let from := slice_index (len_list l) start in
  let to := slice_index (len_list l) stop in
  if from <? to then take (Z.to_nat (to - from)) (drop (Z.to_nat from) l)
  else [].

(** A number as a caller supplies it, where the code does more with it
    than compare it with a count: a whole number, a number strictly
    between [below] and [below + 1], one of the two infinities, or NaN.
    A number that is not whole carries the text that string concatenation
    writes for it; a whole number is written in decimal (as the language
    writes it up to 10^21, far above the length of any string). *)
Inductive number : Type :=
| Whole (z : Z)
| Between (below : Z) (shown : string)
| Infinity (negative : bool)
| NaN.

(** [n > x] for a length [n] *)
Definition exceeds (n : Z) (x : number) : bool :=
  match x with
  | Whole z => n >? z
  | Between below _ => n >? below
  | Infinity negative => negative
  | NaN => false
  end.

(** [0 < x] *)
Definition positive (x : number) : bool :=
  match x with
  | Whole z => 0 <? z
  | Between below _ => 0 <=? below
  | Infinity negative => negb negative
  | NaN => false
  end.

(** [Math.floor(x)] of a finite number. *)
Definition floor (x : number) : Z :=
  match x with
  | Whole z => z
  | Between below _ => below
  | _ => 0
  end.

(** [s.slice(0, x)]: the index is [x] with its fraction dropped (towards
    zero), NaN counts as 0. *)
Definition slice_to (s : string) (x : number) : string :=
  match x with
  | Whole z => slice s 0 z
  | Between below _ => slice s 0 (if below <? 0 then below + 1 else below)
  | Infinity negative => if negative then EmptyString else s
  | NaN => EmptyString
  end.

(** [String(x)], as string concatenation with a number produces it. *)
Definition show (x : number) : string :=
  match x with
  | Whole z => of_Z z
  | Between _ shown => shown
  | Infinity negative => if negative then "-Infinity" else "Infinity"
  | NaN => "NaN"
  end.

(** Zero and NaN are the numbers that [||] replaces. *)
Definition falsy (x : number) : bool :=
  match x with
  | Whole z => z =? 0
  | NaN => true
  | _ => false
  end.

End Js.

Coercion Js.Whole : Z >-> Js.number.

(** Characters that cannot be written inside a string literal. *)
Definition dquote : string := String (ascii_of_nat 34) EmptyString.
Definition newline : string := String (ascii_of_nat 10) EmptyString.

(* ===================================================================== *)
(** * Runtime interfaces                                                   *)
(* ===================================================================== *)

(** The [URL] class of the runtime, as far as the sources use it: the two
    constructors (which throw on unparseable input: [None]), the [host],
    [pathname] and [href] getters and the [hash] and [search] setters. *)
Class UrlApi := {
  URL : Type;
  URL_new : string → option URL;
  URL_new_base : string → string → option URL;
  URL_host : URL → string;
  URL_pathname : URL → string;
  URL_href : URL → string;
  URL_set_hash : URL → string → URL;
  URL_set_search : URL → string → URL
}.

(** cheerio: a loaded document, queried and edited through selectors. *)
Class Cheerio := {
  Dom : Type;
  cheerio_load : string → Dom;
  (** [$(sel).attr(name)] : attribute of the first match, if any *)
  sel_attr : Dom → string → string → option string;
  (** [$(sel).text()] : combined text of all matches *)
  sel_text : Dom → string → string;
  (** [$(sel).each((_, el) => $(el).text())] : text of each match, in order *)
  sel_each_text : Dom → string → list string;
  (** [$(sel).each((_, el) => $(el).attr(name))] *)
  sel_each_attr : Dom → string → string → list (option string);
  (** [$(sel).remove()] *)
  sel_remove : Dom → string → Dom
}.

(* ===================================================================== *)
(** * Data model                                                           *)
(* ===================================================================== *)

Record IndexedPage := {
  id : string;
  url : string;
  title : string;
  headings : list string;
  text : string;
  codeBlocks : list string;
  fetchedAt : string
}.

Record IndexMeta := {
  startUrl : string;
  maxPages : Z;
  delayMs : Z;
  indexedCount : Z;
  visitedCount : Z;
  failureCount : Z;
  lastRefresh : string;
  allowedHost : string;
  allowedPathPrefix : string
}.

(** The [Partial<IndexMeta>] passed to [saveDocs] / [saveProgress]. *)
Record PartialMeta := {
  pm_indexedCount : Z;
  pm_visitedCount : Z;
  pm_failureCount : Z
}.

Definition DEFAULT_START_URL : string :=
  "https://docs.devexpress.com/AspNetBootstrap/117864/aspnet-bootstrap-controls".
Definition DEFAULT_MAX_PAGES : Z := 800.
Definition DEFAULT_DELAY_MS : Z := 200.
Definition ALLOWED_HOST : string := "docs.devexpress.com".
Definition ALLOWED_PATH_PREFIX : string := "/AspNetBootstrap/".

(* ===================================================================== *)
(** * URL scope filter ([normalizeUrl], [isAllowedUrl]) and [hashString]   *)
(* ===================================================================== *)

Section ScopeFilter.
Context `{UrlApi}.

Definition normalizeUrl (urlString : string) : string :=
  match URL_new urlString with
  | Some url =>
      let url := URL_set_hash url EmptyString in
      let url := URL_set_search url EmptyString in
      let normalized := URL_href url in
      if Js.endsWith normalized "/" && negb (String.eqb (URL_pathname url) "/")
      then Js.slice normalized 0 (-1)
      else normalized
  | None => urlString
  end.

Definition isAllowedUrl (urlString : string) : bool :=
  match URL_new urlString with
  | Some url =>
      String.eqb (URL_host url) ALLOWED_HOST
      && Js.startsWith (URL_pathname url) ALLOWED_PATH_PREFIX
  | None => false
  end.

End ScopeFilter.

(** One round of the [hashString] loop: [hash = ((hash << 5) - hash) + char;
    hash = hash & hash]. *)
Definition hash_round (hash : Z) (c : ascii) : Z :=
  Js.to_int32 (Js.to_int32 (Z.shiftl hash 5) - hash + Z.of_nat (nat_of_ascii c)).

Definition hashString (str : string) : string :=
  Js.to_base36 (Z.abs (fold_left hash_round (list_ascii_of_string str) 0)).

(* ===================================================================== *)
(** * The outside world of a documentation crawl                           *)
(* ===================================================================== *)

Record Response := {
  status : Z;
  (** [response.text()]; [None] when reading the body fails *)
  body : option string
}.

(** [response.ok] *)
Definition ok (r : Response) : bool := (200 <=? status r) && (status r <=? 299).

Inductive FetchOutcome :=
| NetworkError (message : string)      (* [fetch] rejects: transport, timeout *)
| Responded (r : Response).

(** What the environment answers.  It may depend on everything requested
    so far, so the same URL may answer differently at different times. *)
Record World := {
  fetch : list string → string → FetchOutcome;
  (** the clock, read after the given requests *)
  now : list string → string;
  (** whether the n-th file write succeeds *)
  write_ok : nat → bool
}.

(** The observable effects of a run. *)
Record Sys := {
  fetched : list string;                  (* requests, oldest first *)
  slept : Z;                               (* total [sleep] time *)
  write_attempts : nat;
  pages_file : option (list IndexedPage);  (* data/pages.json *)
  meta_file : option IndexMeta             (* data/meta.json *)
}.

Definition sys0 : Sys :=
  {| fetched := []; slept := 0; write_attempts := 0;
     pages_file := None; meta_file := None |}.

Definition sys_request (u : string) (s : Sys) : Sys :=
  {| fetched := fetched s ++ [u]; slept := slept s;
     write_attempts := write_attempts s;
     pages_file := pages_file s; meta_file := meta_file s |}.

Definition sys_sleep (ms : Z) (s : Sys) : Sys :=
  {| fetched := fetched s; slept := slept s + ms;
     write_attempts := write_attempts s;
     pages_file := pages_file s; meta_file := meta_file s |}.

Definition sys_attempt (s : Sys) : Sys :=
  {| fetched := fetched s; slept := slept s;
     write_attempts := S (write_attempts s);
     pages_file := pages_file s; meta_file := meta_file s |}.

Definition sys_put_pages (ps : list IndexedPage) (s : Sys) : Sys :=
  {| fetched := fetched s; slept := slept s;
     write_attempts := write_attempts s;
     pages_file := Some ps; meta_file := meta_file s |}.

Definition sys_put_meta (m : IndexMeta) (s : Sys) : Sys :=
  {| fetched := fetched s; slept := slept s;
     write_attempts := write_attempts s;
     pages_file := pages_file s; meta_file := Some m |}.

(** The two [fs.writeFileSync] calls that store an index, pages first.
    The flag is [false] when one of them throws; a failed first write
    skips the second. *)
Definition sys_write (w : World) (ps : list IndexedPage) (m : IndexMeta) (s : Sys)
  : Sys * bool :=
  if write_ok w (write_attempts s) then
    let s := sys_put_pages ps (sys_attempt s) in
    if write_ok w (write_attempts s) then (sys_put_meta m (sys_attempt s), true)
    else (sys_attempt s, false)
  else (sys_attempt s, false).

(** Parsed command line of the stand-alone crawler: the values of
    [getStartUrl()], [getMax()], [getDelay()] and the [--continue] flag. *)
Record Cli := {
  cli_url : string;
  cli_max : Z;
  cli_delay : Z;
  cli_continue : bool
}.

(** [x || d] on numbers *)
Definition or_default (x d : Z) : Z := if x =? 0 then d else x.

(** [saveDocs] of crawl.ts ([saveProgress] in its earlier revision). *)
Definition saveDocs (w : World) (cli : Cli)
    (ps : list IndexedPage) (partialMeta : PartialMeta) (s : Sys) : Sys * bool :=
  let meta :=
    {| startUrl := cli_url cli;
       maxPages := cli_max cli;
       delayMs := cli_delay cli;
       indexedCount := or_default (pm_indexedCount partialMeta) (Js.len_list ps);
       visitedCount := or_default (pm_visitedCount partialMeta) (Js.len_list ps);
       failureCount := or_default (pm_failureCount partialMeta) 0;
       lastRefresh := now w (fetched s);
       allowedHost := ALLOWED_HOST;
       allowedPathPrefix := ALLOWED_PATH_PREFIX |} in
  sys_write w ps meta s.

(* ===================================================================== *)
(** * Crawl engine ([extractLinks], [crawlDocumentation])                  *)
(* ===================================================================== *)

(** The two crawl loops of the repository.  [Standalone] is
    [crawlDocumentation] of crawl.ts: it counts consecutive failures, stops
    after [MAX_CONSECUTIVE_FAILURES] of them and saves its progress every 50
    pages.  [InProcess] is [crawlDocumentation] of server.ts, which has
    neither.  The loops agree everywhere else. *)
Inductive Crawler := Standalone (cli : Cli) | InProcess.

Record CrawlState := {
  visited : gset string;
  queue : list string;
  pages : list IndexedPage;
  failures : Z;
  (** only [Standalone] declares this variable; it stays 0 in [InProcess] *)
  consecutiveFailures : Z;
  sys : Sys
}.

Definition set_queue (q : list string) (st : CrawlState) : CrawlState :=
  {| visited := visited st; queue := q; pages := pages st;
     failures := failures st; consecutiveFailures := consecutiveFailures st;
     sys := sys st |}.

Definition set_visited (v : gset string) (st : CrawlState) : CrawlState :=
  {| visited := v; queue := queue st; pages := pages st;
     failures := failures st; consecutiveFailures := consecutiveFailures st;
     sys := sys st |}.

Definition set_pages (ps : list IndexedPage) (st : CrawlState) : CrawlState :=
  {| visited := visited st; queue := queue st; pages := ps;
     failures := failures st; consecutiveFailures := consecutiveFailures st;
     sys := sys st |}.

Definition set_failures (n : Z) (st : CrawlState) : CrawlState :=
  {| visited := visited st; queue := queue st; pages := pages st;
     failures := n; consecutiveFailures := consecutiveFailures st;
     sys := sys st |}.

Definition set_consecutive (n : Z) (st : CrawlState) : CrawlState :=
  {| visited := visited st; queue := queue st; pages := pages st;
     failures := failures st; consecutiveFailures := n;
     sys := sys st |}.

Definition set_sys (s : Sys) (st : CrawlState) : CrawlState :=
  {| visited := visited st; queue := queue st; pages := pages st;
     failures := failures st; consecutiveFailures := consecutiveFailures st;
     sys := s |}.

(** How one pass through the loop body ends: at the bottom or at a
    [continue] (the loop test comes next), or at a [break]. *)
Inductive Control :=
| Continue (st : CrawlState)
| Break (st : CrawlState).

Definition control_state (c : Control) : CrawlState :=
  match c with Continue st | Break st => st end.

Definition MAX_CONSECUTIVE_FAILURES : Z := 10.

Definition OG_TITLE : string :=
  "meta[property=" ++ dquote ++ "og:title" ++ dquote ++ "]".

Definition nonempty (s : string) : bool := negb (String.eqb s EmptyString).

(** An optional string used as a condition: absent and empty are false. *)
Definition truthy (s : option string) : option string :=
  match s with
  | Some t => if nonempty t then Some t else None
  | None => None
  end.

Section Crawl.
Context `{UrlApi} `{Cheerio}.

Definition extractLinks (html baseUrl : string) : list string :=
  let dom := cheerio_load html in
  let added :=
    omap (fun a : option string =>
            match a with
            | Some href =>
                if nonempty href then
                  match URL_new_base href baseUrl with
                  | Some u =>
                      let normalized := normalizeUrl (URL_href u) in
                      if isAllowedUrl normalized then Some normalized else None
                  | None => None
                  end
                else None
            | None => None
            end)
         (sel_each_attr dom "a[href]" "href") in
  Js.set_of_list added.

(** [$(sel).each(...)] collecting the trimmed, non-blank texts. *)
Definition each_trimmed (dom : Dom) (sel : string) : list string :=
  filter (fun t => nonempty t = true) (map Js.trim (sel_each_text dom sel)).

Definition page_title (dom : Dom) : string :=
  let title := default EmptyString (sel_attr dom OG_TITLE "content") in
  let title := if nonempty title then title else sel_text dom "title" in
  Js.trim title.

Definition page_text (dom : Dom) : string :=
  let dom := sel_remove dom "script, style, nav, header, footer, iframe, noscript" in
  let dom := sel_remove dom ".header, .footer, .navigation, .sidebar, .dx-header, .dx-footer" in
  Js.trim (Js.collapse_spaces (sel_text dom "body")).

Section Loop.
Variable k : Crawler.
Variable w : World.
Variable delayMs : Z.

(** [failures++; consecutiveFailures++] *)
Definition count_failure (st : CrawlState) : CrawlState :=
  let st := set_failures (failures st + 1) st in
  match k with
  | Standalone _ => set_consecutive (consecutiveFailures st + 1) st
  | InProcess => st
  end.

(** [consecutiveFailures >= MAX_CONSECUTIVE_FAILURES] *)
Definition too_many (st : CrawlState) : bool :=
  match k with
  | Standalone _ => MAX_CONSECUTIVE_FAILURES <=? consecutiveFailures st
  | InProcess => false
  end.

(** [if (delayMs > 0) await sleep(delayMs)] at the bottom of the body *)
Definition rate_limit (st : CrawlState) : CrawlState :=
  if delayMs >? 0 then set_sys (sys_sleep delayMs (sys st)) st else st.

(** The [catch] block, then the rest of the body. *)
Definition on_exception (st : CrawlState) : Control :=
  let st := count_failure st in
  if too_many st then Break st else Continue (rate_limit st).

(** The [!response.ok] branch, which ends in [continue]. *)
Definition on_http_error (st : CrawlState) : Control :=
  let st := count_failure st in
  if too_many st then Break st else Continue st.

(** [if (pages.length % 50 === 0) saveDocs(...)], inside the [try]. *)
Definition checkpoint (st : CrawlState) : CrawlState * bool :=
  match k with
  | Standalone cli =>
      if Js.len_list (pages st) mod 50 =? 0 then
        let '(s, fine) :=
          saveDocs w cli (pages st)
            {| pm_indexedCount := Js.len_list (pages st);
               pm_visitedCount := Z.of_nat (size (visited st));
               pm_failureCount := failures st |} (sys st) in
        (set_sys s st, fine)
      else (st, true)
  | InProcess => (st, true)
  end.

(** The part of the [try] block after a body was read. *)
Definition index_page (normalized html : string) (st : CrawlState) : Control :=
  let dom := cheerio_load html in
  let title := page_title dom in
  let headings := each_trimmed dom "h1, h2, h3" in
  let codeBlocks := each_trimmed dom "pre" in
  let newLinks := extractLinks html normalized in
  let st :=
    set_queue (queue st ++ filter (fun link => link ∉ visited st) newLinks) st in
  let text := page_text dom in
  let page :=
    {| id := hashString normalized;
       url := normalized;
       title := title;
       headings := headings;
       text := text;
       codeBlocks := codeBlocks;
       fetchedAt := now w (fetched (sys st)) |} in
  let st := set_pages (pages st ++ [page]) st in
  let '(st, fine) := checkpoint st in
  if fine then Continue (rate_limit st) else on_exception st.

(** One pass through the body of the [while] loop. *)
Definition loop_body (st : CrawlState) : Control :=
  match queue st with
  | [] => Continue st
  | url :: rest =>
      let st := set_queue rest st in                    (* queue.shift() *)
      let normalized := normalizeUrl url in
      if bool_decide (normalized ∈ visited st) then Continue st
      else
        let st := set_visited ({[normalized]} ∪ visited st) st in
        if negb (isAllowedUrl normalized) then Continue st
        else
          let outcome := fetch w (fetched (sys st)) normalized in
          let st := set_sys (sys_request normalized (sys st)) st in
          match outcome with
          | NetworkError _ => on_exception st
          | Responded response =>
              if negb (ok response) then on_http_error st
              else
                let st :=
                  match k with
                  | Standalone _ => set_consecutive 0 st
                  | InProcess => st
                  end in
                match body response with
                | None => on_exception st
                | Some html => index_page normalized html st
                end
          end
  end.

Variable maxPages : Z.

(** [queue.length > 0 && pages.length < maxPages]; a limit that is
    not whole acts as the next whole number. *)
Definition loop_test (st : CrawlState) : bool :=
  (0 <? Js.len_list (queue st)) && (Js.len_list (pages st) <? maxPages).

Fixpoint while_loop (fuel : nat) (st : CrawlState) : option CrawlState :=
  match fuel with
  | O => None
  | S fuel' =>
      if loop_test st then
        match loop_body st with
        | Continue st' => while_loop fuel' st'
        | Break st' => Some st'
        end
      else Some st
  end.

Variable startUrl : string.
Variable s0 : Sys.

Definition crawl_init : CrawlState :=
  {| visited := ∅;
     queue := [normalizeUrl startUrl];
     pages := [];
     failures := 0;
     consecutiveFailures := 0;
     sys := s0 |}.

(** The states in which the loop test is evaluated. *)
Inductive LoopHead : CrawlState → Prop :=
| head_init : LoopHead crawl_init
| head_next st st' :
    LoopHead st → loop_test st = true → loop_body st = Continue st' →
    LoopHead st'.

(** The state in which the loop is left. *)
Inductive LoopExit (final : CrawlState) : Prop :=
| exit_test : LoopHead final → loop_test final = false → LoopExit final
| exit_break st :
    LoopHead st → loop_test st = true → loop_body st = Break final →
    LoopExit final.

End Loop.

(** The value [crawlDocumentation] resolves to. *)
Record CrawlResult := {
  r_pages : list IndexedPage;
  r_visited : Z;
  r_failures : Z
}.

Definition crawl_result (st : CrawlState) : CrawlResult :=
  {| r_pages := pages st;
     r_visited := Z.of_nat (size (visited st));
     r_failures := failures st |}.

Definition crawlDocumentation (fuel : nat) (k : Crawler) (w : World)
    (s0 : Sys) (startUrl : string) (maxPages delayMs : Z)
  : option (CrawlResult * Sys) :=
  match while_loop k w delayMs maxPages fuel (crawl_init startUrl s0) with
  | Some st => Some (crawl_result st, sys st)
  | None => None
  end.

End Crawl.

(* ===================================================================== *)
(** * Resuming a crawl ([main] of crawl.ts)                                *)
(* ===================================================================== *)

(** The merge step of [main]: with [--continue] and a non-empty previous
    index, the pages whose [url] is already present are dropped and the rest
    is appended to the previous pages. *)
Definition mergePages (shouldContinue : bool)
    (existingPages pages : list IndexedPage) : list IndexedPage :=
  if shouldContinue && (0 <? Js.len_list existingPages) then
    let existingUrls : gset string := list_to_set (map url existingPages) in
    let newPages := filter (fun p => url p ∉ existingUrls) pages in
    existingPages ++ newPages
  else pages.

(** Reading pages.json at start-up; an absent or unreadable file gives no
    pages. *)
Definition loadExisting (cli : Cli) (s : Sys) : list IndexedPage :=
  if cli_continue cli then default [] (pages_file s) else [].

Section Main.
Context `{UrlApi} `{Cheerio}.

(** The documentation part of [main] in crawl.ts.  The final [saveDocs]
    is outside any [try]: when it throws the process exits with status 1,
    which the flag reports. *)
Definition main_docs (fuel : nat) (w : World) (cli : Cli) (s : Sys)
  : option (Sys * bool) :=
  let existingPages := loadExisting cli s in
  match crawlDocumentation fuel (Standalone cli) w s
          (cli_url cli) (cli_max cli) (cli_delay cli) with
  | Some (r, s) =>
      let finalPages := mergePages (cli_continue cli) existingPages (r_pages r) in
      Some (saveDocs w cli finalPages
              {| pm_indexedCount := Js.len_list finalPages;
                 pm_visitedCount := r_visited r;
                 pm_failureCount := r_failures r |} s)
  | None => None
  end.

(** [main] of the earlier revision: resuming without [--max] raises the
    page limit before the crawl. *)
Definition main_docs_v1 (fuel : nat) (w : World) (cli : Cli) (has_max : bool)
    (s : Sys) : option (Sys * bool) :=
  let existingPages := loadExisting cli s in
  let maxPages :=
    if cli_continue cli && bool_decide (is_Some (pages_file s)) && negb has_max
    then Z.max (DEFAULT_MAX_PAGES * 2) (Js.len_list existingPages + 500)
    else cli_max cli in
  match crawlDocumentation fuel (Standalone cli) w s
          (cli_url cli) maxPages (cli_delay cli) with
  | Some (r, s) =>
      let finalPages := mergePages (cli_continue cli) existingPages (r_pages r) in
      Some (saveDocs w cli finalPages
              {| pm_indexedCount := Js.len_list finalPages;
                 pm_visitedCount := r_visited r;
                 pm_failureCount := r_failures r |} s)
  | None => None
  end.

End Main.

(* ===================================================================== *)
(** * Regular expressions                                                  *)
(* ===================================================================== *)

(** The constructs of the regular-expression literals in
    github-crawler.ts, with the backtracking semantics of the language:
    alternatives left to right, quantifiers greedy, an iteration that
    matches nothing is not taken. *)
Module RegExp.

Inductive re :=
| Lit (s : string)
| Cls (p : ascii → bool)
| Seq (r1 r2 : re)
| Alt (r1 r2 : re)
| Opt (r : re)
| Star (r : re)
| Plus (r : re)
| Cap (r : re)          (* the capture group, [match[1]] *)
| WordB                 (* \b *)
| Bol                   (* ^ *)
| Eol.                  (* $ *)

Fixpoint seq (rs : list re) : re :=
  match rs with
  | [] => Lit EmptyString
  | [r] => r
  | r :: rs' => Seq r (seq rs')
  end.

Fixpoint alt (rs : list re) : re :=
  match rs with
  | [] => Cls (fun _ => false)
  | [r] => r
  | r :: rs' => Alt r (alt rs')
  end.

(** A position in the subject: the character before it, the text after
    it, its index, and the capture so far. *)
Record pos := {
  before : option ascii;
  after : string;
  index : nat;
  capture : option string
}.

Definition advance (n : nat) (p : pos) : pos :=
  {| before :=
       match n with
       | O => before p
       | S n' => String.get n' (after p)
       end;
     after := String.substring n (String.length (after p) - n) (after p);
     index := (index p + n)%nat;
     capture := capture p |}.

Definition set_capture (c : string) (p : pos) : pos :=
  {| before := before p; after := after p; index := index p;
     capture := Some c |}.

Definition word_before (p : pos) : bool :=
  match before p with Some c => Js.is_word c | None => false end.

Definition word_after (p : pos) : bool :=
  match after p with String c _ => Js.is_word c | EmptyString => false end.

(** [m r k p]: match [r] at [p] and hand the end position to [k]; the
    first success in backtracking order is the answer. *)
Fixpoint m (r : re) (k : pos → option pos) (p : pos) {struct r} : option pos :=
  match r with
  | Lit l =>
      if String.prefix l (after p) then k (advance (String.length l) p) else None
  | Cls c =>
      match after p with
      | String a _ => if c a then k (advance 1 p) else None
      | EmptyString => None
      end
  | Seq r1 r2 => m r1 (m r2 k) p
  | Alt r1 r2 =>
      match m r1 k p with
      | Some e => Some e
      | None => m r2 k p
      end
  | Opt r1 =>
      match m r1 k p with
      | Some e => Some e
      | None => k p
      end
  | Star r1 =>
      (fix star (n : nat) (p : pos) {struct n} : option pos :=
         match n with
         | O => k p
         | S n' =>
             match m r1 (fun p' => if (index p <? index p')%nat
                                   then star n' p' else None) p with
             | Some e => Some e
             | None => k p
             end
         end) (String.length (after p)) p
  | Plus r1 =>
      m r1
        ((fix star (n : nat) (p : pos) {struct n} : option pos :=
           match n with
           | O => k p
           | S n' =>
               match m r1 (fun p' => if (index p <? index p')%nat
                                     then star n' p' else None) p with
               | Some e => Some e
               | None => k p
               end
           end) (String.length (after p))) p
  | Cap r1 =>
      m r1 (fun e =>
              k (set_capture
                   (String.substring 0 (index e - index p) (after p)) e)) p
  | WordB => if xorb (word_before p) (word_after p) then k p else None
  | Bol => if (index p =? 0)%nat then k p else None
  | Eol => match after p with EmptyString => k p | _ => None end
  end.

(** The leftmost match at or after a position: where it starts and
    where it ends. *)
Fixpoint find (r : re) (b : option ascii) (text : string) (i : nat)
  : option (nat * pos) :=
  let p := {| before := b; after := text; index := i; capture := None |} in
  match m r Some p with
  | Some e => Some (i, e)
  | None =>
      match text with
      | String c text' => find r (Some c) text' (S i)
      | EmptyString => None
      end
  end.

(** [while ((match = regex.exec(code)) !== null) out.push(match[1])] for
    a global expression: the captures of the successive matches.  (A
    match of the empty string would repeat for ever; none of the
    expressions used can match it, and the model stops there.) *)
Fixpoint exec_loop (fuel : nat) (r : re) (b : option ascii) (text : string)
    (i : nat) : list string :=
  match fuel with
  | O => []
  | S fuel' =>
      match find r b text i with
      | None => []
      | Some (start, e) =>
          default EmptyString (capture e) ::
            (if (index e =? start)%nat then []
             else exec_loop fuel' r (before e) (after e) (index e))
      end
  end.

Definition exec_all (r : re) (text : string) : list string :=
  exec_loop (S (String.length text)) r None text 0.

(** [text.replace(regex, by)], for a global expression or not. *)
Fixpoint replace_loop (fuel : nat) (global : bool) (r : re) (by_ : string)
    (b : option ascii) (text : string) (i : nat) : string :=
  match fuel with
  | O => text
  | S fuel' =>
      match find r b text i with
      | None => text
      | Some (start, e) =>
          let kept := String.substring 0 (start - i) text in
          if negb global then kept ++ by_ ++ after e
          else if (index e =? start)%nat then
            match after e with
            | String c rest =>
                kept ++ by_ ++ String c
                  (replace_loop fuel' global r by_ (Some c) rest (S start))
            | EmptyString => kept ++ by_
            end
          else kept ++ by_ ++
               replace_loop fuel' global r by_ (before e) (after e) (index e)
      end
  end.

Definition replace (global : bool) (r : re) (by_ : string) (text : string)
  : string :=
  replace_loop (S (String.length text)) global r by_ None text 0.

Definition space : re := Cls Js.is_space.
Definition word : re := Cls Js.is_word.
Definition one_of (cs : string) : re :=
  Cls (fun c => existsb (Ascii.eqb c) (list_ascii_of_string cs)).
Definition none_of (cs : string) : re :=
  Cls (fun c => negb (existsb (Ascii.eqb c) (list_ascii_of_string cs))).

End RegExp.

(* ===================================================================== *)
(** * Code examples from GitHub (github-crawler.ts)                        *)
(* ===================================================================== *)

Module GitHub.

Inductive ExampleType := example | code_file.

Record GitHubExample := {
  id : string;
  type : ExampleType;
  title : string;
  filePath : string;
  repoName : string;
  repoUrl : string;
  fileUrl : string;
  language : string;
  content : string;
  contentPreview : string;
  relatedClasses : list string;
  relatedMethods : list string;
  description : string;
  fetchedAt : string
}.

Record RepoCount := {
  name : string;
  url : string;
  filesIndexed : Z
}.

Record GitHubMetadata := {
  totalExamples : Z;
  lastRefresh : string;
  repos : list RepoCount
}.

(** The argument of [crawlGitHubExamples]; absent fields take the
    defaults of the destructuring pattern. *)
Record Options := {
  maxFiles : option Z;
  githubToken : option string;
  delayMs : option Z
}.

(** Requests to the GitHub API. *)
Inductive Request :=
| GetContent (owner repo path : string)            (* raw file, contents API *)
| SearchCode (owner repo language : string) (limit : Z)
| ListContents (owner repo path : string)
| Download (downloadUrl : string).

Record SearchItem := { item_path : string; item_url : string }.

Record Entry := {
  entry_path : string;
  entry_type : string;
  download_url : option string
}.

(** What GitHub answers, given the requests made so far, the request and
    the token sent with it.  Failed requests are answers too: no text,
    no items, no entries, as the fetching functions return them. *)
Record Hub := {
  hub_text : list Request → Request → option string → option string;
  hub_items : list Request → Request → option string → list SearchItem;
  hub_entries : list Request → Request → option string → list Entry;
  hub_now : list Request → string
}.

(** Effects of an indexing run. *)
Record Trace := {
  requests : list Request;
  waited : Z
}.

Definition trace0 : Trace := {| requests := []; waited := 0 |}.

(** Computations that talk to GitHub and sleep. *)
Definition Run (A : Type) : Type := Trace → A * Trace.

#[export] Instance run_ret : MRet Run := fun A a t => (a, t).
#[export] Instance run_bind : MBind Run :=
  fun A B f c t => let '(a, t') := c t in f a t'.

Definition sleep (ms : Z) : Run unit :=
  fun t => (tt, {| requests := requests t; waited := waited t + ms |}).

Definition ask {A} (answer : list Request → A) (q : Request) : Run A :=
  fun t => (answer (requests t),
            {| requests := requests t ++ [q]; waited := waited t |}).

Definition clock (h : Hub) : Run string :=
  fun t => (hub_now h (requests t), t).

(** [if (token)] : an empty token is sent as no token. *)
Definition sent (token : option string) : option string := truthy token.

Definition language_of (filePath : string) : string :=
  let language := "csharp" in
  let language := if Js.endsWith filePath ".aspx" then "aspx" else language in
  let language := if Js.endsWith filePath ".ascx" then "ascx" else language in
  language.

(** [filePath.split('/').pop() || filePath], then the two [replace]s *)
Definition title_of (filePath : string) : string :=
  let fileName :=
    let last_ := default EmptyString (last (Js.split_on "/" filePath)) in
    if nonempty last_ then last_ else filePath in
  RegExp.replace true (RegExp.one_of "_-") " "
    (RegExp.replace false
       (RegExp.seq [RegExp.Lit "."; RegExp.Plus (RegExp.none_of "."); RegExp.Eol])
       EmptyString fileName).

(** [/\bclass\s+(\w+)/g], the same in both revisions *)
Definition classRegex : RegExp.re :=
  RegExp.seq [RegExp.WordB; RegExp.Lit "class"; RegExp.Plus RegExp.space;
              RegExp.Cap (RegExp.Plus RegExp.word)].

(** [/\/\*+|\*+\//g] *)
Definition commentMarks : RegExp.re :=
  RegExp.Alt (RegExp.Seq (RegExp.Lit "/") (RegExp.Plus (RegExp.Lit "*")))
             (RegExp.Seq (RegExp.Plus (RegExp.Lit "*")) (RegExp.Lit "/")).

(** [/^[\s/*]+/] *)
Definition leadingMarks : RegExp.re :=
  RegExp.Seq RegExp.Bol
    (RegExp.Plus (RegExp.Cls (fun c =>
       Js.is_space c || Ascii.eqb c "/" || Ascii.eqb c "*"))).

(** [/\/\/\/?/] *)
Definition slashes : RegExp.re :=
  RegExp.Seq (RegExp.Lit "//") (RegExp.Opt (RegExp.Lit "/")).

Definition optional_word (kw : string) : RegExp.re :=
  RegExp.Opt (RegExp.Seq (RegExp.Lit kw) (RegExp.Plus RegExp.space)).

End GitHub.

(** ** The first revision: files found through the code-search API *)
Module GitHubSearch.
Import GitHub.

Definition DEVEXPRESS_EXAMPLE_REPOS : list string :=
  [ "devexpress/devextreme-angular-template-gallery";
    "devexpress/devextreme-react-template-gallery";
    "devexpress/devextreme-vue-template-gallery";
    "devexpress-examples/devextreme-examples";
    "devexpress-examples/asp-net-bootstrap-examples";
    "devexpress-examples/asp-net-core-free-ui-templates" ].

Definition fetchGitHubContent (h : Hub) (owner repo path : string)
    (token : option string) : Run (option string) :=
  let q := GetContent owner repo path in
  ask (fun past => hub_text h past q (sent token)) q.

Definition searchRepoFiles (h : Hub) (owner repo language : string)
    (token : option string) (limit : Z) : Run (list SearchItem) :=
  let q := SearchCode owner repo language limit in
  ask (fun past => hub_items h past q (sent token)) q.

(** [/\b(?:public|private|protected)?\s+\w+\s+(\w+)\s*\(/g] *)
Definition methodRegex : RegExp.re :=
  RegExp.seq
    [ RegExp.WordB;
      RegExp.Opt (RegExp.alt [RegExp.Lit "public"; RegExp.Lit "private";
                              RegExp.Lit "protected"]);
      RegExp.Plus RegExp.space; RegExp.Plus RegExp.word;
      RegExp.Plus RegExp.space; RegExp.Cap (RegExp.Plus RegExp.word);
      RegExp.Star RegExp.space; RegExp.Lit "(" ].

Definition extractMetadata (code : string) : list string * list string :=
  let classes := RegExp.exec_all classRegex code in
  let methods := RegExp.exec_all methodRegex code in
  (classes, methods).

Definition extractDescription (code : string) : string :=
  let lines := take 20 (Js.split_on (ascii_of_nat 10) code) in
  let marked :=
    filter (fun line => Js.includes line "//" || Js.includes line "/*"
                        || Js.includes line "*" = true) lines in
  let cleaned :=
    map (fun line =>
           Js.trim (RegExp.replace false leadingMarks EmptyString
                      (RegExp.replace true commentMarks EmptyString line))) marked in
  let kept :=
    filter (fun line => (0 <? Js.len line) && negb (Js.includes line "using") = true)
           cleaned in
  let comments := Js.join " " kept in
  let short := Js.substring comments 0 200 in
  if nonempty short then short else Js.substring code 0 200.

(** [indexFile] once the file was fetched. *)
Definition index_content (owner repo filePath fileUrl : string)
    (fetched_content : option string) (time : string) : option GitHubExample :=
  match fetched_content with
  | None => None
  | Some content =>
      if Js.len content =? 0 then None
      else
        let maxSize := 8000 in
        let truncatedContent := Js.substring content 0 maxSize in
        let '(classes, methods) := extractMetadata content in
        Some {| id := repo ++ ":" ++ filePath;
                type := code_file;
                title := title_of filePath;
                filePath := filePath;
                repoName := repo;
                repoUrl := "https://github.com/" ++ owner ++ "/" ++ repo;
                fileUrl := fileUrl;
                language := language_of filePath;
                content := truncatedContent;
                contentPreview := Js.substring truncatedContent 0 500;
                relatedClasses := take 10 classes;
                relatedMethods := take 10 methods;
                description := extractDescription content;
                fetchedAt := time |}
  end.

Definition indexFile (h : Hub) (owner repo filePath fileUrl : string)
    (token : option string) : Run (option GitHubExample) :=
  content ← fetchGitHubContent h owner repo filePath token;
  time ← clock h;
  mret (index_content owner repo filePath fileUrl content time).

Section Crawl.
Variable h : Hub.
(** the limit, or the next whole number when it is not whole *)
Variable maxFiles : Z.
Variable githubToken : option string.
Variable delayMs : Z.
Variables owner repo : string.

(** [for (const file of files)]; the accumulator is [examples] and
    [filesIndexed]. *)
Fixpoint each_file (files : list SearchItem)
    (acc : list GitHubExample * Z) : Run (list GitHubExample * Z) :=
  match files with
  | [] => mret acc
  | file :: rest =>
      if maxFiles <=? Js.len_list acc.1 then mret acc
      else
        found ← indexFile h owner repo (item_path file) (item_url file) githubToken;
        match found with
        | Some ex =>
            _ ← sleep delayMs;
            each_file rest ((acc.1 ++ [ex])%list, acc.2 + 1)
        | None => each_file rest acc
        end
  end.

(** [for (const lang of ['csharp', 'markup'])] *)
Fixpoint each_language (langs : list string)
    (acc : list GitHubExample * Z) : Run (list GitHubExample * Z) :=
  match langs with
  | [] => mret acc
  | lang :: rest =>
      if maxFiles <=? Js.len_list acc.1 then mret acc
      else
        files ← searchRepoFiles h owner repo lang githubToken 30;
        acc ← each_file files acc;
        each_language rest acc
  end.

End Crawl.

(** [for (const repoPath of DEVEXPRESS_EXAMPLE_REPOS)] *)
Fixpoint each_repo (h : Hub) (maxFiles : Z) (githubToken : option string)
    (delayMs : Z) (repoPaths : list string)
    (acc : list GitHubExample * list RepoCount)
  : Run (list GitHubExample * list RepoCount) :=
  match repoPaths with
  | [] => mret acc
  | repoPath :: rest =>
      let parts := Js.split_on "/" repoPath in
      let owner := default EmptyString (parts !! 0%nat) in
      let repo := default EmptyString (parts !! 1%nat) in
      r ← each_language h maxFiles githubToken delayMs owner repo
            ["csharp"; "markup"] (acc.1, 0);
      let counts :=
        if 0 <? r.2
        then (acc.2 ++ [ {| name := repo;
                            url := "https://github.com/" ++ owner ++ "/" ++ repo;
                            filesIndexed := r.2 |} ])%list
        else acc.2 in
      _ ← sleep (delayMs * 2);
      each_repo h maxFiles githubToken delayMs rest (r.1, counts)
  end.

Definition crawlGitHubExamples (h : Hub) (options : Options)
  : Run (list GitHubExample * GitHubMetadata) :=
  let maxFiles := default 100 (GitHub.maxFiles options) in
  let delayMs := default 100 (GitHub.delayMs options) in
  started ← clock h;
  r ← each_repo h maxFiles (githubToken options) delayMs
        DEVEXPRESS_EXAMPLE_REPOS ([], []);
  mret (r.1, {| totalExamples := Js.len_list r.1;
                lastRefresh := started;
                repos := r.2 |}).

End GitHubSearch.

(** ** The second revision: files found by walking the repository tree *)
Module GitHubWalk.
Import GitHub.

Record Repo := {
  owner : string;
  repo : string;
  paths : list string
}.

Definition DEVEXPRESS_REPOS : list Repo :=
  [ {| owner := "DevExpress"; repo := "DevExtreme.AspNet.Data"; paths := ["net"] |};
    {| owner := "DevExpress-Examples";
       repo := "asp-net-web-forms-grid-view-batch-edit-mode"; paths := [EmptyString] |};
    {| owner := "DevExpress-Examples";
       repo := "asp-net-web-forms-grid-layout"; paths := [EmptyString] |};
    {| owner := "DevExpress-Examples";
       repo := "asp-net-bootstrap-controls-demos"; paths := ["CS"] |};
    {| owner := "DevExpress-Examples";
       repo := "aspnet-bootstrap-controls-how-to-get-started"; paths := [EmptyString] |};
    {| owner := "DevExpress-Examples";
       repo := "reporting-how-to-use-aspnet-webforms-bootstrap-web-report-viewer";
       paths := [EmptyString] |} ].

Record CodeFile := {
  file_path : string;
  file_download_url : string
}.

Definition listRepoContents (h : Hub) (owner repo path : string)
    (token : option string) : Run (list Entry) :=
  let q := ListContents owner repo path in
  ask (fun past => hub_entries h past q (sent token)) q.

Definition fetchFileContent (h : Hub) (downloadUrl : string)
    (token : option string) : Run (option string) :=
  let q := Download downloadUrl in
  ask (fun past => hub_text h past q (sent token)) q.

Definition is_code_file (path : string) : bool :=
  let ext := Js.toLowerCase path in
  Js.endsWith ext ".cs" || Js.endsWith ext ".aspx" || Js.endsWith ext ".ascx"
  || Js.endsWith ext ".aspx.cs".

Definition SKIPPED_DIRS : list string :=
  ["bin"; "obj"; "node_modules"; ".git"; "packages"; "debug"; "release"].

(** The [for] loop of [findCodeFiles] over the entries of a directory;
    [descend path budget] is the recursive call for a sub-directory. *)
Fixpoint each_item (descend : string → Z → Run (list CodeFile))
    (maxDepth currentDepth maxFiles : Z)
    (items : list Entry) (files : list CodeFile) : Run (list CodeFile) :=
  match items with
  | [] => mret files
  | item :: rest =>
      if maxFiles <=? Js.len_list files then mret files
      else if String.eqb (entry_type item) "file" then
        if is_code_file (entry_path item) then
          match download_url item with
          | Some u =>
              if nonempty u
              then each_item descend maxDepth currentDepth maxFiles rest
                     (files ++ [ {| file_path := entry_path item;
                                    file_download_url := u |} ])%list
              else each_item descend maxDepth currentDepth maxFiles rest files
          | None => each_item descend maxDepth currentDepth maxFiles rest files
          end
        else each_item descend maxDepth currentDepth maxFiles rest files
      else if String.eqb (entry_type item) "dir" && (currentDepth <? maxDepth) then
        let dirName :=
          Js.toLowerCase (default EmptyString (last (Js.split_on "/" (entry_path item)))) in
        if bool_decide (dirName ∈ SKIPPED_DIRS)
        then each_item descend maxDepth currentDepth maxFiles rest files
        else
          _ ← sleep 100;
          subFiles ← descend (entry_path item) (maxFiles - Js.len_list files);
          each_item descend maxDepth currentDepth maxFiles rest
            (files ++ subFiles)%list
      else each_item descend maxDepth currentDepth maxFiles rest files
  end.

(** [findCodeFiles].  A call descends only while
    [currentDepth < maxDepth]; [levels] bounds the nesting of calls, and
    any value above [maxDepth - currentDepth] gives the same result. *)
Fixpoint findCodeFiles (levels : nat) (h : Hub) (owner repo basePath : string)
    (token : option string) (maxDepth currentDepth : Z) (maxFiles : Z)
    {struct levels} : Run (list CodeFile) :=
  match levels with
  | O => mret []
  | S levels' =>
      if maxDepth <? currentDepth then mret []
      else
        contents ← listRepoContents h owner repo basePath token;
        each_item
          (fun path budget =>
             findCodeFiles levels' h owner repo path token maxDepth
               (currentDepth + 1) budget)
          maxDepth currentDepth maxFiles contents []
  end.

(** The stop lists of [extractMetadata]. *)
Definition CLASS_STOPLIST : list string :=
  ["class"; "new"; "return"; "public"; "private"].
Definition METHOD_STOPLIST : list string :=
  ["if"; "for"; "while"; "switch"; "catch"; "using"; "new"].

(** [/\b(?:public|private|protected|internal)?\s*(?:static\s+)?(?:async\s+)?(?:override\s+)?(?:virtual\s+)?\w+\s+(\w+)\s*\(/g] *)
Definition methodRegex : RegExp.re :=
  RegExp.seq
    [ RegExp.WordB;
      RegExp.Opt (RegExp.alt [RegExp.Lit "public"; RegExp.Lit "private";
                              RegExp.Lit "protected"; RegExp.Lit "internal"]);
      RegExp.Star RegExp.space;
      optional_word "static"; optional_word "async";
      optional_word "override"; optional_word "virtual";
      RegExp.Plus RegExp.word; RegExp.Plus RegExp.space;
      RegExp.Cap (RegExp.Plus RegExp.word);
      RegExp.Star RegExp.space; RegExp.Lit "(" ].

Definition extractMetadata (code : string) : list string * list string :=
  let classes :=
    filter (fun c => c ∉ CLASS_STOPLIST) (RegExp.exec_all classRegex code) in
  let methods :=
    filter (fun c => c ∉ METHOD_STOPLIST) (RegExp.exec_all methodRegex code) in
  (Js.set_of_list classes, Js.set_of_list methods).

Definition extractDescription (code : string) : string :=
  let lines := take 30 (Js.split_on (ascii_of_nat 10) code) in
  let marked :=
    filter (fun line => Js.includes line "//" || Js.includes line "/*"
                        || Js.includes line "*" || Js.includes line "///" = true)
           lines in
  let cleaned :=
    map (fun line =>
           Js.trim (RegExp.replace false slashes EmptyString
                      (RegExp.replace false leadingMarks EmptyString
                         (RegExp.replace true commentMarks EmptyString line)))) marked in
  let kept :=
    filter (fun line => (5 <? Js.len line) && negb (Js.includes line "using")
                        && negb (Js.includes line "namespace") = true) cleaned in
  let comments := Js.join " " kept in
  Js.substring comments 0 300.

(** [indexFile] once the file was fetched. *)
Definition index_content (owner repo filePath : string)
    (fetched_content : option string) (time : string) : option GitHubExample :=
  match fetched_content with
  | None => None
  | Some content =>
      if (Js.len content =? 0) || (Js.len content <? 50) then None
      else
        let maxSize := 8000 in
        let truncatedContent := Js.substring content 0 maxSize in
        let '(classes, methods) := extractMetadata content in
        Some {| id := owner ++ "/" ++ repo ++ ":" ++ filePath;
                type := code_file;
                title := title_of filePath;
                filePath := filePath;
                repoName := owner ++ "/" ++ repo;
                repoUrl := "https://github.com/" ++ owner ++ "/" ++ repo;
                fileUrl := "https://github.com/" ++ owner ++ "/" ++ repo
                           ++ "/blob/main/" ++ filePath;
                language := language_of filePath;
                content := truncatedContent;
                contentPreview := Js.substring truncatedContent 0 500;
                relatedClasses := take 15 classes;
                relatedMethods := take 15 methods;
                description := extractDescription content;
                fetchedAt := time |}
  end.

Definition indexFile (h : Hub) (owner repo filePath downloadUrl : string)
    (token : option string) : Run (option GitHubExample) :=
  content ← fetchFileContent h downloadUrl token;
  time ← clock h;
  mret (index_content owner repo filePath content time).

Section Crawl.
Variable h : Hub.
(** the limit, or the next whole number when it is not whole *)
Variable maxFiles : Z.
Variable githubToken : option string.
Variable delayMs : Z.

(** [for (const file of files)]; the accumulator is [examples] and
    [filesIndexed]. *)
Fixpoint each_file (owner repo : string) (files : list CodeFile)
    (acc : list GitHubExample * Z) : Run (list GitHubExample * Z) :=
  match files with
  | [] => mret acc
  | file :: rest =>
      if maxFiles <=? Js.len_list acc.1 then mret acc
      else
        found ← indexFile h owner repo (file_path file)
                  (file_download_url file) githubToken;
        let acc :=
          match found with
          | Some ex => ((acc.1 ++ [ex])%list, acc.2 + 1)
          | None => acc
          end in
        _ ← sleep delayMs;
        each_file owner repo rest acc
  end.

(** [for (const basePath of paths)] *)
Fixpoint each_path (owner repo : string) (basePaths : list string)
    (acc : list GitHubExample * Z) : Run (list GitHubExample * Z) :=
  match basePaths with
  | [] => mret acc
  | basePath :: rest =>
      if maxFiles <=? Js.len_list acc.1 then mret acc
      else
        files ← findCodeFiles 4 h owner repo basePath githubToken 3 0
                  (Z.min 20 (maxFiles - Js.len_list acc.1));
        acc ← each_file owner repo files acc;
        each_path owner repo rest acc
  end.

(** [for (const { owner, repo, paths } of DEVEXPRESS_REPOS)] *)
Fixpoint each_repo (rs : list Repo)
    (acc : list GitHubExample * list RepoCount)
  : Run (list GitHubExample * list RepoCount) :=
  match rs with
  | [] => mret acc
  | r :: rest =>
      if maxFiles <=? Js.len_list acc.1 then mret acc
      else
        done_ ← each_path (owner r) (repo r) (paths r) (acc.1, 0);
        let counts :=
          if 0 <? done_.2
          then (acc.2 ++ [ {| name := owner r ++ "/" ++ repo r;
                              url := "https://github.com/" ++ owner r
                                     ++ "/" ++ repo r;
                              filesIndexed := done_.2 |} ])%list
          else acc.2 in
        _ ← sleep (delayMs * 2);
        each_repo rest (done_.1, counts)
  end.

End Crawl.

Definition crawlGitHubExamples (h : Hub) (options : Options)
  : Run (list GitHubExample * GitHubMetadata) :=
  let maxFiles := default 100 (GitHub.maxFiles options) in
  let delayMs := default 200 (GitHub.delayMs options) in
  started ← clock h;
  r ← each_repo h maxFiles (githubToken options) delayMs DEVEXPRESS_REPOS ([], []);
  mret (r.1, {| totalExamples := Js.len_list r.1;
                lastRefresh := started;
                repos := r.2 |}).

End GitHubWalk.

(* ===================================================================== *)
(** * Query service (server.ts)                                            *)
(* ===================================================================== *)

(** The objects the tool handlers pass to [JSON.stringify].  Fields that
    only render the clock, a duration or a directory are left out. *)
#[local] Unset Elimination Schemes.
Inductive Json :=
| JNull
| JBool (b : bool)
| JInt (n : Z)
| JNum (q : Q)
| JStr (s : string)
| JArr (items : list Json)
| JObj (fields : list (string * Json)).
#[local] Set Elimination Schemes.

Definition field (name : string) (j : Json) : option Json :=
  match j with
  | JObj fields =>
      option_map snd (List.find (fun kv => String.eqb (fst kv) name) fields)
  | _ => None
  end.

Definition JStrs (l : list string) : Json := JArr (map JStr l).

Record SearchResult := {
  hit_id : string;
  hit_score : Q
}.

(** MiniSearch.  An index is the sequence of documents it was built from;
    [search] ranks them for a query with the options the index was created
    with, best score first. *)
Record MiniSearch (A : Type) := { documents : list A }.
Arguments documents {A} _.

Class MiniSearchApi := {
  search_pages : MiniSearch IndexedPage → string → list SearchResult;
  search_examples : MiniSearch GitHub.GitHubExample → string → list SearchResult
}.

(** [buildSearchIndex]: [addAll] throws on a repeated document id, which
    [None] reports. *)
Definition buildSearchIndex (pages : list IndexedPage)
  : option (MiniSearch IndexedPage) :=
  if bool_decide (NoDup (map id pages)) then Some {| documents := pages |}
  else None.

Definition buildGitHubIndex (examples : list GitHub.GitHubExample)
  : option (MiniSearch GitHub.GitHubExample) :=
  if bool_decide (NoDup (map GitHub.id examples))
  then Some {| documents := examples |}
  else None.

(** The global state of the server. *)
Record ServerState := {
  indexedPages : list IndexedPage;
  githubExamples : list GitHub.GitHubExample;
  searchIndex : option (MiniSearch IndexedPage);
  githubSearchIndex : option (MiniSearch GitHub.GitHubExample);
  indexMeta : option IndexMeta;
  githubMeta : option (Z * string)
}.

Definition server0 : ServerState :=
  {| indexedPages := []; githubExamples := []; searchIndex := None;
     githubSearchIndex := None; indexMeta := None; githubMeta := None |}.

Definition saveIndex (w : World) (pages : list IndexedPage) (meta : IndexMeta)
    (s : Sys) : Sys * bool :=
  sys_write w pages meta s.

(** [js_or s d] is [s || d] on strings. *)
Definition js_or (s d : string) : string := if nonempty s then s else d.

Definition truncation_marker (maxChars : Js.number) : string :=
  newline ++ newline ++ "[... truncated at " ++ Js.show maxChars ++ " characters ...]".

Section Handlers.
Context `{UrlApi} `{Cheerio} `{MiniSearchApi}.

(** [handleRefreshIndex], the same in both revisions of the server.  The
    page sequence, the metadata and the index are assigned in this
    order, so a failing [buildSearchIndex] leaves the first two
    replaced. *)
Definition handleRefreshIndex (fuel : nat) (w : World)
    (startUrl : string) (maxPages delayMs : Z) (st : ServerState) (s : Sys)
  : option (Json * ServerState * Sys) :=
  if negb (isAllowedUrl startUrl) then
    Some (JObj [ ("status", JStr "error");
                 ("message", JStr ("Start URL must be on " ++ ALLOWED_HOST
                                   ++ " and start with " ++ ALLOWED_PATH_PREFIX)) ],
          st, s)
  else
    match crawlDocumentation fuel InProcess w s startUrl maxPages delayMs with
    | None => None
    | Some (r, s) =>
        let pages := r_pages r in
        let meta :=
          {| startUrl := startUrl;
             maxPages := maxPages;
             delayMs := delayMs;
             indexedCount := Js.len_list pages;
             visitedCount := r_visited r;
             failureCount := r_failures r;
             lastRefresh := now w (fetched s);
             allowedHost := ALLOWED_HOST;
             allowedPathPrefix := ALLOWED_PATH_PREFIX |} in
        (* the [catch]; the text of the exception is not modelled *)
        let failed :=
          JObj [ ("status", JStr "error"); ("message", JStr "Crawl failed") ] in
        match saveIndex w pages meta s with
        | (s, false) => Some (failed, st, s)
        | (s, true) =>
            let st :=
              {| indexedPages := pages;
                 githubExamples := githubExamples st;
                 searchIndex := searchIndex st;
                 githubSearchIndex := githubSearchIndex st;
                 indexMeta := Some meta;
                 githubMeta := githubMeta st |} in
            match buildSearchIndex pages with
            | None => Some (failed, st, s)
            | Some index =>
                let st :=
                  {| indexedPages := indexedPages st;
                     githubExamples := githubExamples st;
                     searchIndex := Some index;
                     githubSearchIndex := githubSearchIndex st;
                     indexMeta := indexMeta st;
                     githubMeta := githubMeta st |} in
                Some (JObj [ ("status", JStr "success");
                             ("indexedCount", JInt (Js.len_list pages));
                             ("visitedCount", JInt (r_visited r));
                             ("failureCount", JInt (r_failures r));
                             ("lastRefresh", JStr (lastRefresh meta)) ],
                      st, s)
            end
        end
    end.

Definition find_page (st : ServerState) (i : string) : option IndexedPage :=
  List.find (fun p => String.eqb (id p) i) (indexedPages st).

(** [handleOpenTopResult], the same in both revisions.  [maxChars] is
    any number: the text is sliced at it and the marker quotes it. *)
Definition handleOpenTopResult (query : string) (includeCode : bool)
    (maxChars : Js.number) (st : ServerState) : Json :=
  match searchIndex st with
  | None =>
      JObj [ ("status", JStr "no_index");
             ("message", JStr "No index available. Please run devexpress_bootstrap_refresh_index first.") ]
  | Some index =>
      if Js.len_list (indexedPages st) =? 0 then
        JObj [ ("status", JStr "no_index");
               ("message", JStr "No index available. Please run devexpress_bootstrap_refresh_index first.") ]
      else
        let results := search_pages index query in
        match results with
        | [] =>
            JObj [ ("status", JStr "no_results");
                   ("message", JStr ("No results found for query: " ++ dquote
                                     ++ query ++ dquote));
                   ("query", JStr query) ]
        | topResult :: _ =>
            match find_page st (hit_id topResult) with
            | None =>
                JObj [ ("status", JStr "error");
                       ("message", JStr "Internal error: could not find page data for top result") ]
            | Some topPage =>
                if negb (isAllowedUrl (url topPage)) then
                  JObj [ ("status", JStr "error");
                         ("message", JStr "Security error: result URL is not from allowed domain") ]
                else
                  let top3 :=
                    map (fun r =>
                           let page := find_page st (hit_id r) in
                           JObj [ ("title", JStr (js_or (default EmptyString (title <$> page)) "Unknown"));
                                  ("url", JStr (default EmptyString (url <$> page)));
                                  ("score", JNum (hit_score r)) ])
                        (take 3 results) in
                  let text :=
                    if Js.exceeds (Js.len (text topPage)) maxChars
                    then Js.slice_to (text topPage) maxChars
                         ++ truncation_marker maxChars
                    else text topPage in
                  JObj ([ ("status", JStr "success");
                          ("query", JStr query);
                          ("title", JStr (title topPage));
                          ("url", JStr (url topPage));
                          ("fetchedAt", JStr (fetchedAt topPage));
                          ("headings", JStrs (take 10 (headings topPage)));
                          ("text", JStr text);
                          ("top3Results", JArr top3) ]
                        ++ (if includeCode && (0 <? Js.len_list (codeBlocks topPage))
                            then [("codeBlocks", JStrs (take 5 (codeBlocks topPage)))]
                            else []))%list
            end
        end
  end.

Definition find_example (st : ServerState) (i : string)
  : option GitHub.GitHubExample :=
  List.find (fun e => String.eqb (GitHub.id e) i) (githubExamples st).

(** [handleSearchExamples] of the later revision of the server. *)
Definition handleSearchExamples (query : string) (language : option string)
    (maxResults : Z) (st : ServerState) : Json :=
  match githubSearchIndex st with
  | None =>
      JObj [ ("status", JStr "no_index");
             ("message", JStr "No GitHub examples index available. Please run devexpress_bootstrap_refresh_github first.") ]
  | Some index =>
      if Js.len_list (githubExamples st) =? 0 then
        JObj [ ("status", JStr "no_index");
               ("message", JStr "No GitHub examples index available. Please run devexpress_bootstrap_refresh_github first.") ]
      else
        let results := search_examples index query in
        match results with
        | [] =>
            JObj [ ("status", JStr "no_results");
                   ("message", JStr ("No code examples found for query: " ++ dquote
                                     ++ query ++ dquote));
                   ("query", JStr query);
                   ("availableExamples", JInt (Js.len_list (githubExamples st))) ]
        | _ =>
            let filteredResults :=
              match truthy language with
              | Some l =>
                  let langLower := Js.toLowerCase l in
                  filter (fun r =>
                            (GitHub.language <$> find_example st (hit_id r))
                            = Some langLower) results
              | None => results
              end in
            let topResults :=
              omap (fun r =>
                      match find_example st (hit_id r) with
                      | None => None
                      | Some e =>
                          Some (JObj [ ("title", JStr (GitHub.title e));
                                       ("repoName", JStr (GitHub.repoName e));
                                       ("filePath", JStr (GitHub.filePath e));
                                       ("fileUrl", JStr (GitHub.fileUrl e));
                                       ("language", JStr (GitHub.language e));
                                       ("description", JStr (GitHub.description e));
                                       ("contentPreview", JStr (GitHub.contentPreview e));
                                       ("relatedClasses", JStrs (GitHub.relatedClasses e));
                                       ("relatedMethods", JStrs (GitHub.relatedMethods e));
                                       ("score", JNum (hit_score r)) ])
                      end)
                   (Js.slice_list filteredResults 0 maxResults) in
            JObj [ ("status", JStr "success");
                   ("query", JStr query);
                   ("language", JStr (js_or (default EmptyString language) "all"));
                   ("totalResults", JInt (Js.len_list filteredResults));
                   ("returnedResults", JInt (Js.len_list topResults));
                   ("examples", JArr topResults) ]
        end
  end.

End Handlers.

(** [initializeIndex]: the state of the server after start-up, from what
    the four data files held.  [None] when building an index throws, which
    ends the process. *)
Definition initializeIndex (s : Sys)
    (loadedExamples : list GitHub.GitHubExample)
    (loadedMeta : option GitHub.GitHubMetadata) : option ServerState :=
  let pages := default [] (pages_file s) in
  let meta := meta_file s in
  let build {A} (n : Z) (b : option (MiniSearch A)) : option (option (MiniSearch A)) :=
    if 0 <? n then (match b with Some i => Some (Some i) | None => None end)
    else Some None in
  match build (Js.len_list pages) (buildSearchIndex pages),
        build (Js.len_list loadedExamples) (buildGitHubIndex loadedExamples) with
  | Some index, Some githubIndex =>
      Some {| indexedPages := pages;
              githubExamples := loadedExamples;
              searchIndex := index;
              githubSearchIndex := githubIndex;
              indexMeta := meta;
              githubMeta :=
                (fun m => (GitHub.totalExamples m, GitHub.lastRefresh m)) <$> loadedMeta |}
  | _, _ => None
  end.

(** [createSnippet]: white space collapsed and trimmed, then cut to
    [maxLength] characters, the last three of them dots. *)
Definition createSnippet (text : string) (maxLength : Z) : string :=
  let cleaned := Js.trim (Js.collapse_spaces text) in
  if Js.len cleaned <=? maxLength then cleaned
  else Js.slice cleaned 0 (maxLength - 3) ++ "...".

(* ===================================================================== *)
(** * Tool calls (server.ts, later revision)                               *)
(* ===================================================================== *)

(** The two files of the code examples. *)
Record CodeDisk := {
  examples_file : option (list GitHub.GitHubExample);
  examples_meta_file : option GitHub.GitHubMetadata
}.

Definition code_disk0 : CodeDisk :=
  {| examples_file := None; examples_meta_file := None |}.

(** [saveGitHubExamples] of the tree-walking revision: the examples are
    written first, then the metadata; the flag is [false] when a write
    throws, which the function throws on.  Creating the data directory is
    taken to succeed. *)
Definition saveGitHubExamples (w : World)
    (examples : list GitHub.GitHubExample) (meta : GitHub.GitHubMetadata)
    (s : Sys) (d : CodeDisk) : Sys * CodeDisk * bool :=
  if write_ok w (write_attempts s) then
    let s := sys_attempt s in
    let d := {| examples_file := Some examples;
                examples_meta_file := examples_meta_file d |} in
    if write_ok w (write_attempts s) then
      (sys_attempt s,
       {| examples_file := examples_file d; examples_meta_file := Some meta |},
       true)
    else (sys_attempt s, d, false)
  else (sys_attempt s, d, false).

(** [saveGitHubExamples] of the search revision, which throws when the
    data directory does not exist. *)
Definition saveGitHubExamples_v1 (dataDirExists : bool) (w : World)
    (examples : list GitHub.GitHubExample) (meta : GitHub.GitHubMetadata)
    (s : Sys) (d : CodeDisk) : Sys * CodeDisk * bool :=
  if dataDirExists then saveGitHubExamples w examples meta s d
  else (s, d, false).

(** Everything a tool call can read or change. *)
Record Machine := {
  server : ServerState;
  disk : Sys;
  code_disk : CodeDisk;
  github : GitHub.Trace
}.

(** What the server imports from github-crawler.ts. *)
Record CrawlerModule := {
  crawl_examples :
    GitHub.Options →
    GitHub.Run (list GitHub.GitHubExample * GitHub.GitHubMetadata);
  save_examples :
    list GitHub.GitHubExample → GitHub.GitHubMetadata → Sys → CodeDisk →
    Sys * CodeDisk * bool
}.

(** The tree-walking revision of the module, and the search revision. *)
Definition walk_module (h : GitHub.Hub) (w : World) : CrawlerModule :=
  {| crawl_examples := GitHubWalk.crawlGitHubExamples h;
     save_examples := saveGitHubExamples w |}.

Definition search_module (h : GitHub.Hub) (w : World) (dataDirExists : bool)
  : CrawlerModule :=
  {| crawl_examples := GitHubSearch.crawlGitHubExamples h;
     save_examples := saveGitHubExamples_v1 dataDirExists w |}.

Definition repo_json (r : GitHub.RepoCount) : Json :=
  JObj [ ("name", JStr (GitHub.name r)); ("url", JStr (GitHub.url r));
         ("filesIndexed", JInt (GitHub.filesIndexed r)) ].

(** [handleRefreshGitHub].  The examples, the metadata and the index are
    assigned in this order, after the files were written. *)
Definition handleRefreshGitHub (g : CrawlerModule)
    (maxFiles : Z) (githubToken : option string) (delayMs : Z) (m : Machine)
  : Json * Machine :=
  let '((examples, meta), t) :=
    crawl_examples g
      {| GitHub.maxFiles := Some maxFiles;
         GitHub.githubToken := githubToken;
         GitHub.delayMs := Some delayMs |} (github m) in
  (* the [catch]; the text of the exception is not modelled *)
  let failed :=
    JObj [ ("status", JStr "error"); ("message", JStr "GitHub indexing failed") ] in
  let st := server m in
  match save_examples g examples meta (disk m) (code_disk m) with
  | (s, d, false) =>
      (failed, {| server := st; disk := s; code_disk := d; github := t |})
  | (s, d, true) =>
      let st :=
        {| indexedPages := indexedPages st;
           githubExamples := examples;
           searchIndex := searchIndex st;
           githubSearchIndex := githubSearchIndex st;
           indexMeta := indexMeta st;
           githubMeta := Some (GitHub.totalExamples meta, GitHub.lastRefresh meta) |} in
      match buildGitHubIndex examples with
      | None =>
          (failed, {| server := st; disk := s; code_disk := d; github := t |})
      | Some index =>
          let st :=
            {| indexedPages := indexedPages st;
               githubExamples := githubExamples st;
               searchIndex := searchIndex st;
               githubSearchIndex := Some index;
               indexMeta := indexMeta st;
               githubMeta := githubMeta st |} in
          (JObj [ ("status", JStr "success");
                  ("message",
                   JStr ("Successfully indexed " ++ Js.of_Z (Js.len_list examples)
                         ++ " GitHub code examples from "
                         ++ Js.of_Z (Js.len_list (GitHub.repos meta))
                         ++ " repositories."));
                  ("totalExamples", JInt (Js.len_list examples));
                  ("repos", JArr (map repo_json (GitHub.repos meta)));
                  ("reposSummary",
                   JStr (Js.join ", "
                           (map (fun r => GitHub.name r ++ ": "
                                          ++ Js.of_Z (GitHub.filesIndexed r)
                                          ++ " files")
                                (GitHub.repos meta))));
                  ("lastRefresh", JStr (GitHub.lastRefresh meta)) ],
           {| server := st; disk := s; code_disk := d; github := t |})
      end
  end.

(** [handleStatus] of the later revision. *)
Definition handleStatus (st : ServerState) : Json :=
  JObj [ ("status", JStr "ok");
         ("documentation",
          match indexMeta st with
          | Some meta =>
              JObj [ ("indexedCount", JInt (indexedCount meta));
                     ("visitedCount", JInt (visitedCount meta));
                     ("failureCount", JInt (failureCount meta));
                     ("lastRefresh", JStr (lastRefresh meta));
                     ("startUrl", JStr (startUrl meta)) ]
          | None =>
              JObj [ ("indexedCount", JInt 0);
                     ("message", JStr "No documentation index. Run devexpress_bootstrap_refresh first.") ]
          end);
         ("githubExamples",
          match githubMeta st with
          | Some (total, refreshed) =>
              JObj [ ("totalExamples", JInt total);
                     ("lastRefresh", JStr refreshed) ]
          | None =>
              JObj [ ("totalExamples", JInt 0);
                     ("message", JStr "No GitHub examples. Run devexpress_bootstrap_refresh_github first.") ]
          end) ].

(** The arguments of a tool call, typed as the input schemas of the
    tools type them; an argument may be absent. *)
Record ToolArgs := {
  arg_startUrl : option string;
  arg_maxPages : option Z;
  arg_delayMs : option Z;
  arg_query : option string;
  arg_includeCode : option bool;
  arg_maxChars : option Js.number;
  arg_maxFiles : option Z;
  arg_githubToken : option string;
  arg_language : option string;
  arg_maxResults : option Z
}.

Definition no_args : ToolArgs :=
  {| arg_startUrl := None; arg_maxPages := None; arg_delayMs := None;
     arg_query := None; arg_includeCode := None; arg_maxChars := None;
     arg_maxFiles := None; arg_githubToken := None; arg_language := None;
     arg_maxResults := None |}.

(** The result of a tool call: the text, before [JSON.stringify], and
    the error flag. *)
Record ToolResult := {
  result_text : Json;
  isError : bool
}.

(** [(args?.x as number) || d] and [(args?.x as string) || d] *)
Definition number_or (x : option Z) (d : Z) : Z := or_default (default 0 x) d.
Definition any_number_or (x : option Js.number) (d : Js.number) : Js.number :=
  match x with
  | Some n => if Js.falsy n then d else n
  | None => d
  end.
Definition string_or (x : option string) (d : string) : string :=
  js_or (default EmptyString x) d.

Definition query_required : ToolResult :=
  {| result_text := JObj [ ("status", JStr "error");
                           ("message", JStr "Query parameter is required") ];
     isError := true |}.

(** The [case] labels of the dispatcher: those of the tools that need a
    query, and all of them. *)
Definition QUERY_TOOLS : list string :=
  [ "devexpress_bootstrap_open_top_result"; "devexpress_bootstrap_open_to";
    "devexpress_bootstrap_search_examples" ].

Definition TOOL_NAMES : list string :=
  [ "devexpress_bootstrap_status"; "devexpress_bootstrap_refresh_index";
    "devexpress_bootstrap_refresh_github" ] ++ QUERY_TOOLS.

Section ToolCalls.
Context `{UrlApi} `{Cheerio} `{MiniSearchApi}.

(** The handler of [CallToolRequestSchema].  [None] when the crawl of a
    refresh runs out of fuel.  The handlers as modelled do not throw, so
    the [catch] of the dispatcher is not reached. *)
Definition callTool (fuel : nat) (w : World) (g : CrawlerModule)
    (name : string) (args : ToolArgs) (m : Machine)
  : option (ToolResult * Machine) :=
  let answer (text : Json) := {| result_text := text; isError := false |} in
  if String.eqb name "devexpress_bootstrap_status" then
    Some (answer (handleStatus (server m)), m)
  else if String.eqb name "devexpress_bootstrap_refresh_index" then
    let startUrl := string_or (arg_startUrl args) DEFAULT_START_URL in
    let maxPages := number_or (arg_maxPages args) DEFAULT_MAX_PAGES in
    let delayMs := number_or (arg_delayMs args) DEFAULT_DELAY_MS in
    match handleRefreshIndex fuel w startUrl maxPages delayMs (server m) (disk m) with
    | Some (text, st, s) =>
        Some (answer text,
              {| server := st; disk := s; code_disk := code_disk m;
                 github := github m |})
    | None => None
    end
  else if String.eqb name "devexpress_bootstrap_open_top_result"
          || String.eqb name "devexpress_bootstrap_open_to" then
    match truthy (arg_query args) with
    | None => Some (query_required, m)
    | Some query =>
        let includeCode := default true (arg_includeCode args) in
        let maxChars := any_number_or (arg_maxChars args) 15000 in
        Some (answer (handleOpenTopResult query includeCode maxChars (server m)), m)
    end
  else if String.eqb name "devexpress_bootstrap_refresh_github" then
    let maxFiles := number_or (arg_maxFiles args) 100 in
    let delayMs := number_or (arg_delayMs args) 200 in
    let '(text, m) :=
      handleRefreshGitHub g maxFiles (arg_githubToken args) delayMs m in
    Some (answer text, m)
  else if String.eqb name "devexpress_bootstrap_search_examples" then
    match truthy (arg_query args) with
    | None => Some (query_required, m)
    | Some query =>
        let maxResults := number_or (arg_maxResults args) 5 in
        Some (answer (handleSearchExamples query (arg_language args) maxResults
                        (server m)), m)
    end
  else
    Some ({| result_text := JObj [ ("status", JStr "error");
                                   ("message", JStr ("Unknown tool: " ++ name)) ];
             isError := true |}, m).

End ToolCalls.

(* ===================================================================== *)
(** * Sample runtime: plain http(s) URLs                                   *)
(* ===================================================================== *)

(** The URL class on the URLs that the parser of the URL Standard leaves
    as they are: [http://] or [https://], a lower-case domain name, an
    optional port, a path of unreserved characters without dot segments,
    and an optional query and fragment of unreserved characters.  On these
    the functions below give what the URL Standard prescribes.  Other
    strings are outside this sample: [new_url] rejects them. *)
Module PlainUrl.

Record t := {
  scheme : string;
  hostname : string;
  port : option Z;
  path : string;
  query : option string;
  fragment : option string
}.

(** The longest prefix of characters satisfying [p], and the rest. *)
Fixpoint span (p : ascii → bool) (s : string) : string * string :=
  match s with
  | String c s' =>
      if p c then let '(a, b) := span p s' in (String c a, b)
      else (EmptyString, s)
  | EmptyString => (EmptyString, EmptyString)
  end.

Definition all_chars (p : ascii → bool) (s : string) : bool :=
  forallb p (list_ascii_of_string s).

Definition in_range (lo hi : nat) (c : ascii) : bool :=
  let n := nat_of_ascii c in ((lo <=? n) && (n <=? hi))%nat.

Definition lower (c : ascii) : bool := in_range 97 122 c.
Definition digit (c : ascii) : bool := in_range 48 57 c.
Definition alnum (c : ascii) : bool := lower c || in_range 65 90 c || digit c.
Definition is_char (x : ascii) (c : ascii) : bool := Ascii.eqb c x.

Definition host_char (c : ascii) : bool :=
  lower c || digit c || is_char "." c || is_char "-" c.
Definition path_char (c : ascii) : bool :=
  alnum c || is_char "/" c || is_char "_" c || is_char "." c
  || is_char "~" c || is_char "-" c.
Definition query_char (c : ascii) : bool :=
  alnum c || is_char "=" c || is_char "&" c || is_char "_" c
  || is_char "." c || is_char "-" c || is_char "/" c.

Definition good_host (h : string) : bool :=
  nonempty h && all_chars host_char h
  && match h with String c _ => lower c || digit c | EmptyString => false end
  && match String.get (String.length h - 1) h with
     | Some c => lower c
     | None => false
     end
  && negb (Js.includes h "..") && negb (Js.includes h "xn--").

Definition good_path (p : string) : bool :=
  all_chars path_char p
  && forallb (fun seg => negb (String.eqb seg ".") && negb (String.eqb seg ".."))
             (Js.split_on "/" p).

Fixpoint number_of (digits : list ascii) (acc : Z) : Z :=
  match digits with
  | [] => acc
  | c :: rest => number_of rest (acc * 10 + Z.of_nat (nat_of_ascii c - 48))
  end.

Definition default_port (scheme : string) : Z :=
  if String.eqb scheme "https" then 443 else 80.

Definition parse_port (scheme : string) (text : string) : option (option Z) :=
  match text with
  | EmptyString => Some None
  | String colon ds =>
      if is_char ":" colon && nonempty ds && all_chars digit ds
         && negb (String.prefix "0" ds) then
        let n := number_of (list_ascii_of_string ds) 0 in
        if 65535 <? n then None
        else if n =? default_port scheme then Some None
        else Some (Some n)
      else None
  end.

Definition new_url (s : string) : option t :=
  let after_scheme :=
    if String.prefix "https://" s
    then Some ("https", String.substring 8 (String.length s - 8) s)
    else if String.prefix "http://" s
    then Some ("http", String.substring 7 (String.length s - 7) s)
    else None in
  match after_scheme with
  | None => None
  | Some (sch, rest) =>
      let '(authority, rest) :=
        span (fun c => negb (is_char "/" c || is_char "?" c || is_char "#" c)) rest in
      let '(host, port_text) := span (fun c => negb (is_char ":" c)) authority in
      let '(p, rest) :=
        span (fun c => negb (is_char "?" c || is_char "#" c)) rest in
      let '(q, rest) :=
        match rest with
        | String c r =>
            if is_char "?" c then
              let '(q, rest') := span (fun c => negb (is_char "#" c)) r in
              (Some q, rest')
            else (None, rest)
        | EmptyString => (None, rest)
        end in
      let f :=
        match rest with
        | String c r => if is_char "#" c then Some r else None
        | EmptyString => None
        end in
      match parse_port sch port_text with
      | None => None
      | Some prt =>
          if good_host host && good_path p
             && all_chars query_char (default EmptyString q)
             && all_chars query_char (default EmptyString f)
          then Some {| scheme := sch; hostname := host; port := prt;
                       path := if nonempty p then p else "/";
                       query := q; fragment := f |}
          else None
      end
  end.

Definition host (u : t) : string :=
  match port u with
  | Some n => hostname u ++ ":" ++ Js.of_Z n
  | None => hostname u
  end.

Definition href (u : t) : string :=
  scheme u ++ "://" ++ host u ++ path u
  ++ match query u with Some q => "?" ++ q | None => EmptyString end
  ++ match fragment u with Some f => "#" ++ f | None => EmptyString end.

(** Setting [hash] or [search] to the empty string removes the
    component; another value replaces it (a leading [#] or [?] is not
    part of the component). *)
Definition component (mark : ascii) (v : string) : option string :=
  match v with
  | EmptyString => None
  | String c r => if Ascii.eqb c mark then Some r else Some v
  end.

Definition set_hash (u : t) (v : string) : t :=
  {| scheme := scheme u; hostname := hostname u; port := port u;
     path := path u; query := query u; fragment := component "#" v |}.

Definition set_search (u : t) (v : string) : t :=
  {| scheme := scheme u; hostname := hostname u; port := port u;
     path := path u; query := component "?" v; fragment := fragment u |}.

(** [new URL(ref, base)] for an absolute reference or a path that
    starts with one slash. *)
Definition new_url_base (ref base : string) : option t :=
  match new_url ref with
  | Some u => Some u
  | None =>
      match new_url base with
      | Some b =>
          if String.prefix "/" ref && negb (String.prefix "//" ref)
          then new_url (scheme b ++ "://" ++ host b ++ ref)
          else None
      | None => None
      end
  end.

#[export] Instance api : UrlApi :=
  {| URL := t;
     URL_new := new_url;
     URL_new_base := new_url_base;
     URL_host := host;
     URL_pathname := path;
     URL_href := href;
     URL_set_hash := set_hash;
     URL_set_search := set_search |}.

End PlainUrl.

(* ===================================================================== *)
(** * Sample documents, sites and repositories                             *)
(* ===================================================================== *)

Module Sample.

(** A document format for sample runs: the text of a page is the list
    of its link targets, separated by blanks. *)
#[export] Instance link_pages : Cheerio :=
  {| Dom := string;
     cheerio_load := fun html => html;
     sel_attr := fun _ _ _ => None;
     sel_text := fun dom sel => if String.eqb sel "body" then dom else EmptyString;
     sel_each_text := fun _ _ => [];
     sel_each_attr := fun dom sel a =>
       if String.eqb sel "a[href]" && String.eqb a "href"
       then map Some (filter (fun t => nonempty t = true) (Js.split_on " " dom))
       else [];
     sel_remove := fun dom _ => dom |}.

(** A search engine for sample runs: the documents whose title or text
    contains the query, in index order, all with score 1. *)
#[export] Instance substring_search : MiniSearchApi :=
  {| search_pages := fun index q =>
       map (fun p => {| hit_id := id p; hit_score := 1 |})
           (filter (fun p => Js.includes (title p) q || Js.includes (text p) q = true)
                   (documents index));
     search_examples := fun index q =>
       map (fun e => {| hit_id := GitHub.id e; hit_score := 1 |})
           (filter (fun e => Js.includes (GitHub.content e) q = true)
                   (documents index)) |}.

Definition respond (code : Z) (html : string) : FetchOutcome :=
  Responded {| status := code; body := Some html |}.

(** A site that answers each listed URL with its outcome and every
    other URL with 404. *)
Definition site (answers : list (string * FetchOutcome)) : World :=
  {| fetch := fun _ u =>
       match List.find (fun a => String.eqb (fst a) u) answers with
       | Some a => snd a
       | None => respond 404 EmptyString
       end;
     now := fun past => "request " ++ Js.of_Z (Js.len_list past);
     write_ok := fun _ => true |}.

Definition doc (n : string) : string :=
  "https://docs.devexpress.com/AspNetBootstrap/" ++ n.

Definition broken_links : list string :=
  map doc ["b1"; "b2"; "b3"; "b4"; "b5"; "b6"; "b7"; "b8"; "b9"; "b10"].

(** The start page links to ten pages that answer 503 and then to one
    that is fine. *)
Definition outage : World :=
  site ((DEFAULT_START_URL, respond 200 (Js.join " " (broken_links ++ [doc "fine"])))
        :: (doc "fine", respond 200 EmptyString)
        :: map (fun u => (u, respond 503 EmptyString)) broken_links).

(** A start page with three links: in scope, wrong prefix, wrong host. *)
Definition small_site : World :=
  site [ (doc "page1",
          respond 200 "/AspNetBootstrap/page2 /Other/page3 https://other.example.com/AspNetBootstrap/page4");
         (doc "page2", respond 200 EmptyString) ].

Definition cli0 : Cli :=
  {| cli_url := DEFAULT_START_URL; cli_max := 800; cli_delay := 200;
     cli_continue := false |}.

Definition page (u t : string) : IndexedPage :=
  {| id := hashString u; url := u; title := t; headings := [];
     text := "DevExpress Bootstrap GridView supports batch editing.";
     codeBlocks := ["<dx:BootstrapGridView />"]; fetchedAt := "t0" |}.

Definition grid_page : IndexedPage := page (doc "grid") "Grid View".
Definition tree_page : IndexedPage := page (doc "tree") "Tree View".

(** A server that holds one documentation page. *)
Definition one_page_server : ServerState :=
  {| indexedPages := [grid_page]; githubExamples := [];
     searchIndex := Some {| documents := [grid_page] |};
     githubSearchIndex := None; indexMeta := None; githubMeta := None |}.

Definition thirty_bytes : string := "class A { } // thirty bytes...".

Definition twice : string :=
  "public class Grid { void Bind () { } } class Grid { void Bind () { } } // pad pad pad".

(** A GitHub on which every search finds the file [Demo.cs], and every
    file has the given text. *)
Definition hub_with (file_text : string) : GitHub.Hub :=
  {| GitHub.hub_text := fun _ _ _ => Some file_text;
     GitHub.hub_items := fun _ _ _ =>
       [ {| GitHub.item_path := "Demo.cs";
            GitHub.item_url := "https://github.com/x/y/blob/main/Demo.cs" |} ];
     GitHub.hub_entries := fun _ q _ =>
       match q with
       | GitHub.ListContents _ _ dir =>
           if bool_decide (dir ∈ [EmptyString; "net"; "CS"]) then
             [ {| GitHub.entry_path := "Demo.cs"; GitHub.entry_type := "file";
                  GitHub.download_url := Some "https://raw.example/Demo.cs" |} ]
           else []
       | _ => []
       end;
     GitHub.hub_now := fun _ => "t0" |}.

Definition options1 : GitHub.Options :=
  {| GitHub.maxFiles := Some 1; GitHub.githubToken := None;
     GitHub.delayMs := Some 0 |}.

End Sample.

(** [n] passes through the loop body, none of which leaves the loop. *)
Fixpoint passes `{UrlApi} `{Cheerio} (k : Crawler) (w : World) (delayMs maxPages : Z)
    (n : nat) (st : CrawlState) : option CrawlState :=
  match n with
  | O => Some st
  | S n' =>
      if loop_test maxPages st then
        match loop_body k w delayMs st with
        | Continue st' => passes k w delayMs maxPages n' st'
        | Break _ => None
        end
      else None
  end.

(* ===================================================================== *)
(** * Vocabulary of the properties                                         *)
(* ===================================================================== *)

(** The scope filter accepts the URL under which a page is stored. *)
Definition allowed_page `{UrlApi} (p : IndexedPage) : Prop :=
  isAllowedUrl (url p) = true.

(** What holds of the crawl state whenever the loop test is evaluated and
    when the loop is left. *)
Record CrawlInv `{UrlApi} (maxPages : Z) (s0 : Sys) (st : CrawlState) : Prop := {
  inv_allowed : Forall allowed_page (pages st);
  inv_visited : ∀ p, p ∈ pages st → url p ∈ visited st;
  inv_nodup : NoDup (map url (pages st));
  inv_counts : 0 ≤ consecutiveFailures st ≤ failures st;
  inv_bound : pages st = [] ∨ Js.len_list (pages st) ≤ maxPages;
  inv_file : pages_file (sys st) = pages_file s0
             ∨ ∃ ps, pages_file (sys st) = Some ps ∧ Forall allowed_page ps
}.

(** Sample runs, on plain URLs and link-list documents. *)
Module Runs.
Import Sample.
#[local] Existing Instance PlainUrl.api.

(** The stand-alone crawler on [outage] after the start page and nine
    failed requests. *)
Definition outage_head : CrawlState :=
  default (crawl_init DEFAULT_START_URL sys0)
    (passes (Standalone cli0) outage 200 800 10
       (crawl_init DEFAULT_START_URL sys0)).

Definition outage_end : CrawlState :=
  control_state (loop_body (Standalone cli0) outage 200 outage_head).

Definition allowed_root : string := "https://docs.devexpress.com/AspNetBootstrap/".
Definition double_slash : string := "https://docs.devexpress.com/AspNetBootstrap/x//".
Definition elsewhere : string := "https://example.com/AspNetBootstrap/x".

End Runs.

(** A stored code example and the text of the file it was made from. *)
Definition search_indexed (e : GitHub.GitHubExample) (file_text : string) : Prop :=
  ∃ owner repo filePath fileUrl time,
    GitHubSearch.index_content owner repo filePath fileUrl (Some file_text) time
    = Some e.

Definition walk_indexed (e : GitHub.GitHubExample) (file_text : string) : Prop :=
  ∃ owner repo filePath time,
    GitHubWalk.index_content owner repo filePath (Some file_text) time = Some e.

(** The metadata of an example holds no name twice and no stop word. *)
Definition clean_metadata (e : GitHub.GitHubExample) : Prop :=
  NoDup (GitHub.relatedClasses e)
  ∧ NoDup (GitHub.relatedMethods e)
  ∧ (∀ c, c ∈ GitHub.relatedClasses e → c ∉ GitHubWalk.CLASS_STOPLIST)
  ∧ (∀ m, m ∈ GitHub.relatedMethods e → m ∉ GitHubWalk.METHOD_STOPLIST).

(** The requests of a run that started in [s0] and has reached [s]. *)
Definition requests_of (s0 s : Sys) : list string :=
  drop (List.length (fetched s0)) (fetched s).

(** No write of the crawl can fail: the in-process crawler writes nothing,
    the stand-alone crawler needs a disk that accepts every write. *)
Definition reliable (k : Crawler) (w : World) : Prop :=
  k = InProcess ∨ ∀ n, write_ok w n = true.

(** What the request log [new] of a crawl has to do with its state. *)
Record CrawlLog `{UrlApi} (k : Crawler) (w : World) (s0 : Sys)
    (st : CrawlState) (new : list string) : Prop := {
  log_fetched : fetched (sys st) = (fetched s0 ++ new)%list;
  log_nodup : NoDup new;
  log_allowed : Forall (fun u => isAllowedUrl u = true) new;
  log_visited : ∀ u, u ∈ new → u ∈ visited st;
  log_pages : sublist (map url (pages st)) new;
  log_ids : Forall (fun p => id p = hashString (url p)) (pages st);
  log_account : Js.len_list new ≤ Js.len_list (pages st) + failures st;
  log_exact : reliable k w →
              Js.len_list new = Js.len_list (pages st) + failures st
}.

(** What the two data files hold during a crawl: they are as the crawl
    found them, or pages.json holds the first [n] pages of the crawl, [n]
    a multiple of 50, and meta.json is as it was found or counts no more
    pages than that. *)
Record CrawlFiles (k : Crawler) (s0 : Sys) (st : CrawlState) : Prop := {
  files_state :
    (pages_file (sys st) = pages_file s0 ∧ meta_file (sys st) = meta_file s0)
    ∨ ∃ n : nat,
        (0 < n ≤ List.length (pages st))%nat ∧ Z.of_nat n mod 50 = 0
        ∧ pages_file (sys st) = Some (take n (pages st))
        ∧ (meta_file (sys st) = meta_file s0
           ∨ ∃ m, meta_file (sys st) = Some m
                  ∧ 0 < indexedCount m ≤ Z.of_nat n
                  ∧ indexedCount m mod 50 = 0);
  files_in_process :
    k = InProcess →
    write_attempts (sys st) = write_attempts s0
    ∧ pages_file (sys st) = pages_file s0
    ∧ meta_file (sys st) = meta_file s0
}.

(** A file that [findCodeFiles] may return: a code file by its name, with
    a download URL. *)
Definition code_file_ok (f : GitHubWalk.CodeFile) : Prop :=
  GitHubWalk.is_code_file (GitHubWalk.file_path f) = true
  ∧ GitHubWalk.file_download_url f ≠ EmptyString.

(** The name of a directory as [findCodeFiles] compares it with the
    directories to skip. *)
Definition dir_name (path : string) : string :=
  Js.toLowerCase (default EmptyString (last (Js.split_on "/" path))).

(** A request that lists [basePath] or a directory that is not skipped. *)
Definition lists_from (owner repo basePath : string) (q : GitHub.Request) : Prop :=
  ∃ path,
    q = GitHub.ListContents owner repo path
    ∧ (path = basePath ∨ dir_name path ∉ GitHubWalk.SKIPPED_DIRS).

(** The sum of the per-repository counts of a metadata record. *)
Definition files_counted (counts : list GitHub.RepoCount) : Z :=
  foldr (fun c n => GitHub.filesIndexed c + n) 0 counts.

(** The fields of a stored example that both revisions bound alike. *)
Definition bounded_example (names words : Z) (e : GitHub.GitHubExample) : Prop :=
  GitHub.type e = GitHub.code_file
  ∧ GitHub.language e ∈ ["csharp"; "aspx"; "ascx"]
  ∧ GitHub.contentPreview e = Js.substring (GitHub.content e) 0 500
  ∧ Js.len (GitHub.contentPreview e) ≤ 500
  ∧ Js.len_list (GitHub.relatedClasses e) ≤ names
  ∧ Js.len_list (GitHub.relatedMethods e) ≤ names
  ∧ Js.len (GitHub.description e) ≤ words.

(** What a loop of the indexer does to its accumulator of examples and
    to its counter: as many examples added as counted, none removed, and
    the limit kept. *)
Definition counted (maxFiles : Z)
    (acc r : list GitHub.GitHubExample * Z) : Prop :=
  r.2 - acc.2 = Js.len_list r.1 - Js.len_list acc.1
  ∧ acc.2 ≤ r.2
  ∧ Js.len_list r.1 ≤ Z.max (Js.len_list acc.1) maxFiles.

(** What the loop over repositories does: the counts it appends are
    positive and add up to the examples it appends. *)
Definition tallied (maxFiles : Z)
    (acc r : list GitHub.GitHubExample * list GitHub.RepoCount) : Prop :=
  files_counted r.2 - files_counted acc.2 = Js.len_list r.1 - Js.len_list acc.1
  ∧ (Forall (fun c => 0 < GitHub.filesIndexed c) acc.2 →
     Forall (fun c => 0 < GitHub.filesIndexed c) r.2)
  ∧ Js.len_list r.1 ≤ Z.max (Js.len_list acc.1) maxFiles.

(** The pauses of a crawl: the time slept is a number of naps of
    [delayMs] each (none for a delay of zero or less), at least the pages
    stored less [slack], at most the requests sent. *)
Definition paced (delayMs : Z) (s0 : Sys) (slack : Z) (st : CrawlState) : Prop :=
  ∃ naps,
    slept (sys st) = slept s0 + Z.max 0 delayMs * naps
    ∧ Js.len_list (pages st) - slack ≤ naps
    ∧ naps ≤ Js.len_list (fetched (sys st)) - Js.len_list (fetched s0).

(** The result of an indexing run keeps a limit that is a whole number
    and counts itself. *)
Definition counts_examples (options : GitHub.Options)
    (r : list GitHub.GitHubExample * GitHub.GitHubMetadata) : Prop :=
  Js.len_list r.1 ≤ Z.max 0 (default 100 (GitHub.maxFiles options))
  ∧ GitHub.totalExamples r.2 = Js.len_list r.1
  ∧ Forall (fun c => 0 < GitHub.filesIndexed c) (GitHub.repos r.2)
  ∧ files_counted (GitHub.repos r.2) = GitHub.totalExamples r.2.

(** The limits [maxPages] and [maxFiles] are numbers that need not be
    whole.  The loops compare them with whole counts ([pages.length <
    maxPages], [files.length >= maxFiles]), subtract whole counts from
    them ([maxFiles - files.length]) and cap them by a whole number
    ([Math.min(20, ...)]), no more: a limit acts as the whole number it
    is, or as the next one above it. *)
Definition whole_limit (limit : Q) : Z := Qceiling limit.

(** A count that a loop keeps within such a limit: nothing for a limit of
    zero or less; for a positive limit, less than one above it (the loop
    stops with the first item that reaches the limit). *)
Definition within_limit (limit : Q) (count : Z) : Prop :=
  ((limit <= 0)%Q → count = 0)
  ∧ ((0 < limit)%Q → (inject_Z count < limit + 1)%Q).

(** The result of an indexing run keeps the limit, whole or not, and
    counts itself. *)
Definition counts_itself (limit : Q)
    (r : list GitHub.GitHubExample * GitHub.GitHubMetadata) : Prop :=
  within_limit limit (Js.len_list r.1)
  ∧ GitHub.totalExamples r.2 = Js.len_list r.1
  ∧ Forall (fun c => 0 < GitHub.filesIndexed c) (GitHub.repos r.2)
  ∧ files_counted (GitHub.repos r.2) = GitHub.totalExamples r.2.

(** A string in which white space occurs only as single blanks;
    [after_blank] tells that the character before it was a blank. *)
Fixpoint single_blanks (after_blank : bool) (s : string) : bool :=
  match s with
  | EmptyString => true
  | String c s' =>
      if Js.is_space c
      then Ascii.eqb c " " && negb after_blank && single_blanks true s'
      else single_blanks false s'
  end.

(** A string that does not begin with white space. *)
Definition starts_clean (s : string) : Prop :=
  match s with
  | EmptyString => True
  | String c _ => Js.is_space c = false
  end.

(** The text fields of a stored page as the crawl cleans them: title and
    text without white space at either end, the text with single blanks
    as its only white space, no heading and no code block empty or with
    white space at either end. *)
Definition clean_page (p : IndexedPage) : Prop :=
  Js.trim (title p) = title p
  ∧ Js.trim (text p) = text p
  ∧ Js.collapse_spaces (text p) = text p
  ∧ Forall (fun h => h ≠ EmptyString ∧ Js.trim h = h) (headings p)
  ∧ Forall (fun b => b ≠ EmptyString ∧ Js.trim b = b) (codeBlocks p).

(** Further sample runs. *)
Module Replay.
Import Sample.
#[local] Existing Instance PlainUrl.api.

(** What a crawl returned, or nothing when it ran out of fuel. *)
Definition outcome (run : option (CrawlResult * Sys)) : CrawlResult * Sys :=
  default ({| r_pages := []; r_visited := 0; r_failures := 0 |}, sys0) run.

Definition small_crawl : CrawlResult * Sys :=
  outcome (crawlDocumentation 30 InProcess small_site sys0 (doc "page1") 800 200).

Definition outage_crawl : CrawlResult * Sys :=
  outcome (crawlDocumentation 30 (Standalone cli0) outage sys0
             DEFAULT_START_URL 800 200).

(** Sixty pages, each linking to the next; the last link is dead. *)
Definition chain_page (i : nat) : string := doc ("p" ++ Js.of_Z (Z.of_nat i)).

Definition chain : World :=
  site (map (fun i => (chain_page i,
                       respond 200 ("/AspNetBootstrap/p"
                                    ++ Js.of_Z (Z.of_nat (S i)))))
            (seq 0 60)).

Definition chain_cli : Cli :=
  {| cli_url := chain_page 0; cli_max := 800; cli_delay := 0;
     cli_continue := false |}.

Definition chain_crawl : CrawlResult * Sys :=
  outcome (crawlDocumentation 100 (Standalone chain_cli) chain sys0
             (chain_page 0) 800 0).

(** The same site crawled by the server with a page limit of 2.5. *)
Definition chain_cut : CrawlResult * Sys :=
  outcome (crawlDocumentation 100 InProcess chain sys0 (chain_page 0)
             (whole_limit (5 # 2)) 0).

(** A repository with five code files in its root directory. *)
Definition five_files : GitHub.Hub :=
  {| GitHub.hub_text := fun _ _ _ => Some twice;
     GitHub.hub_items := fun _ _ _ => [];
     GitHub.hub_entries := fun _ q _ =>
       match q with
       | GitHub.ListContents _ _ dir =>
           if String.eqb dir EmptyString then
             map (fun i =>
                    {| GitHub.entry_path := "Demo" ++ Js.of_Z i ++ ".cs";
                       GitHub.entry_type := "file";
                       GitHub.download_url :=
                         Some ("https://raw.example/Demo" ++ Js.of_Z i ++ ".cs") |})
                 [1; 2; 3; 4; 5]
           else []
       | _ => []
       end;
     GitHub.hub_now := fun _ => "t0" |}.

(** Its files, listed with a limit of 2.5. *)
Definition found_files : list GitHubWalk.CodeFile :=
  (GitHubWalk.findCodeFiles 4 five_files "DevExpress" "Demos" EmptyString None 3 0
     (whole_limit (5 # 2)) GitHub.trace0).1.

(** A run of the tree walk with a limit of 2.5. *)
Definition walk_cut : list GitHub.GitHubExample * GitHub.GitHubMetadata :=
  (GitHubWalk.crawlGitHubExamples (hub_with twice)
     {| GitHub.maxFiles := whole_limit <$> Some (5 # 2);
        GitHub.githubToken := None; GitHub.delayMs := Some 0 |}
     GitHub.trace0).1.

(** A page whose text has blanks and line breaks all over. *)
Definition untidy : World :=
  site [ (doc "u",
          respond 200 ("  /AspNetBootstrap/v " ++ newline ++ newline
                       ++ "   /AspNetBootstrap/w  ")) ].

Definition untidy_crawl : CrawlResult * Sys :=
  outcome (crawlDocumentation 30 InProcess untidy sys0 (doc "u") 800 0).

(** A disk that holds the index of an earlier run. *)
Definition old_disk : Sys := sys_put_pages [grid_page] sys0.

(** The stand-alone crawler pointed at the root of the documentation. *)
Definition root_cli : Cli :=
  {| cli_url := "https://docs.devexpress.com/AspNetBootstrap/";
     cli_max := 800; cli_delay := 200; cli_continue := false |}.

Definition resume_cli : Cli :=
  {| cli_url := doc "page1"; cli_max := 800; cli_delay := 200;
     cli_continue := true |}.

Definition resumed_disk : Sys :=
  default sys0 (fst <$> main_docs 30 small_site resume_cli old_disk).

(** A refresh of the one-page server from the small site. *)
Definition refreshed (run : option (Json * ServerState * Sys))
  : Json * ServerState * Sys :=
  default (JNull, server0, sys0) run.

Definition small_refresh : Json * ServerState * Sys :=
  refreshed (handleRefreshIndex 30 small_site (doc "page1") 800 200
               one_page_server sys0).

(** Two pages whose URLs differ in [Aa] and [BB]. *)
Definition twins : World :=
  site [ (doc "Aa", respond 200 "/AspNetBootstrap/BB");
         (doc "BB", respond 200 EmptyString) ].

Definition twins_refresh : Json * ServerState * Sys :=
  refreshed (handleRefreshIndex 30 twins (doc "Aa") 800 200
               one_page_server sys0).

(** A server that holds the examples of a run of the tree walk. *)
Definition code_examples : list GitHub.GitHubExample :=
  (GitHubWalk.crawlGitHubExamples (hub_with twice) options1 GitHub.trace0).1.1.

Definition code_server : ServerState :=
  {| indexedPages := []; githubExamples := code_examples;
     searchIndex := None;
     githubSearchIndex := Some {| documents := code_examples |};
     indexMeta := None; githubMeta := None |}.

Definition machine0 : Machine :=
  {| server := one_page_server; disk := sys0; code_disk := code_disk0;
     github := GitHub.trace0 |}.

Definition github_refresh : Json * Machine :=
  handleRefreshGitHub (walk_module (hub_with twice) small_site) 1 None 0 machine0.

Definition elsewhere_args : ToolArgs :=
  {| arg_startUrl := Some "https://example.com/AspNetBootstrap/x";
     arg_maxPages := None; arg_delayMs := None;
     arg_query := None; arg_includeCode := None; arg_maxChars := None;
     arg_maxFiles := None; arg_githubToken := None; arg_language := None;
     arg_maxResults := None |}.

End Replay.

(* ===================================================================== *)
(** * Part II: properties                                                  *)
(* ===================================================================== *)

Local Open Scope list_scope.
#[local] Set Warnings "-clear-no-such-hyp".

(** ** The crawl loop *)

Section CrawlFacts.
Context `{UrlApi} `{Cheerio}.
Variable k : Crawler.
Variable w : World.
Variables delayMs maxPages : Z.
Variable startUrl : string.
Variable s0 : Sys.

Abbreviation Inv := (CrawlInv maxPages s0).

Lemma inv_init : Inv (crawl_init startUrl s0).
Proof.
  split; simpl; auto.
  - intros p Hp. inversion Hp.
  - constructor.
  - lia.
Qed.

Lemma inv_same st st' :
  Inv st →
  pages st' = pages st → visited st ⊆ visited st' →
  0 ≤ consecutiveFailures st' ≤ failures st' →
  pages_file (sys st') = pages_file (sys st) →
  Inv st'.
Proof.
  intros [Ha Hv Hn Hc Hb Hf] Hp Hsub Hc' Hfile.
  split; rewrite ?Hp, ?Hfile; auto.
  all: intros p Hin; apply Hsub, Hv; by rewrite <- ?Hp.
Qed.

Lemma inv_push st st' page :
  Inv st →
  pages st' = pages st ++ [page] → allowed_page page →
  url page ∉ visited st → url page ∈ visited st' → visited st ⊆ visited st' →
  0 ≤ consecutiveFailures st' ≤ failures st' →
  Js.len_list (pages st) < maxPages →
  pages_file (sys st') = pages_file (sys st)
  ∨ pages_file (sys st') = Some (pages st ++ [page]) →
  Inv st'.
Proof.
  intros [Ha Hv Hn Hc Hb Hf] Hp Hal Hfresh Hin Hsub Hc' Hlen Hfile.
  assert (Hall : Forall allowed_page (pages st ++ [page])).
  { apply Forall_app. split; [done | by constructor]. }
  split; rewrite ?Hp.
  - done.
  - intros p [Hp' | Hp']%elem_of_app.
    + by apply Hsub, Hv.
    + apply list_elem_of_singleton in Hp'. by subst.
  - rewrite map_app. apply NoDup_app. split; [done | split].
    + intros u Hu [->|[]%elem_of_nil]%elem_of_cons.
      apply list_elem_of_fmap in Hu as (p & Heq & Hp'). apply Hfresh. rewrite Heq. by apply Hv.
    + apply NoDup_singleton.
  - done.
  - right. unfold Js.len_list in *. rewrite length_app. simpl. lia.
  - destruct Hfile as [-> | ->]; [done | right; eauto].
Qed.

Ltac crush_body :=
  unfold loop_body, index_page, on_exception, on_http_error, checkpoint,
    count_failure, too_many, rate_limit, saveDocs, sys_write,
    MAX_CONSECUTIVE_FAILURES in *;
  repeat (case_match; simplify_eq/=).

Ltac visited_grows :=
  simpl;
  lazymatch goal with
  | |- _ ∈ _ => apply elem_of_union_l, elem_of_singleton; reflexivity
  | |- _ => first [reflexivity | apply union_subseteq_r]
  end.

Ltac close_inv :=
  first
    [ eapply inv_same;
      [eassumption | reflexivity | visited_grows | simpl; lia | reflexivity]
    | eapply inv_push;
      [ eassumption | reflexivity | assumption | simpl; assumption
      | visited_grows | visited_grows | simpl; lia | assumption
      | simpl; auto ] ].

Lemma body_inv st c :
  Inv st → consecutiveFailures st < 10 → loop_test maxPages st = true →
  loop_body k w delayMs st = c →
  Inv (control_state c)
  ∧ match c with
    | Continue st' => consecutiveFailures st' < 10
    | Break st' => 10 ≤ consecutiveFailures st' ∧ pages st' = pages st
    end.
Proof.
  intros HI Hlt Htest Hbody.
  pose proof (inv_counts _ _ _ HI).
  unfold loop_test in Htest. apply andb_true_iff in Htest as [Hq Hp].
  apply Z.ltb_lt in Hq, Hp.
  crush_body;
    repeat match goal with
           | H : bool_decide _ = false |- _ => apply bool_decide_eq_false in H
           | H : negb _ = false |- _ => apply negb_false_iff in H
           | H : (_ <=? _) = true |- _ => apply Z.leb_le in H
           | H : (_ <=? _) = false |- _ => apply Z.leb_gt in H
           end.
  all: try (split; [close_inv | simpl; try split; try done; lia]).
Qed.

Lemma head_inv st :
  LoopHead k w delayMs maxPages startUrl s0 st →
  Inv st ∧ consecutiveFailures st < 10.
Proof.
  induction 1 as [| st st' _ [HI Hlt] Htest Hbody].
  - split; [apply inv_init | simpl; lia].
  - by destruct (body_inv st _ HI Hlt Htest Hbody).
Qed.

Lemma exit_inv final :
  LoopExit k w delayMs maxPages startUrl s0 final → Inv final.
Proof.
  intros [Hh _ | st Hh Htest Hbody].
  - by apply head_inv.
  - apply head_inv in Hh as [HI Hlt].
    by destruct (body_inv st _ HI Hlt Htest Hbody).
Qed.

(** ** The loop ends *)

Lemma body_measure st st' :
  loop_test maxPages st = true → loop_body k w delayMs st = Continue st' →
  Js.len_list (pages st') = Js.len_list (pages st) + 1
  ∨ (pages st' = pages st ∧ (List.length (queue st') < List.length (queue st))%nat).
Proof.
  intros Htest Hbody.
  unfold loop_test in Htest. apply andb_true_iff in Htest as [Hq Hp].
  crush_body;
    first [ done
          | right; split; [reflexivity | simpl; lia]
          | left; unfold Js.len_list; rewrite length_app; simpl; lia ].
Qed.

Lemma while_loop_total st :
  ∃ fuel final, while_loop k w delayMs maxPages fuel st = Some final.
Proof.
  assert (Hgen : ∀ a b st,
             (Z.to_nat (maxPages - Js.len_list (pages st)) ≤ a)%nat →
             (List.length (queue st) ≤ b)%nat →
             ∃ fuel final, while_loop k w delayMs maxPages fuel st = Some final).
  { clear st. induction a as [| a IHa]; intros b st Ha.
    - intros _. exists 1%nat, st. simpl.
      replace (loop_test maxPages st) with false; [done |].
      unfold loop_test. symmetry. apply andb_false_iff. right.
      apply Z.ltb_ge. lia.
    - revert st Ha. induction b as [| b IHb]; intros st Ha Hb.
      + exists 1%nat, st. simpl.
        replace (loop_test maxPages st) with false; [done |].
        unfold loop_test, Js.len_list. symmetry. apply andb_false_iff. left.
        apply Z.ltb_ge. lia.
      + destruct (loop_test maxPages st) eqn:Htest.
        2:{ exists 1%nat, st. simpl. by rewrite Htest. }
        destruct (loop_body k w delayMs st) as [st' | st'] eqn:Hbody.
        2:{ exists 1%nat, st'. simpl. by rewrite Htest, Hbody. }
        assert (Hpages : Js.len_list (pages st) < maxPages).
        { unfold loop_test in Htest. apply andb_true_iff in Htest as [_ Hp].
          by apply Z.ltb_lt in Hp. }
        destruct (body_measure st st' Htest Hbody) as [Hmore | [Hsame Hshort]].
        * destruct (IHa (List.length (queue st')) st') as (fuel & final & Hrun);
            [lia | done |].
          exists (S fuel), final. simpl. by rewrite Htest, Hbody.
        * destruct (IHb st') as (fuel & final & Hrun);
            [rewrite Hsame; lia | lia |].
          exists (S fuel), final. simpl. by rewrite Htest, Hbody. }
  eapply Hgen; reflexivity.
Qed.

Lemma while_loop_exit fuel st final :
  LoopHead k w delayMs maxPages startUrl s0 st →
  while_loop k w delayMs maxPages fuel st = Some final →
  LoopExit k w delayMs maxPages startUrl s0 final.
Proof.
  revert st. induction fuel as [| fuel IH]; intros st Hh Hrun; [done |].
  simpl in Hrun. destruct (loop_test maxPages st) eqn:Htest.
  - destruct (loop_body k w delayMs st) as [st' | st'] eqn:Hbody.
    + eapply IH; [| done]. by eapply head_next.
    + simplify_eq. by eapply exit_break.
  - simplify_eq. by apply exit_test.
Qed.

Lemma while_loop_det fuel1 fuel2 st r1 r2 :
  while_loop k w delayMs maxPages fuel1 st = Some r1 →
  while_loop k w delayMs maxPages fuel2 st = Some r2 → r1 = r2.
Proof.
  revert fuel2 st. induction fuel1 as [| fuel1 IH]; intros [| fuel2] st; try done.
  simpl. destruct (loop_test maxPages st); [| congruence].
  destruct (loop_body k w delayMs st); [apply IH | congruence].
Qed.

Lemma head_reaches st fuel final :
  LoopHead k w delayMs maxPages startUrl s0 st →
  while_loop k w delayMs maxPages fuel st = Some final →
  ∃ fuel', while_loop k w delayMs maxPages fuel' (crawl_init startUrl s0) = Some final.
Proof.
  intros Hh. revert fuel. induction Hh as [| st st' _ IH Htest Hbody]; intros fuel Hrun.
  - eauto.
  - apply (IH (S fuel)). simpl. by rewrite Htest, Hbody.
Qed.

Lemma passes_head n st st' :
  LoopHead k w delayMs maxPages startUrl s0 st →
  passes k w delayMs maxPages n st = Some st' →
  LoopHead k w delayMs maxPages startUrl s0 st'.
Proof.
  revert st. induction n as [| n IH]; intros st Hh Hrun; simpl in Hrun.
  - by simplify_eq.
  - destruct (loop_test maxPages st) eqn:Htest; [| done].
    destruct (loop_body k w delayMs st) as [st1 | st1] eqn:Hbody; [| done].
    eapply IH; [| done]. by eapply head_next.
Qed.

End CrawlFacts.

(** C1.  A crawl, by either crawler, from any start URL, with any page
    limit and delay and against any site, stores only pages whose [url]
    the scope filter accepts: this holds of the page sequence every time
    the loop test is evaluated, of the pages the crawl returns (and it
    does return), and of every progress file it writes. *)
Theorem crawl_stores_only_allowed_urls `{UrlApi} `{Cheerio}
    (k : Crawler) (w : World) (s0 : Sys) (startUrl : string) (maxPages delayMs : Z) :
  (∀ st, LoopHead k w delayMs maxPages startUrl s0 st →
         Forall allowed_page (pages st))
  ∧ ∃ fuel r s,
      crawlDocumentation fuel k w s0 startUrl maxPages delayMs = Some (r, s)
      ∧ Forall allowed_page (r_pages r)
      ∧ (pages_file s = pages_file s0
         ∨ ∃ ps, pages_file s = Some ps ∧ Forall allowed_page ps).
Proof.
  split.
  - intros st Hh. by apply (head_inv k w delayMs maxPages startUrl s0) in Hh as [[] _].
  - destruct (while_loop_total k w delayMs maxPages (crawl_init startUrl s0))
      as (fuel & final & Hrun).
    exists fuel, (crawl_result final), (sys final).
    unfold crawlDocumentation. rewrite Hrun. split; [done |].
    apply while_loop_exit with (startUrl := startUrl) (s0 := s0) in Hrun;
      [| constructor].
    apply exit_inv in Hrun as []. done.
Qed.

(** C2, as amended.  The stand-alone crawler (crawl.ts) returns, and the
    loop is never entered with ten consecutive failures on the counter:
    the pass through the loop body that brings [consecutiveFailures] to
    10, with the queue not yet empty, ends in [break]; the state it leaves
    is the one the crawl returns, with at most [maxPages] pages and at
    least 10 failures.  (The crawler of the server has no such counter
    and does not stop.) *)
Theorem circuit_breaker_stops_crawl `{UrlApi} `{Cheerio}
    (cli : Cli) (w : World) (s0 : Sys) (startUrl : string) (maxPages delayMs : Z) :
  ∃ fuel final,
    crawlDocumentation fuel (Standalone cli) w s0 startUrl maxPages delayMs
    = Some (crawl_result final, sys final)
    ∧ (∀ st, LoopHead (Standalone cli) w delayMs maxPages startUrl s0 st →
             consecutiveFailures st < MAX_CONSECUTIVE_FAILURES)
    ∧ (∀ st c,
         LoopHead (Standalone cli) w delayMs maxPages startUrl s0 st →
         loop_test maxPages st = true →
         loop_body (Standalone cli) w delayMs st = c →
         MAX_CONSECUTIVE_FAILURES ≤ consecutiveFailures (control_state c) →
         c = Break final
         ∧ Js.len_list (r_pages (crawl_result final)) ≤ maxPages
         ∧ MAX_CONSECUTIVE_FAILURES ≤ r_failures (crawl_result final)).
Proof.
  set (k := Standalone cli).
  destruct (while_loop_total k w delayMs maxPages (crawl_init startUrl s0))
    as (fuel & final & Hrun).
  exists fuel, final. split; [| split].
  - unfold crawlDocumentation. fold k. by rewrite Hrun.
  - intros st Hh. by apply head_inv in Hh as [_ ?].
  - intros st c Hh Htest Hbody Hten.
    pose proof (head_inv _ _ _ _ _ _ _ Hh) as [HI Hlt].
    destruct (body_inv k w delayMs maxPages s0 st c HI Hlt Htest Hbody) as [HI' Hc].
    destruct c as [st' | st']; simpl in *; unfold MAX_CONSECUTIVE_FAILURES in *;
      [lia |].
    destruct Hc as [_ Hpages].
    assert (final = st') as ->.
    { assert (Hone : while_loop k w delayMs maxPages 1 st = Some st').
      { simpl. by rewrite Htest, Hbody. }
      destruct (head_reaches _ _ _ _ _ _ _ _ _ Hh Hone) as (fuel' & Hrun').
      by eapply while_loop_det. }
    split; [done |]. rewrite Hpages.
    unfold loop_test in Htest. apply andb_true_iff in Htest as [_ Hp%Z.ltb_lt].
    pose proof (inv_counts _ _ _ HI'). lia.
Qed.


(** No two pages of a crawl have the same [url]. *)
Lemma crawl_pages_have_distinct_urls `{UrlApi} `{Cheerio}
    (fuel : nat) (k : Crawler) (w : World) (s0 : Sys) (startUrl : string)
    (maxPages delayMs : Z) (r : CrawlResult) (s : Sys) :
  crawlDocumentation fuel k w s0 startUrl maxPages delayMs = Some (r, s) →
  NoDup (map url (r_pages r)).
Proof.
  unfold crawlDocumentation.
  destruct (while_loop k w delayMs maxPages fuel (crawl_init startUrl s0))
    as [final |] eqn:Hrun; [| done].
  intros [= <- <-].
  apply while_loop_exit with (startUrl := startUrl) (s0 := s0) in Hrun;
    [| constructor].
  by apply exit_inv in Hrun as [].
Qed.

(** ** String and list facts *)

Lemma substring_length_le (n m : nat) (s : string) :
  (String.length (String.substring n m s) ≤ m)%nat.
Proof.
  revert n m. induction s as [| c s IH]; intros [| n] [| m]; simpl; try lia.
  - specialize (IH 0%nat m). lia.
  - apply (IH n 0%nat).
  - apply (IH n (S m)).
Qed.

Lemma substring_length_exact (m : nat) (s : string) :
  (m ≤ String.length s)%nat → String.length (String.substring 0 m s) = m.
Proof.
  revert m. induction s as [| c s IH]; intros [| m]; simpl; try lia.
  intros Hm. rewrite IH; lia.
Qed.

Lemma js_substring_capped (s : string) (n : Z) :
  0 ≤ n → Js.len (Js.substring s 0 n) ≤ n.
Proof.
  intros Hn. unfold Js.substring, Js.len, Js.clamp.
  set (L := Z.of_nat (String.length s)).
  pose proof (substring_length_le
                (Z.to_nat (Z.min (Z.max 0 (Z.min 0 L)) (Z.max 0 (Z.min n L))))
                (Z.to_nat (Z.max (Z.max 0 (Z.min 0 L)) (Z.max 0 (Z.min n L))
                           - Z.min (Z.max 0 (Z.min 0 L)) (Z.max 0 (Z.min n L))))
                s).
  lia.
Qed.

Lemma js_slice_prefix (s : string) (n : Z) :
  0 < n → n < Js.len s →
  Js.slice s 0 n = String.substring 0 (Z.to_nat n) s.
Proof.
  intros Hn Hlen. unfold Js.slice, Js.slice_index.
  replace (0 <? 0) with false by done.
  replace (n <? 0) with false by (symmetry; apply Z.ltb_ge; lia).
  rewrite !Z.min_l by (unfold Js.len in *; lia).
  replace (0 <? n) with true by (symmetry; apply Z.ltb_lt; lia).
  by rewrite Z.sub_0_r.
Qed.

Lemma set_of_list_aux_spec (seen l : list string) :
  NoDup (Js.set_of_list_aux seen l)
  ∧ ∀ x, x ∈ Js.set_of_list_aux seen l ↔ x ∈ l ∧ x ∉ seen.
Proof.
  revert seen. induction l as [| a l IH]; intros seen; simpl.
  - split; [constructor |]. intros x. rewrite elem_of_nil. tauto.
  - case_bool_decide as Ha.
    + destruct (IH seen) as [Hnd Hin]. split; [done |].
      intros x. rewrite Hin, elem_of_cons. naive_solver.
    + destruct (IH (a :: seen)) as [Hnd Hin]. split.
      * constructor; [| done]. rewrite Hin, elem_of_cons. naive_solver.
      * intros x. rewrite !elem_of_cons, Hin, elem_of_cons.
        destruct (decide (x = a)); naive_solver.
Qed.

Lemma set_of_list_NoDup (l : list string) : NoDup (Js.set_of_list l).
Proof. apply set_of_list_aux_spec. Qed.

Lemma set_of_list_elem (l : list string) (x : string) :
  x ∈ Js.set_of_list l ↔ x ∈ l.
Proof.
  unfold Js.set_of_list. rewrite (proj2 (set_of_list_aux_spec [] l)).
  rewrite elem_of_nil. tauto.
Qed.

(** ** The scope filter *)

(** A URL whose host is not the allowed host is rejected, whatever the
    URL parser. *)
Lemma foreign_host_is_rejected `{UrlApi} (u : string) :
  (∀ parsed, URL_new u = Some parsed → URL_host parsed ≠ ALLOWED_HOST) →
  isAllowedUrl u = false.
Proof.
  intros Hhost. unfold isAllowedUrl. destruct (URL_new u) as [parsed |]; [| done].
  apply andb_false_iff. left. apply String.eqb_neq. by apply Hhost.
Qed.

Lemma unparseable_is_rejected `{UrlApi} (u : string) :
  URL_new u = None → isAllowedUrl u = false ∧ normalizeUrl u = u.
Proof. intros Hu. unfold isAllowedUrl, normalizeUrl. by rewrite Hu. Qed.

Lemma normalize_unparseable_idempotent `{UrlApi} (u : string) :
  URL_new u = None → normalizeUrl (normalizeUrl u) = normalizeUrl u.
Proof. intros Hu. unfold normalizeUrl. by rewrite !Hu. Qed.

(** ** Resuming a crawl *)

Lemma merge_as_append (existingPages pages : list IndexedPage) :
  mergePages true existingPages pages
  = existingPages ++ filter (fun p => url p ∉ map url existingPages) pages.
Proof.
  unfold mergePages. simpl. destruct existingPages as [| e existingPages].
  - simpl. symmetry. induction pages as [| p pages IH]; [done |].
    rewrite filter_cons_True by apply not_elem_of_nil. by f_equal.
  - replace (0 <? Js.len_list (e :: existingPages)) with true
      by (symmetry; apply Z.ltb_lt; unfold Js.len_list; simpl; lia).
    f_equal. apply list_filter_iff. intros p.
    by rewrite elem_of_list_to_set.
Qed.

Lemma merge_has_distinct_urls (existingPages pages : list IndexedPage) :
  NoDup (map url existingPages) → NoDup (map url pages) →
  NoDup (map url (mergePages true existingPages pages)).
Proof.
  intros Hold Hnew. rewrite merge_as_append.
  rewrite map_app. apply NoDup_app. split; [done | split].
  - intros u Hu Hu'. apply list_elem_of_fmap in Hu' as (p & -> & Hp).
    by apply list_elem_of_filter in Hp as [Hfresh _].
  - eapply sublist_NoDup; [exact Hnew |].
    apply fmap_sublist, sublist_filter.
Qed.

(** C6.  Merging the pages of a resumed crawl into an existing page set
    (each a set: no [url] twice) gives a sequence without a repeated
    [url]; every existing record is in it at its old position, unchanged;
    and the new pages, those whose [url] no existing record has, follow the
    existing ones in crawl order. *)
Theorem merge_keeps_existing_pages (existingPages pages : list IndexedPage) :
  NoDup (map url existingPages) → NoDup (map url pages) →
  let merged := mergePages true existingPages pages in
  NoDup (map url merged)
  ∧ (∀ i e, existingPages !! i = Some e → merged !! i = Some e)
  ∧ merged = existingPages
             ++ filter (fun p => url p ∉ map url existingPages) pages.
Proof.
  intros Hold Hnew merged. subst merged.
  split; [by apply merge_has_distinct_urls |].
  rewrite merge_as_append. split; [| done].
  intros i e Hi. by apply lookup_app_l_Some.
Qed.

(** X15.  The index file that a resumed run of the stand-alone crawler leaves
    starts with the previous pages and repeats no [url]. *)
Lemma resumed_index_has_distinct_urls `{UrlApi} `{Cheerio}
    (fuel : nat) (w : World) (cli : Cli) (s s' : Sys) :
  cli_continue cli = true →
  NoDup (map url (loadExisting cli s)) →
  main_docs fuel w cli s = Some (s', true) →
  ∃ newPages,
    pages_file s' = Some (loadExisting cli s ++ newPages)
    ∧ NoDup (map url (loadExisting cli s ++ newPages)).
Proof.
  intros Hcont Hold. unfold main_docs.
  destruct (crawlDocumentation fuel (Standalone cli) w s (cli_url cli)
              (cli_max cli) (cli_delay cli)) as [[r s1] |] eqn:Hcrawl; [| done].
  apply crawl_pages_have_distinct_urls in Hcrawl.
  pose proof (merge_has_distinct_urls (loadExisting cli s) (r_pages r) Hold Hcrawl)
    as Hnodup.
  rewrite Hcont in *. rewrite merge_as_append in *.
  unfold saveDocs, sys_write.
  repeat case_match; intros; simplify_eq/=. eauto.
Qed.

(** ** The query service *)

(** C9.  Without a corpus (no index, or no stored records) the
    documentation search and the code-example search answer every query
    with status [no_index], not [no_results]. *)
Theorem search_without_corpus_is_no_index `{UrlApi} `{MiniSearchApi}
    (st : ServerState) (query : string) :
  (∀ includeCode maxChars,
     searchIndex st = None ∨ indexedPages st = [] →
     field "status" (handleOpenTopResult query includeCode maxChars st)
     = Some (JStr "no_index"))
  ∧ (∀ language maxResults,
       githubSearchIndex st = None ∨ githubExamples st = [] →
       field "status" (handleSearchExamples query language maxResults st)
       = Some (JStr "no_index")).
Proof.
  split.
  - intros includeCode maxChars [Hnone | Hempty]; unfold handleOpenTopResult.
    + by rewrite Hnone.
    + rewrite Hempty. by destruct (searchIndex st).
  - intros language maxResults [Hnone | Hempty]; unfold handleSearchExamples.
    + by rewrite Hnone.
    + rewrite Hempty. by destruct (githubSearchIndex st).
Qed.

Lemma slice_to_floor (s : string) (x : Js.number) :
  Js.positive x = true → Js.exceeds (Js.len s) x = true →
  Js.slice_to s x = String.substring 0 (Z.to_nat (Js.floor x)) s
  ∧ Js.len (String.substring 0 (Z.to_nat (Js.floor x)) s) = Js.floor x
  ∧ Js.exceeds (Js.floor x) x = false.
Proof.
  destruct x as [z | below shown | [] |]; simpl; try done.
  - intros Hpos Hgt. apply Z.ltb_lt in Hpos.
    rewrite Z.gtb_ltb in Hgt. apply Z.ltb_lt in Hgt.
    split; [apply js_slice_prefix; lia |]. split.
    + unfold Js.len in *. rewrite substring_length_exact; lia.
    + rewrite Z.gtb_ltb. apply Z.ltb_irrefl.
  - intros Hpos Hgt. apply Z.leb_le in Hpos.
    rewrite Z.gtb_ltb in Hgt. apply Z.ltb_lt in Hgt.
    replace (below <? 0) with false by (symmetry; apply Z.ltb_ge; lia).
    split; [| split].
    + destruct (Z.eq_dec below 0) as [-> | Hnz].
      * unfold Js.slice, Js.slice_index. simpl.
        replace (Z.min 0 (Js.len s)) with 0 by (unfold Js.len; lia).
        simpl. by destruct s.
      * apply js_slice_prefix; lia.
    + unfold Js.len in *. rewrite substring_length_exact; lia.
    + rewrite Z.gtb_ltb. apply Z.ltb_irrefl.
Qed.

(** C8.  A successful [handleOpenTopResult] with a positive [maxChars],
    whole or not, returns the text of the top page unchanged unless it has
    more than [maxChars] characters.  Otherwise it returns the first
    [Math.floor(maxChars)] characters of the text, which are no more than
    [maxChars], followed by the marker: two line feeds and
    [[... truncated at N characters ...]], with [maxChars] written for
    [N]. *)
Theorem open_top_result_truncates `{UrlApi} `{MiniSearchApi}
    (st : ServerState) (query : string) (includeCode : bool)
    (maxChars : Js.number) (payload : Json) :
  Js.positive maxChars = true →
  handleOpenTopResult query includeCode maxChars st = payload →
  field "status" payload = Some (JStr "success") →
  ∃ index topResult others topPage kept,
    searchIndex st = Some index
    ∧ search_pages index query = topResult :: others
    ∧ find_page st (hit_id topResult) = Some topPage
    ∧ kept = String.substring 0 (Z.to_nat (Js.floor maxChars)) (text topPage)
    ∧ field "text" payload
      = Some (JStr (if Js.exceeds (Js.len (text topPage)) maxChars
                    then (kept ++ newline ++ newline ++ "[... truncated at "
                          ++ Js.show maxChars ++ " characters ...]")%string
                    else text topPage))
    ∧ (Js.exceeds (Js.len (text topPage)) maxChars = true →
       Js.len kept = Js.floor maxChars
       ∧ Js.exceeds (Js.len kept) maxChars = false).
Proof.
  intros Hpos Hrun Hstatus. unfold handleOpenTopResult in Hrun.
  destruct (searchIndex st) as [index |] eqn:Hindex; [| by subst].
  destruct (Js.len_list (indexedPages st) =? 0); [by subst |].
  destruct (search_pages index query) as [| topResult others] eqn:Hsearch;
    [by subst |].
  destruct (find_page st (hit_id topResult)) as [topPage |] eqn:Hfind; [| by subst].
  destruct (negb (isAllowedUrl (url topPage))); [by subst |].
  exists index, topResult, others, topPage,
    (String.substring 0 (Z.to_nat (Js.floor maxChars)) (text topPage)).
  split; [done |]. split; [done |]. split; [done |]. split; [done |]. split.
  - subst payload. simpl.
    destruct (Js.exceeds (Js.len (text topPage)) maxChars) eqn:Hgt; [| done].
    destruct (slice_to_floor (text topPage) maxChars Hpos Hgt) as (-> & _).
    done.
  - intros Hgt.
    destruct (slice_to_floor (text topPage) maxChars Hpos Hgt) as (_ & Hlen & Hfit).
    split; [done |]. by rewrite Hlen.
Qed.

(** C10.  For a start URL the scope filter rejects, [handleRefreshIndex]
    returns an error payload whatever the fuel of the crawl: nothing is
    requested, slept or written, and the state of the server is the one
    it was called in. *)
Theorem refresh_rejects_start_url_out_of_scope `{UrlApi} `{Cheerio}
    (fuel : nat) (w : World) (startUrl : string) (maxPages delayMs : Z)
    (st : ServerState) (s : Sys) :
  isAllowedUrl startUrl = false →
  ∃ payload,
    handleRefreshIndex fuel w startUrl maxPages delayMs st s = Some (payload, st, s)
    ∧ field "status" payload = Some (JStr "error").
Proof.
  intros Hout. unfold handleRefreshIndex. rewrite Hout. simpl. eauto.
Qed.

(** ** The code-example indexer *)

Section SearchRevision.
Import GitHub GitHubSearch.

Lemma search_indexFile (h : Hub) (owner repo filePath fileUrl : string)
  (token : option string) (t : Trace) (e : GitHubExample) :
(indexFile h owner repo filePath fileUrl token t).1 = Some e →
∃ file_text, search_indexed e file_text.
Proof.
unfold indexFile, fetchGitHubContent, clock, ask. simpl.
destruct (hub_text h (requests t) _ (sent token)) as [file_text |] eqn:Htext;
  [| done].
intros He. exists file_text. by exists owner, repo, filePath, fileUrl, (hub_now h (requests t ++ [GetContent owner repo filePath])).
Qed.

Lemma search_each_file (P : GitHubExample → Prop) (h : Hub) (maxFiles : Z)
  (token : option string) (delayMs : Z) (owner repo : string)
  (files : list SearchItem) (acc : list GitHubExample * Z) (t : Trace) :
(∀ e c, search_indexed e c → P e) →
Forall P acc.1 →
Forall P (each_file h maxFiles token delayMs owner repo files acc t).1.1.
Proof.
intros HP. revert acc t. induction files as [| file files IH]; intros acc t Hacc;
  simpl; [done |].
destruct (maxFiles <=? Js.len_list acc.1); [done |].
unfold mbind, run_bind.
destruct (indexFile h owner repo (item_path file) (item_url file) token t)
  as [found t'] eqn:Hfound.
destruct found as [ex |]; simpl.
- apply IH. simpl. apply Forall_app. split; [done |].
  constructor; [| done].
  destruct (search_indexFile h owner repo (item_path file) (item_url file)
              token t ex) as [c Hc]; [by rewrite Hfound |].
  by eapply HP.
- by apply IH.
Qed.

Lemma search_each_language (P : GitHubExample → Prop) (h : Hub) (maxFiles : Z)
  (token : option string) (delayMs : Z) (owner repo : string)
  (langs : list string) (acc : list GitHubExample * Z) (t : Trace) :
(∀ e c, search_indexed e c → P e) →
Forall P acc.1 →
Forall P (each_language h maxFiles token delayMs owner repo langs acc t).1.1.
Proof.
intros HP. revert acc t. induction langs as [| lang langs IH]; intros acc t Hacc;
  simpl; [done |].
destruct (maxFiles <=? Js.len_list acc.1); [done |].
unfold mbind, run_bind.
destruct (searchRepoFiles h owner repo lang token 30 t) as [files t1].
pose proof (search_each_file P h maxFiles token delayMs owner repo files acc t1
              HP Hacc) as Hfiles.
destruct (each_file h maxFiles token delayMs owner repo files acc t1)
  as [acc' t2].
by apply IH.
Qed.

#[local] Opaque GitHubSearch.each_language.

Lemma search_each_repo (P : GitHubExample → Prop) (h : Hub) (maxFiles : Z)
  (token : option string) (delayMs : Z) (repoPaths : list string)
  (acc : list GitHubExample * list RepoCount) (t : Trace) :
(∀ e c, search_indexed e c → P e) →
Forall P acc.1 →
Forall P (each_repo h maxFiles token delayMs repoPaths acc t).1.1.
Proof.
intros HP. revert acc t. induction repoPaths as [| repoPath rest IH];
  intros acc t Hacc; simpl; [done |].
unfold mbind, run_bind.
match goal with
| |- context [each_language ?h ?m ?tk ?d ?o ?r ?ls ?a ?tr] =>
    pose proof (search_each_language P h m tk d o r ls a tr HP Hacc) as Hlang;
    destruct (each_language h m tk d o r ls a tr) as [done_ t1]
end.
simpl. by apply IH.
Qed.

#[local] Opaque GitHubSearch.each_repo.

Lemma search_examples_indexed (P : GitHubExample → Prop) (h : Hub)
  (options : Options) (t : Trace) :
(∀ e c, search_indexed e c → P e) →
Forall P (crawlGitHubExamples h options t).1.1.
Proof.
intros HP. unfold crawlGitHubExamples, clock. unfold mbind, run_bind.
match goal with
| |- context [each_repo ?h ?m ?tk ?d ?rs ?a ?tr] =>
    pose proof (search_each_repo P h m tk d rs a tr HP) as Hrepos;
    destruct (each_repo h m tk d rs a tr) as [r t1]
end.
simpl in *. by apply Hrepos.
Qed.

Lemma search_index_content_facts (e : GitHubExample) (file_text : string) :
search_indexed e file_text →
0 < Js.len file_text
∧ content e = Js.substring file_text 0 8000
∧ relatedClasses e = take 10 (extractMetadata file_text).1
∧ relatedMethods e = take 10 (extractMetadata file_text).2.
Proof.
intros (owner & repo & filePath & fileUrl & time & He).
unfold index_content in He.
destruct (Z.eqb_spec (Js.len file_text) 0) as [| Hlen]; [done |].
destruct (extractMetadata file_text) as [classes methods].
simplify_eq. simpl. repeat split. unfold Js.len in *. lia.
Qed.

End SearchRevision.

Section WalkRevision.
Import GitHub GitHubWalk.

Lemma walk_indexFile (h : Hub) (owner repo filePath downloadUrl : string)
  (token : option string) (t : Trace) (e : GitHubExample) :
(indexFile h owner repo filePath downloadUrl token t).1 = Some e →
∃ file_text, walk_indexed e file_text.
Proof.
unfold indexFile, fetchFileContent, clock, ask. simpl.
destruct (hub_text h (requests t) _ (sent token)) as [file_text |] eqn:Htext;
  [| done].
intros He. exists file_text.
by exists owner, repo, filePath, (hub_now h (requests t ++ [Download downloadUrl])).
Qed.

Lemma walk_each_file (P : GitHubExample → Prop) (h : Hub) (maxFiles : Z)
  (token : option string) (delayMs : Z) (owner repo : string)
  (files : list CodeFile) (acc : list GitHubExample * Z) (t : Trace) :
(∀ e c, walk_indexed e c → P e) →
Forall P acc.1 →
Forall P (each_file h maxFiles token delayMs owner repo files acc t).1.1.
Proof.
intros HP. revert acc t. induction files as [| file files IH]; intros acc t Hacc;
  simpl; [done |].
destruct (maxFiles <=? Js.len_list acc.1); [done |].
unfold mbind, run_bind.
destruct (indexFile h owner repo (file_path file) (file_download_url file) token t)
  as [found t'] eqn:Hfound.
destruct found as [ex |]; simpl.
- apply IH. simpl. apply Forall_app. split; [done |].
  constructor; [| done].
  destruct (walk_indexFile h owner repo (file_path file) (file_download_url file)
              token t ex) as [c Hc]; [by rewrite Hfound |].
  by eapply HP.
- by apply IH.
Qed.

Lemma each_item_ext (descend1 descend2 : string → Z → Run (list CodeFile))
  (maxDepth currentDepth maxFiles : Z) (items : list Entry)
  (files : list CodeFile) (t : Trace) :
(currentDepth < maxDepth →
 ∀ path budget t', descend1 path budget t' = descend2 path budget t') →
each_item descend1 maxDepth currentDepth maxFiles items files t
= each_item descend2 maxDepth currentDepth maxFiles items files t.
Proof.
intros Hext. revert files t.
induction items as [| item rest IH]; intros files t; simpl; [done |].
repeat case_match; try apply IH.
- done.
- unfold mbind, run_bind. simpl.
  match goal with
  | Hdir : _ && (currentDepth <? maxDepth) = true |- _ =>
      apply andb_true_iff in Hdir as [_ Hdeep%Z.ltb_lt]
  end.
  rewrite (Hext Hdeep). by destruct (descend2 _ _ _).
Qed.

(** [findCodeFiles] does not depend on the bound of its nesting once the
  bound exceeds the levels left; the 4 of the root call, at depth 0 of
  3, is such a bound. *)
Lemma findCodeFiles_levels (levels1 levels2 : nat) (h : Hub)
  (owner repo basePath : string) (token : option string)
  (maxDepth currentDepth maxFiles : Z) (t : Trace) :
(Z.to_nat (maxDepth - currentDepth) < levels1)%nat →
(Z.to_nat (maxDepth - currentDepth) < levels2)%nat →
findCodeFiles levels1 h owner repo basePath token maxDepth currentDepth maxFiles t
= findCodeFiles levels2 h owner repo basePath token maxDepth currentDepth maxFiles t.
Proof.
revert levels2 basePath currentDepth maxFiles t.
induction levels1 as [| levels1 IH];
  intros [| levels2] basePath currentDepth maxFiles t H1 H2; try lia.
simpl. destruct (maxDepth <? currentDepth); [done |].
unfold mbind, run_bind.
destruct (listRepoContents h owner repo basePath token t) as [contents t1].
apply each_item_ext. intros Hdeep path budget t'. apply IH; lia.
Qed.

#[local] Opaque GitHubWalk.findCodeFiles GitHubWalk.each_file.

Lemma walk_each_path (P : GitHubExample → Prop) (h : Hub) (maxFiles : Z)
  (token : option string) (delayMs : Z) (owner repo : string)
  (basePaths : list string) (acc : list GitHubExample * Z) (t : Trace) :
(∀ e c, walk_indexed e c → P e) →
Forall P acc.1 →
Forall P (each_path h maxFiles token delayMs owner repo basePaths acc t).1.1.
Proof.
intros HP. revert acc t. induction basePaths as [| basePath rest IH];
  intros acc t Hacc; simpl; [done |].
destruct (maxFiles <=? Js.len_list acc.1); [done |].
unfold mbind, run_bind.
match goal with
| |- context [findCodeFiles ?a ?b ?c ?d ?e ?f ?g ?i ?j ?tr] =>
    destruct (findCodeFiles a b c d e f g i j tr) as [files t1]
end.
pose proof (walk_each_file P h maxFiles token delayMs owner repo files acc t1
              HP Hacc) as Hfiles.
destruct (each_file h maxFiles token delayMs owner repo files acc t1)
  as [acc' t2].
by apply IH.
Qed.

#[local] Opaque GitHubWalk.each_path.

Lemma walk_each_repo (P : GitHubExample → Prop) (h : Hub) (maxFiles : Z)
  (token : option string) (delayMs : Z) (rs : list Repo)
  (acc : list GitHubExample * list RepoCount) (t : Trace) :
(∀ e c, walk_indexed e c → P e) →
Forall P acc.1 →
Forall P (each_repo h maxFiles token delayMs rs acc t).1.1.
Proof.
intros HP. revert acc t. induction rs as [| r rest IH];
  intros acc t Hacc; simpl; [done |].
destruct (maxFiles <=? Js.len_list acc.1); [done |].
unfold mbind, run_bind.
match goal with
| |- context [each_path ?h ?m ?tk ?d ?o ?rp ?ps ?a ?tr] =>
    pose proof (walk_each_path P h m tk d o rp ps a tr HP Hacc) as Hpaths;
    destruct (each_path h m tk d o rp ps a tr) as [done_ t1]
end.
simpl. by apply IH.
Qed.

#[local] Opaque GitHubWalk.each_repo.

Lemma walk_examples_indexed (P : GitHubExample → Prop) (h : Hub)
  (options : Options) (t : Trace) :
(∀ e c, walk_indexed e c → P e) →
Forall P (crawlGitHubExamples h options t).1.1.
Proof.
intros HP. unfold crawlGitHubExamples, clock. unfold mbind, run_bind.
match goal with
| |- context [each_repo ?h ?m ?tk ?d ?rs ?a ?tr] =>
    pose proof (walk_each_repo P h m tk d rs a tr HP) as Hrepos;
    destruct (each_repo h m tk d rs a tr) as [r t1]
end.
simpl in *. by apply Hrepos.
Qed.

Lemma walk_index_content_facts (e : GitHubExample) (file_text : string) :
walk_indexed e file_text →
50 ≤ Js.len file_text
∧ content e = Js.substring file_text 0 8000
∧ relatedClasses e = take 15 (extractMetadata file_text).1
∧ relatedMethods e = take 15 (extractMetadata file_text).2.
Proof.
intros (owner & repo & filePath & time & He).
unfold index_content in He.
destruct (Z.eqb_spec (Js.len file_text) 0) as [| Hlen]; [done |].
destruct (Z.ltb_spec (Js.len file_text) 50) as [| Hmin]; [done |].
destruct (extractMetadata file_text) as [classes methods].
simpl in He. simplify_eq. simpl. by repeat split.
Qed.

Lemma walk_discards_short (owner repo filePath : string)
  (fetched_content : option string) (time : string) :
(∀ file_text, fetched_content = Some file_text → Js.len file_text < 50) →
index_content owner repo filePath fetched_content time = None.
Proof.
intros Hshort. unfold index_content.
destruct fetched_content as [file_text |]; [| done].
specialize (Hshort file_text eq_refl).
replace (Js.len file_text <? 50) with true by (symmetry; apply Z.ltb_lt; lia).
by rewrite orb_true_r.
Qed.

Lemma walk_metadata_clean (e : GitHubExample) (file_text : string) :
walk_indexed e file_text → clean_metadata e.
Proof.
intros (_ & _ & Hclasses & Hmethods)%walk_index_content_facts.
unfold clean_metadata. rewrite Hclasses, Hmethods.
unfold extractMetadata. simpl. repeat split.
- eapply sublist_NoDup; [apply set_of_list_NoDup | apply sublist_take].
- eapply sublist_NoDup; [apply set_of_list_NoDup | apply sublist_take].
- intros c Hc%subseteq_take. apply (proj1 (set_of_list_elem _ _)) in Hc.
  by apply list_elem_of_filter in Hc as [Hstop _].
- intros c Hc%subseteq_take. apply (proj1 (set_of_list_elem _ _)) in Hc.
  by apply list_elem_of_filter in Hc as [Hstop _].
Qed.

End WalkRevision.

(** C4, as amended.  Every example stored by either revision of the
    indexer has at most 8000 characters of content and was made from a
    fetched file that was not empty.  In the tree-walking revision the
    file had at least 50 characters, and a fetched file shorter than 50
    characters yields no example.  (The search revision has no such
    minimum.) *)
Theorem stored_content_is_capped (h : GitHub.Hub) (options : GitHub.Options)
    (t : GitHub.Trace) :
  Forall (fun e => Js.len (GitHub.content e) ≤ 8000
                   ∧ ∃ file_text, search_indexed e file_text ∧ 0 < Js.len file_text)
         (GitHubSearch.crawlGitHubExamples h options t).1.1
  ∧ Forall (fun e => Js.len (GitHub.content e) ≤ 8000
                     ∧ ∃ file_text, walk_indexed e file_text ∧ 50 ≤ Js.len file_text)
           (GitHubWalk.crawlGitHubExamples h options t).1.1
  ∧ (∀ owner repo filePath file_text time,
       Js.len file_text < 50 →
       GitHubWalk.index_content owner repo filePath (Some file_text) time = None).
Proof.
  split; [| split].
  - apply search_examples_indexed. intros e c Hc.
    pose proof (search_index_content_facts e c Hc) as (Hlen & Hcontent & _).
    split; [| by exists c]. rewrite Hcontent. by apply js_substring_capped.
  - apply walk_examples_indexed. intros e c Hc.
    pose proof (walk_index_content_facts e c Hc) as (Hlen & Hcontent & _).
    split; [| by exists c]. rewrite Hcontent. by apply js_substring_capped.
  - intros owner repo filePath file_text time Hshort.
    apply walk_discards_short. by intros ? [= <-].
Qed.

(** C5, as amended.  Every example that [indexFile] of the tree-walking
    revision produces has no repeated name in [relatedClasses] or
    [relatedMethods], no word of the class stop list among its classes and
    no word of the method stop list among its methods.  (The search
    revision filters nothing.) *)
Theorem walk_metadata_is_deduplicated (h : GitHub.Hub)
    (owner repo filePath downloadUrl : string) (token : option string)
    (t : GitHub.Trace) (e : GitHub.GitHubExample) :
  (GitHubWalk.indexFile h owner repo filePath downloadUrl token t).1 = Some e →
  clean_metadata e.
Proof.
  intros [c Hc]%walk_indexFile. by eapply walk_metadata_clean.
Qed.

(** The same of every example a run of the tree walk stores. *)
Lemma walk_examples_are_clean (h : GitHub.Hub) (options : GitHub.Options)
    (t : GitHub.Trace) :
  Forall clean_metadata (GitHubWalk.crawlGitHubExamples h options t).1.1.
Proof. apply walk_examples_indexed. apply walk_metadata_clean. Qed.

(** * Sample runs *)

Section SampleRuns.
Import Sample Runs.
#[local] Existing Instance PlainUrl.api.
#[local] Existing Instance Sample.link_pages.
#[local] Existing Instance Sample.substring_search.

(** C1 on a sample site. *)
Lemma crawl_stores_only_allowed_urls_sample :
∃ fuel r s,
  crawlDocumentation fuel InProcess small_site sys0 (doc "page1") 800 200
  = Some (r, s)
  ∧ Forall allowed_page (r_pages r).
Proof.
destruct (crawl_stores_only_allowed_urls InProcess small_site sys0
            (doc "page1") 800 200)
  as [_ (fuel & r & s & Hrun & Hall & _)].
eauto.
Defined.

(** The scenario of the design document: of the three links of the start
  page only the one in scope is followed. *)
Example only_links_in_scope_are_followed :
(fetched ∘ snd) <$> crawlDocumentation 30 InProcess small_site sys0
                      (doc "page1") 800 200
= Some [doc "page1"; doc "page2"].
Proof. vm_compute. reflexivity. Qed.

(** With [maxPages = 1] the crawl returns one page. *)
Example max_pages_one :
(map url ∘ r_pages ∘ fst) <$> crawlDocumentation 30 InProcess small_site sys0
                                (doc "page1") 1 200
= Some [doc "page1"].
Proof. vm_compute. reflexivity. Qed.

(** C2 on a site where ten requests in a row fail: the tenth failure is
  reached at a loop head with a non-empty queue and ends the crawl. *)
Lemma circuit_breaker_stops_crawl_sample :
LoopHead (Standalone cli0) outage 200 800 DEFAULT_START_URL sys0 outage_head
∧ loop_test 800 outage_head = true
∧ consecutiveFailures outage_end = 10
∧ loop_body (Standalone cli0) outage 200 outage_head = Break outage_end
∧ Js.len_list (pages outage_end) ≤ 800
∧ 10 ≤ failures outage_end.
Proof.
destruct (circuit_breaker_stops_crawl cli0 outage sys0 DEFAULT_START_URL 800 200)
  as (fuel & final & _ & _ & Hbreak).
assert (Hh : LoopHead (Standalone cli0) outage 200 800 DEFAULT_START_URL sys0
               outage_head).
{ apply (passes_head _ _ _ _ _ _ 10%nat (crawl_init DEFAULT_START_URL sys0));
    [constructor | vm_compute; reflexivity]. }
assert (Htest : loop_test 800 outage_head = true) by (vm_compute; reflexivity).
assert (Hten : consecutiveFailures outage_end = 10) by (vm_compute; reflexivity).
destruct (Hbreak outage_head _ Hh Htest eq_refl) as (Hc & Hlen & Hfail).
{ fold outage_end. rewrite Hten. unfold MAX_CONSECUTIVE_FAILURES. lia. }
assert (Hend : outage_end = final).
{ unfold outage_end. by rewrite Hc. }
rewrite Hend.
split; [exact Hh |]. split; [exact Htest |].
split; [rewrite <- Hend; exact Hten |].
split; [exact Hc |]. split; [exact Hlen | exact Hfail].
Defined.

(** C2 as stated fails on the crawler inside the server, which has no
  counter of consecutive failures and no [break]: on the same site the
  ten requests after the first fail in a row while the queue is not
  empty, and the crawl goes on, sends a twelfth request and stores the
  page it gets. *)
Example in_process_crawler_goes_on :
let run := crawlDocumentation 30 InProcess outage sys0 DEFAULT_START_URL 800 200 in
(r_failures ∘ fst) <$> run = Some 10
∧ (map url ∘ r_pages ∘ fst) <$> run = Some [DEFAULT_START_URL; doc "fine"]
∧ (fetched ∘ snd) <$> run
  = Some (DEFAULT_START_URL :: broken_links ++ [doc "fine"]).
Proof. repeat split; vm_compute; reflexivity. Qed.

(** C3 fails on the code.  The root of the documentation is an allowed
  URL; normalising it strips the slash that the allowed path prefix ends
  in, and the result is rejected. *)
Theorem allowed_root_is_rejected_once_normalized :
isAllowedUrl allowed_root = true
∧ normalizeUrl allowed_root = "https://docs.devexpress.com/AspNetBootstrap"
∧ isAllowedUrl (normalizeUrl allowed_root) = false.
Proof. repeat split; vm_compute; reflexivity. Qed.

(** What follows from it: a refresh from the root of the documentation
  passes the check of the start URL, fetches nothing and replaces the
  served pages by none. *)
Example refresh_from_root_empties_the_index :
let run := handleRefreshIndex 5 small_site allowed_root 800 200
             one_page_server sys0 in
(fun r => field "status" r.1.1) <$> run = Some (Some (JStr "success"))
∧ (fun r => field "indexedCount" r.1.1) <$> run = Some (Some (JInt 0))
∧ (fun r => indexedPages r.1.2) <$> run = Some []
∧ (fun r => fetched r.2) <$> run = Some [].
Proof. repeat split; vm_compute; reflexivity. Qed.

(** C7 fails on the code.  [normalizeUrl] strips one trailing slash: of a
  path that ends in two it leaves one, which a second call strips. *)
Theorem normalize_is_not_idempotent_on_double_slash :
normalizeUrl double_slash = "https://docs.devexpress.com/AspNetBootstrap/x/"
∧ normalizeUrl (normalizeUrl double_slash)
  = "https://docs.devexpress.com/AspNetBootstrap/x"
∧ normalizeUrl (normalizeUrl double_slash) ≠ normalizeUrl double_slash.
Proof. repeat split; try (vm_compute; reflexivity). by vm_compute. Qed.

(** C4 as stated fails on the search revision of the indexer: a fetched
  file of 30 characters is stored.  The tree walk discards it. *)
Lemma search_revision_stores_short_file :
Js.len thirty_bytes = 30
∧ map GitHub.content
    (GitHubSearch.crawlGitHubExamples (hub_with thirty_bytes) options1
       GitHub.trace0).1.1
  = [thirty_bytes]
∧ (GitHubWalk.crawlGitHubExamples (hub_with thirty_bytes) options1
     GitHub.trace0).1.1 = [].
Proof. repeat split; vm_compute; reflexivity. Qed.

(** C5 as stated fails on the search revision of the indexer: a class
  declared twice is listed twice. *)
Lemma search_revision_keeps_duplicates :
map GitHub.relatedClasses
  (GitHubSearch.crawlGitHubExamples (hub_with twice) options1 GitHub.trace0).1.1
= [["Grid"; "Grid"]]
∧ ¬ Forall clean_metadata
      (GitHubSearch.crawlGitHubExamples (hub_with twice) options1
         GitHub.trace0).1.1.
Proof.
split; [vm_compute; reflexivity |].
intros Hall.
assert (Hhead : ∃ e,
          (GitHubSearch.crawlGitHubExamples (hub_with twice) options1
             GitHub.trace0).1.1 !! 0%nat = Some e
          ∧ GitHub.relatedClasses e = ["Grid"; "Grid"]).
{ eexists. split; vm_compute; reflexivity. }
destruct Hhead as (e & He & Hclasses).
eapply Forall_lookup_1 in Hall; [| exact He].
destruct Hall as [Hnodup _]. rewrite Hclasses in Hnodup.
apply NoDup_cons in Hnodup as [Hin _]. apply Hin. by left.
Qed.

(** C5, as amended, on the same file. *)
Lemma walk_metadata_is_deduplicated_sample :
∃ e,
  (GitHubWalk.indexFile (hub_with twice) "DevExpress" "Demos" "Demo.cs"
     "https://raw.example/Demo.cs" None GitHub.trace0).1 = Some e
  ∧ GitHub.relatedClasses e = ["Grid"]
  ∧ clean_metadata e.
Proof.
eexists. split; [vm_compute; reflexivity |]. split; [reflexivity |].
apply (walk_metadata_is_deduplicated (hub_with twice) "DevExpress" "Demos"
         "Demo.cs" "https://raw.example/Demo.cs" None GitHub.trace0).
vm_compute. reflexivity.
Defined.

(** C6 on a page crawled again under a new title: the old record stays. *)
Lemma merge_keeps_existing_pages_sample :
let existingPages := [grid_page] in
let pages := [page (doc "grid") "Grid View, crawled again"; tree_page] in
NoDup (map url (mergePages true existingPages pages))
∧ mergePages true existingPages pages = [grid_page; tree_page].
Proof.
intros existingPages pages.
destruct (merge_keeps_existing_pages existingPages pages) as (Hnodup & _ & Heq).
- apply (bool_decide_unpack _). vm_compute. exact I.
- apply (bool_decide_unpack _). vm_compute. exact I.
- split; [exact Hnodup |]. vm_compute. reflexivity.
Defined.

(** C8 on a page of 53 characters and [maxChars = 10]. *)
Lemma open_top_result_truncates_sample :
field "text" (handleOpenTopResult "Grid" true 10 one_page_server)
= Some (JStr ("DevExpress" ++ newline ++ newline
              ++ "[... truncated at 10 characters ...]")%string)
∧ ∃ topPage kept,
    find_page one_page_server (hashString (doc "grid")) = Some topPage
    ∧ kept = String.substring 0 10 (text topPage)
    ∧ field "text" (handleOpenTopResult "Grid" true 10 one_page_server)
      = Some (JStr (if Js.exceeds (Js.len (text topPage)) 10
                    then (kept ++ newline ++ newline ++ "[... truncated at "
                          ++ Js.show 10 ++ " characters ...]")%string
                    else text topPage))
    ∧ Js.len kept = 10
    ∧ Js.exceeds (Js.len kept) 10 = false.
Proof.
assert (Hok : field "status" (handleOpenTopResult "Grid" true 10 one_page_server)
              = Some (JStr "success")) by (vm_compute; reflexivity).
assert (Hpos : Js.positive 10 = true) by reflexivity.
destruct (open_top_result_truncates one_page_server "Grid" true 10 _
            Hpos eq_refl Hok)
  as (index & topResult & others & topPage & kept
      & Hindex & Hsearch & Hfind & Hkept & Htext & Hlen).
split; [vm_compute; reflexivity |].
assert (Hid : hit_id topResult = hashString (doc "grid")).
{ assert (Hhits : search_pages {| documents := [grid_page] |} "Grid"
                  = [{| hit_id := hashString (doc "grid"); hit_score := 1 |}])
    by (vm_compute; reflexivity).
  injection Hindex as <-. rewrite Hhits in Hsearch. by injection Hsearch as <- _. }
rewrite Hid in Hfind.
assert (Hpage : find_page one_page_server (hashString (doc "grid"))
                = Some grid_page) by (vm_compute; reflexivity).
assert (Htop : topPage = grid_page) by congruence.
exists topPage, kept. split; [exact Hfind |]. split; [exact Hkept |].
split; [exact Htext |]. apply Hlen. rewrite Htop. vm_compute. reflexivity.
Defined.

(** The same page with [maxChars = 10.5]: ten characters are kept, and the
  marker quotes the limit as it was given. *)
Example open_top_result_fractional_limit :
field "text" (handleOpenTopResult "Grid" true (Js.Between 10 "10.5")
                one_page_server)
= Some (JStr ("DevExpress" ++ newline ++ newline
              ++ "[... truncated at 10.5 characters ...]")%string).
Proof. vm_compute. reflexivity. Qed.

(** C9 on the server before any index was loaded. *)
Lemma search_without_corpus_is_no_index_sample :
field "status" (handleOpenTopResult "Grid" true 15000 server0)
= Some (JStr "no_index")
∧ field "status" (handleSearchExamples "Grid" None 5 server0)
  = Some (JStr "no_index").
Proof.
destruct (search_without_corpus_is_no_index server0 "Grid") as [Hdocs Hcode].
split; [apply Hdocs | apply Hcode]; by left.
Defined.

(** C10 on a start URL on another host. *)
Lemma refresh_rejects_start_url_out_of_scope_sample :
∃ payload,
  handleRefreshIndex 0 small_site elsewhere 800 200 one_page_server sys0
  = Some (payload, one_page_server, sys0)
  ∧ field "status" payload = Some (JStr "error").
Proof.
apply refresh_rejects_start_url_out_of_scope. vm_compute. reflexivity.
Defined.

(** C4, as amended, on the file of 30 characters. *)
Lemma stored_content_is_capped_sample :
Js.len thirty_bytes < 50
∧ GitHubWalk.index_content "DevExpress" "Demos" "Demo.cs" (Some thirty_bytes) "t0"
  = None
∧ Forall (fun e => Js.len (GitHub.content e) ≤ 8000)
    (GitHubWalk.crawlGitHubExamples (hub_with twice) options1 GitHub.trace0).1.1.
Proof.
assert (Hshort : Js.len thirty_bytes < 50) by (vm_compute; reflexivity).
destruct (stored_content_is_capped (hub_with twice) options1 GitHub.trace0)
  as (_ & Hwalk & Hdiscard).
split; [exact Hshort |]. split; [by apply Hdiscard |].
eapply Forall_impl; [exact Hwalk |]. by intros e [].
Defined.

(** Small evaluations of the string and pattern primitives. *)
Example slice_drops_last : Js.slice "abc/" 0 (-1) = "abc".
Proof. reflexivity. Qed.

Example substring_swaps : Js.substring "abcdef" 4 1 = "bcd".
Proof. reflexivity. Qed.

Example split_keeps_trailing : Js.split_on "/" "a/b/" = ["a"; "b"; EmptyString].
Proof. reflexivity. Qed.

Example trim_both_ends : Js.trim "  a b  " = "a b".
Proof. reflexivity. Qed.

Example base36_digits : Js.to_base36 96354 = "22ci".
Proof. reflexivity. Qed.

Example set_keeps_first_occurrences :
Js.set_of_list ["b"; "a"; "b"; "c"; "a"] = ["b"; "a"; "c"].
Proof. reflexivity. Qed.

Example class_names_found :
RegExp.exec_all GitHub.classRegex
  "public class Foo { } class Bar{} subclass Baz classX  class   Q1_z("
= ["Foo"; "Bar"; "Q1_z"].
Proof. vm_compute. reflexivity. Qed.

Example method_names_found :
GitHubWalk.extractMetadata
  "public class Foo { static void Main(string[] a) { if (x) new Foo (); } int Main () {} }"
= (["Foo"], ["Main"; "Foo"]).
Proof. vm_compute. reflexivity. Qed.

Example title_drops_extension : GitHub.title_of "src/My_File-name.aspx.cs" = "My File name.aspx".
Proof. vm_compute. reflexivity. Qed.

End SampleRuns.

(** * Further properties of the crawl loop *)

Section CrawlLogFacts.
Context `{UrlApi} `{Cheerio}.
Variable w : World.
Variables delayMs maxPages : Z.
Variable startUrl : string.
Variable s0 : Sys.

Lemma log_init k : CrawlLog k w s0 (crawl_init startUrl s0) [].
Proof.
  split; simpl; try done.
  - by rewrite app_nil_r.
  - constructor.
  - intros u Hu. inversion Hu.
Qed.

Lemma log_same k st st' new :
  CrawlLog k w s0 st new →
  fetched (sys st') = fetched (sys st) → pages st' = pages st →
  visited st ⊆ visited st' → failures st' = failures st →
  CrawlLog k w s0 st' new.
Proof.
  intros [Hf Hn Ha Hv Hp Hi Hc He] Hf' Hp' Hsub Hfail.
  split; rewrite ?Hf', ?Hp', ?Hfail; auto.
Qed.

Lemma log_fail k st st' new u :
  CrawlLog k w s0 st new →
  fetched (sys st') = fetched (sys st) ++ [u] → pages st' = pages st →
  isAllowedUrl u = true → u ∉ visited st → u ∈ visited st' →
  visited st ⊆ visited st' → failures st' = failures st + 1 →
  CrawlLog k w s0 st' (new ++ [u]).
Proof.
  intros [Hf Hn Ha Hv Hp Hi Hc He] Hf' Hp' Hal Hfresh Hin Hsub Hfail.
  split; rewrite ?Hf', ?Hp', ?Hfail.
  - by rewrite Hf, <- app_assoc.
  - apply NoDup_app. split; [done | split; [| apply NoDup_singleton]].
    intros x Hx [->|[]%elem_of_nil]%elem_of_cons. auto.
  - apply Forall_app. split; [done | by constructor].
  - intros x [Hx | ->%list_elem_of_singleton]%elem_of_app; auto.
  - by apply sublist_inserts_r.
  - done.
  - unfold Js.len_list in *. rewrite length_app. simpl. lia.
  - intros Hr. specialize (He Hr). unfold Js.len_list in *.
    rewrite length_app. simpl. lia.
Qed.

Lemma log_page k st st' new page :
  CrawlLog k w s0 st new →
  fetched (sys st') = fetched (sys st) ++ [url page] →
  pages st' = pages st ++ [page] → id page = hashString (url page) →
  isAllowedUrl (url page) = true → url page ∉ visited st →
  url page ∈ visited st' → visited st ⊆ visited st' →
  failures st' = failures st
  ∨ (failures st' = failures st + 1 ∧ ¬ reliable k w) →
  CrawlLog k w s0 st' (new ++ [url page]).
Proof.
  intros [Hf Hn Ha Hv Hp Hi Hc He] Hf' Hp' Hid Hal Hfresh Hin Hsub Hfail.
  split; rewrite ?Hf', ?Hp'.
  - by rewrite Hf, <- app_assoc.
  - apply NoDup_app. split; [done | split; [| apply NoDup_singleton]].
    intros x Hx [->|[]%elem_of_nil]%elem_of_cons. auto.
  - apply Forall_app. split; [done | by constructor].
  - intros x [Hx | ->%list_elem_of_singleton]%elem_of_app; auto.
  - rewrite map_app. by apply sublist_app.
  - apply Forall_app. split; [done | by constructor].
  - unfold Js.len_list in *. rewrite !length_app. simpl. lia.
  - intros Hr. specialize (He Hr). unfold Js.len_list in *.
    rewrite !length_app. simpl. destruct Hfail as [-> | [_ []]]; [lia | done].
Qed.

Ltac crush_body :=
  unfold loop_body, index_page, on_exception, on_http_error, checkpoint,
    count_failure, too_many, rate_limit, saveDocs, sys_write,
    MAX_CONSECUTIVE_FAILURES in *;
  repeat (case_match; simplify_eq/=).

Ltac grows :=
  simpl;
  lazymatch goal with
  | |- _ ∈ _ => apply elem_of_union_l, elem_of_singleton; reflexivity
  | |- _ => first [reflexivity | apply union_subseteq_r]
  end.

Ltac unreliable :=
  right; split; [simpl; lia |];
  intros [Hk | Hw]; [discriminate Hk |];
  repeat match goal with
         | Hno : write_ok w _ = false |- _ => rewrite Hw in Hno; discriminate Hno
         end.

Ltac close_log :=
  first
    [ eexists; eapply log_same;
      [eassumption | reflexivity | reflexivity | grows | reflexivity]
    | eexists; eapply log_fail;
      [ eassumption | reflexivity | reflexivity | assumption | simpl; assumption
      | grows | grows | simpl; lia ]
    | eexists;
      eapply (log_page _ _ _ _ {| id := _; url := _; title := _; headings := _;
                                text := _; codeBlocks := _; fetchedAt := _ |});
      [ eassumption | reflexivity | reflexivity | reflexivity | assumption
      | simpl; assumption | grows | grows
      | first [left; simpl; lia | unreliable] ] ].

Lemma body_log k st c new :
  CrawlLog k w s0 st new → loop_body k w delayMs st = c →
  ∃ new', CrawlLog k w s0 (control_state c) new'.
Proof.
  intros HL Hbody.
  crush_body;
    repeat match goal with
           | Hb : bool_decide _ = false |- _ => apply bool_decide_eq_false in Hb
           | Hb : negb _ = false |- _ => apply negb_false_iff in Hb
           end.
  all: try close_log.
Qed.

Lemma or_default_same (n : Z) : or_default n n = n.
Proof. unfold or_default. by destruct (n =? 0). Qed.

Lemma files_init k : CrawlFiles k s0 (crawl_init startUrl s0).
Proof. split; simpl; auto. Qed.

Lemma files_keep k st st' :
  CrawlFiles k s0 st →
  pages_file (sys st') = pages_file (sys st) →
  meta_file (sys st') = meta_file (sys st) →
  (k = InProcess → write_attempts (sys st') = write_attempts (sys st)) →
  pages st' = pages st ∨ (∃ page, pages st' = pages st ++ [page]) →
  CrawlFiles k s0 st'.
Proof.
  intros [Hs Hi] Hp Hm Hw Hpages. split.
  - rewrite Hp, Hm.
    destruct Hs as [? | (n & Hn & Hmod & Hfile & Hmeta)]; [by left | right].
    exists n. destruct Hpages as [-> | [page ->]]; [done |].
    rewrite length_app, take_app_le by lia. repeat split; try done; lia.
  - intros Hk. rewrite Hp, Hm, (Hw Hk). by apply Hi.
Qed.

Lemma files_saved cli st st' page :
  CrawlFiles (Standalone cli) s0 st →
  pages st' = pages st ++ [page] →
  (Js.len_list (pages st') mod 50 =? 0) = true →
  pages_file (sys st') = Some (pages st') →
  meta_file (sys st') = meta_file (sys st)
  ∨ (∃ m, meta_file (sys st') = Some m
          ∧ indexedCount m = Js.len_list (pages st')) →
  CrawlFiles (Standalone cli) s0 st'.
Proof.
  intros [Hs _] Hpages Hmod%Z.eqb_eq Hfile Hmeta. split; [| done].
  assert (Hlen : (0 < List.length (pages st')
                  ∧ List.length (pages st) < List.length (pages st'))%nat).
  { rewrite Hpages, length_app. simpl. lia. }
  right. exists (List.length (pages st')).
  split; [lia |]. split; [done |]. split; [by rewrite firstn_all |].
  unfold Js.len_list in *.
  destruct Hmeta as [-> | (m & -> & Hcount)].
  - destruct Hs as [[_ ?] | (n & Hn & _ & _ & [? | (m & ? & ? & ?)])];
      [by left | by left | right].
    exists m. repeat split; try done; lia.
  - right. exists m. rewrite Hcount. repeat split; try done; lia.
Qed.

Ltac close_files :=
  first
    [ eapply files_keep;
      [ eassumption | reflexivity | reflexivity
      | first [intros _; reflexivity | intros Hk; discriminate Hk]
      | first [left; reflexivity | right; eexists; reflexivity] ]
    | eapply (files_saved _ _ _ {| id := _; url := _; title := _; headings := _;
                                   text := _; codeBlocks := _; fetchedAt := _ |});
      [ eassumption | reflexivity | simpl; assumption | reflexivity
      | first [ left; reflexivity
              | right; eexists; split; [reflexivity | simpl; apply or_default_same] ] ] ].

Lemma body_files k st c :
  CrawlFiles k s0 st → loop_body k w delayMs st = c →
  CrawlFiles k s0 (control_state c).
Proof.
  intros HF Hbody.
  crush_body.
  all: try close_files.
Qed.

Lemma head_log k st :
  LoopHead k w delayMs maxPages startUrl s0 st →
  (∃ new, CrawlLog k w s0 st new) ∧ CrawlFiles k s0 st.
Proof.
  induction 1 as [| st st' _ [[new HL] HF] Htest Hbody].
  - split; [exists []; apply log_init | apply files_init].
  - split.
    + apply (body_log k st _ new HL Hbody).
    + apply (body_files k st _ HF Hbody).
Qed.

Lemma exit_log k final :
  LoopExit k w delayMs maxPages startUrl s0 final →
  (∃ new, CrawlLog k w s0 final new) ∧ CrawlFiles k s0 final.
Proof.
  intros [Hh _ | st Hh Htest Hbody].
  - by apply head_log.
  - apply head_log in Hh as [[new HL] HF]. split.
    + apply (body_log k st _ new HL Hbody).
    + apply (body_files k st _ HF Hbody).
Qed.

Lemma requests_of_new (s : Sys) (new : list string) :
  fetched s = fetched s0 ++ new → requests_of s0 s = new.
Proof. intros Hf. unfold requests_of. by rewrite Hf, drop_app_length. Qed.

(** What a finished crawl returns is the state in which its loop was
    left. *)
Lemma crawl_exit k fuel r s :
  crawlDocumentation fuel k w s0 startUrl maxPages delayMs = Some (r, s) →
  ∃ final,
    LoopExit k w delayMs maxPages startUrl s0 final
    ∧ r = crawl_result final ∧ s = sys final.
Proof.
  unfold crawlDocumentation.
  destruct (while_loop k w delayMs maxPages fuel (crawl_init startUrl s0))
    as [final |] eqn:Hrun; [| done].
  intros [= <- <-]. exists final. split; [| done].
  eapply while_loop_exit; [constructor | exact Hrun].
Qed.

(** Every crawl returns. *)
Lemma crawl_returns k :
  ∃ fuel r s,
    crawlDocumentation fuel k w s0 startUrl maxPages delayMs = Some (r, s).
Proof.
  destruct (while_loop_total k w delayMs maxPages (crawl_init startUrl s0))
    as (fuel & final & Hrun).
  exists fuel, (crawl_result final), (sys final).
  unfold crawlDocumentation. by rewrite Hrun.
Qed.

Lemma crawl_log k fuel r s :
  crawlDocumentation fuel k w s0 startUrl maxPages delayMs = Some (r, s) →
  ∃ final,
    r = crawl_result final ∧ s = sys final
    ∧ CrawlLog k w s0 final (requests_of s0 s)
    ∧ CrawlFiles k s0 final
    ∧ CrawlInv maxPages s0 final.
Proof.
  intros (final & Hexit & -> & ->)%crawl_exit. exists final.
  destruct (exit_log k final Hexit) as [[new HL] HF].
  rewrite (requests_of_new (sys final) new) by (by destruct HL).
  split; [done |]. split; [done |]. split; [exact HL |]. split; [exact HF |].
  by eapply exit_inv.
Qed.

End CrawlLogFacts.

Section CrawlPaceFacts.
Context `{UrlApi} `{Cheerio}.
Variable w : World.
Variables delayMs maxPages : Z.
Variable startUrl : string.
Variable s0 : Sys.

Ltac crush_body :=
  unfold loop_body, index_page, on_exception, on_http_error, checkpoint,
    count_failure, too_many, rate_limit, saveDocs, sys_write,
    MAX_CONSECUTIVE_FAILURES in *;
  repeat (case_match; simplify_eq/=).

Lemma nap_more (d naps : Z) : d * (naps + 1) = d * naps + d.
Proof. ring. Qed.

Ltac pace_with n :=
  exists n;
  simpl; unfold Js.len_list in *; rewrite ?length_app; simpl;
  rewrite ?nap_more;
  repeat match goal with
         | Hd : (_ >? 0) = true |- _ => rewrite Z.gtb_ltb in Hd; apply Z.ltb_lt in Hd
         | Hd : (_ >? 0) = false |- _ => rewrite Z.gtb_ltb in Hd; apply Z.ltb_ge in Hd
         end;
  lia.

Ltac close_pace naps := first [pace_with naps | pace_with (naps + 1)].

Lemma body_pace k st c :
  paced delayMs s0 0 st → loop_body k w delayMs st = c →
  match c with
  | Continue st' => paced delayMs s0 0 st'
  | Break st' => paced delayMs s0 1 st'
  end.
Proof.
  intros (naps & Hslept & Hlow & Hhigh) Hbody.
  crush_body.
  all: try close_pace naps.
Qed.

Lemma head_pace k st :
  LoopHead k w delayMs maxPages startUrl s0 st → paced delayMs s0 0 st.
Proof.
  induction 1 as [| st st' _ IH Htest Hbody].
  - exists 0. unfold Js.len_list. simpl. lia.
  - apply (body_pace k st _ IH Hbody).
Qed.

Lemma exit_pace k final :
  LoopExit k w delayMs maxPages startUrl s0 final → paced delayMs s0 1 final.
Proof.
  intros [Hh _ | st Hh Htest Hbody].
  - apply head_pace in Hh as (naps & ? & ? & ?). exists naps. lia.
  - apply head_pace in Hh. apply (body_pace k st _ Hh Hbody).
Qed.

End CrawlPaceFacts.




(** X3.  The pages a crawl returns are pages it requested, in the order of the
    requests; no two of them have the same [url], and the [id] of each is
    the hash of its [url]. *)
Theorem crawl_pages_follow_the_requests `{UrlApi} `{Cheerio}
    (k : Crawler) (w : World) (s0 : Sys) (startUrl : string) (maxPages delayMs : Z) :
  (∃ fuel r s,
     crawlDocumentation fuel k w s0 startUrl maxPages delayMs = Some (r, s))
  ∧ ∀ fuel r s,
      crawlDocumentation fuel k w s0 startUrl maxPages delayMs = Some (r, s) →
      sublist (map url (r_pages r)) (requests_of s0 s)
      ∧ NoDup (map url (r_pages r))
      ∧ Forall (fun p => id p = hashString (url p)) (r_pages r).
Proof.
  split; [apply crawl_returns |].
  intros fuel r s (final & -> & -> & HL & _ & HI)%crawl_log.
  destruct HL. by destruct HI.
Qed.

(** X4.  Every request of a crawl ends in a stored page or in a counted
    failure: the requests are at least as many as the pages and at most
    as many as pages and failures together, and exactly as many when no
    write of a progress file can fail. *)
Theorem crawl_accounts_for_every_request `{UrlApi} `{Cheerio}
    (k : Crawler) (w : World) (s0 : Sys) (startUrl : string) (maxPages delayMs : Z) :
  (∃ fuel r s,
     crawlDocumentation fuel k w s0 startUrl maxPages delayMs = Some (r, s))
  ∧ ∀ fuel r s,
      crawlDocumentation fuel k w s0 startUrl maxPages delayMs = Some (r, s) →
      0 ≤ r_failures r
      ∧ Js.len_list (r_pages r) ≤ Js.len_list (requests_of s0 s)
        ≤ Js.len_list (r_pages r) + r_failures r
      ∧ (reliable k w →
         Js.len_list (requests_of s0 s) = Js.len_list (r_pages r) + r_failures r).
Proof.
  split; [apply crawl_returns |].
  intros fuel r s (final & -> & -> & HL & _ & HI)%crawl_log.
  destruct HL as [_ _ _ _ Hp _ Ha He]. destruct HI as [_ _ _ Hc _ _].
  simpl. split; [lia |]. split; [| done]. split; [| done].
  apply sublist_length in Hp. rewrite length_map in Hp.
  unfold Js.len_list. lia.
Qed.

(** ** Limits that are not whole numbers *)

(** [count < limit], the test of the crawl loop. *)
Lemma below_limit (limit : Q) (count : Z) :
  (inject_Z count < limit)%Q ↔ count < whole_limit limit.
Proof.
  unfold whole_limit. pose proof (Qle_ceiling limit) as Hup.
  pose proof (Qceiling_lt limit) as Hdown. split; intros Hlt.
  - rewrite Zlt_Qlt. lra.
  - assert (Hle : count ≤ Qceiling limit - 1) by lia.
    rewrite Zle_Qle in Hle. lra.
Qed.

(** [count >= limit], the test of the loops of the indexer. *)
Lemma limit_reached (limit : Q) (count : Z) :
  (limit <= inject_Z count)%Q ↔ whole_limit limit ≤ count.
Proof.
  pose proof (below_limit limit count) as Hbelow. split; intros Hle.
  - destruct (Z.le_gt_cases (whole_limit limit) count) as [| Hlt]; [done |].
    apply Hbelow in Hlt. lra.
  - apply Qnot_lt_le. intros Hlt. apply Hbelow in Hlt. lia.
Qed.

(** [limit - count], the budget that [findCodeFiles] passes on. *)
Lemma limit_less_count (limit : Q) (count : Z) :
  whole_limit (limit - inject_Z count) = whole_limit limit - count.
Proof.
  assert (Hshift : ∀ n, (limit - inject_Z count <= inject_Z n)%Q
                        ↔ (limit <= inject_Z (n + count))%Q).
  { intros n. rewrite inject_Z_plus. split; intros Hq; lra. }
  apply Z.le_antisymm.
  - apply limit_reached, Hshift, limit_reached. lia.
  - assert (Hle : whole_limit limit
                  ≤ whole_limit (limit - inject_Z count) + count);
      [| lia].
    apply limit_reached, Hshift, limit_reached. lia.
Qed.

(** [Math.min(cap, limit)], the budget of one call of [findCodeFiles]. *)
Lemma limit_capped (limit : Q) (cap : Z) :
  whole_limit (Qmin (inject_Z cap) limit) = Z.min cap (whole_limit limit).
Proof.
  destruct (Qlt_le_dec limit (inject_Z cap)) as [Hlt | Hle].
  - assert (Hmin : Qmin (inject_Z cap) limit == limit)
      by (apply Q.min_r; lra).
    unfold whole_limit at 1. rewrite Hmin. fold (whole_limit limit).
    assert (whole_limit limit ≤ cap) by (apply limit_reached; lra). lia.
  - assert (Hmin : Qmin (inject_Z cap) limit == inject_Z cap)
      by (by apply Q.min_l).
    unfold whole_limit at 1. rewrite Hmin, Qceiling_Z.
    assert (¬ whole_limit limit < cap); [| lia].
    intros Hlt. assert (Hc : whole_limit limit ≤ cap - 1) by lia.
    apply limit_reached in Hc.
    assert (Hone : cap - 1 < cap) by lia. rewrite Zlt_Qlt in Hone. lra.
Qed.

Lemma whole_limit_positive (limit : Q) :
  (0 < limit)%Q ↔ 0 < whole_limit limit.
Proof. apply (below_limit limit 0). Qed.

Lemma count_within_limit (limit : Q) (count : Z) :
  0 ≤ count → count ≤ Z.max 0 (whole_limit limit) → within_limit limit count.
Proof.
  intros Hcount Hmax. split.
  - intros Hzero. apply (limit_reached limit 0) in Hzero. lia.
  - intros Hpos. apply whole_limit_positive in Hpos.
    assert (Hle : count ≤ whole_limit limit) by lia.
    rewrite Zle_Qle in Hle. unfold whole_limit in Hle.
    pose proof (Qceiling_lt limit) as Hdown.
    replace (Qceiling limit - 1) with (Qceiling limit + -1) in Hdown by lia.
    rewrite inject_Z_plus in Hdown.
    change (inject_Z (-1)) with (- (1))%Q in Hdown. lra.
Qed.

(** X5.  A crawl with a positive page limit, whole or not, returns fewer
    than [maxPages + 1] pages: at most [maxPages] for a whole limit, one
    page for a limit of one half.  With a page limit of zero or less it
    returns at once: nothing visited, requested, slept or written. *)
Theorem crawl_respects_page_limit `{UrlApi} `{Cheerio}
    (k : Crawler) (w : World) (s0 : Sys) (startUrl : string)
    (limit : Q) (delayMs : Z) :
  let maxPages := whole_limit limit in
  (∃ fuel r s,
     crawlDocumentation fuel k w s0 startUrl maxPages delayMs = Some (r, s))
  ∧ ∀ fuel r s,
      crawlDocumentation fuel k w s0 startUrl maxPages delayMs = Some (r, s) →
      within_limit limit (Js.len_list (r_pages r))
      ∧ ((limit <= 0)%Q →
         r = {| r_pages := []; r_visited := 0; r_failures := 0 |} ∧ s = s0).
Proof.
  intros maxPages. split; [apply crawl_returns |].
  intros fuel r s Hrun. split.
  - apply count_within_limit; [unfold Js.len_list; lia |]. fold maxPages.
    apply crawl_log in Hrun as (final & -> & -> & _ & _ & HI).
    destruct HI as [_ _ _ _ [Hnil | Hle] _]; simpl.
    + rewrite Hnil. unfold Js.len_list. simpl. lia.
    + lia.
  - intros Hzero. apply (limit_reached limit 0) in Hzero. fold maxPages in Hzero.
    unfold crawlDocumentation in Hrun.
    destruct fuel as [| fuel]; [done |]. simpl in Hrun.
    replace (loop_test maxPages (crawl_init startUrl s0)) with false in Hrun.
    + by simplify_eq.
    + unfold loop_test. simpl. symmetry.
      apply Z.ltb_ge. unfold Js.len_list. simpl. lia.
Qed.

(** A start URL that the scope filter rejects once it is normalised (the
    loop normalises it twice) is marked visited and not requested: the
    crawl returns no page and has no effect. *)
Lemma crawl_out_of_scope `{UrlApi} `{Cheerio}
    (fuel : nat) (k : Crawler) (w : World) (s0 : Sys) (startUrl : string)
    (maxPages delayMs : Z) :
  isAllowedUrl (normalizeUrl (normalizeUrl startUrl)) = false →
  0 < maxPages → (2 ≤ fuel)%nat →
  crawlDocumentation fuel k w s0 startUrl maxPages delayMs
  = Some ({| r_pages := []; r_visited := 1; r_failures := 0 |}, s0).
Proof.
  intros Hout Hmax Hfuel. destruct fuel as [| [| fuel]]; try lia.
  unfold crawlDocumentation. simpl.
  replace (loop_test maxPages (crawl_init startUrl s0)) with true.
  2:{ unfold loop_test. simpl. symmetry. by apply Z.ltb_lt. }
  unfold loop_body. simpl.
  rewrite bool_decide_eq_false_2 by set_solver. simpl.
  rewrite Hout. simpl. unfold loop_test. simpl.
  unfold crawl_result. simpl.
  assert (Hsize : size ({[normalizeUrl (normalizeUrl startUrl)]} ∪ ∅ : gset string)
                  = 1%nat)
    by (rewrite union_empty_r_L; apply size_singleton).
  simpl in Hsize. by rewrite Hsize.
Qed.

(** X6.  The stand-alone crawler, in either revision of its [main],
    started on a URL out of scope (normalised twice, as the loop does)
    requests nothing and still saves: without [--continue] the index file
    is replaced by an empty one, with it the previous pages are written
    back. *)
Theorem main_out_of_scope_start_saves_no_new_page `{UrlApi} `{Cheerio}
    (fuel : nat) (w : World) (cli : Cli) (has_max : bool) (s : Sys) :
  isAllowedUrl (normalizeUrl (normalizeUrl (cli_url cli))) = false →
  0 < cli_max cli → (2 ≤ fuel)%nat →
  write_ok w (write_attempts s) = true →
  write_ok w (S (write_attempts s)) = true →
  let kept := if cli_continue cli then default [] (pages_file s) else [] in
  (∃ s',
     main_docs fuel w cli s = Some (s', true)
     ∧ fetched s' = fetched s ∧ pages_file s' = Some kept)
  ∧ (∃ s',
       main_docs_v1 fuel w cli has_max s = Some (s', true)
       ∧ fetched s' = fetched s ∧ pages_file s' = Some kept).
Proof.
  intros Hout Hmax Hfuel Hw1 Hw2 kept.
  assert (Hmerge : mergePages (cli_continue cli) (loadExisting cli s) [] = kept).
  { unfold mergePages, loadExisting, kept.
    destruct (cli_continue cli); [| done]. simpl.
    destruct (default [] (pages_file s)) as [| p ps]; [done |].
    simpl. by rewrite filter_nil, app_nil_r. }
  split.
  - unfold main_docs. rewrite crawl_out_of_scope by done.
    unfold saveDocs, sys_write. simpl. rewrite Hw1. simpl. rewrite Hw2.
    eexists. split; [reflexivity |]. simpl. split; [reflexivity |].
    by rewrite Hmerge.
  - unfold main_docs_v1. rewrite crawl_out_of_scope; [| done | | done].
    + unfold saveDocs, sys_write. simpl. rewrite Hw1. simpl. rewrite Hw2.
      eexists. split; [reflexivity |]. simpl. split; [reflexivity |].
      by rewrite Hmerge.
    + destruct (_ && _); [| done]. unfold DEFAULT_MAX_PAGES. lia.
Qed.

(** X7.  Whenever the loop test of the stand-alone crawler is evaluated, and
    when the crawl returns, pages.json is as the crawl found it or holds
    the first [n] pages of the crawl for a positive multiple [n] of 50;
    meta.json is as it was found or counts at most the pages of
    pages.json. *)
Theorem progress_file_is_a_prefix_of_the_crawl `{UrlApi} `{Cheerio}
    (cli : Cli) (w : World) (s0 : Sys) (startUrl : string) (maxPages delayMs : Z) :
  (∀ st, LoopHead (Standalone cli) w delayMs maxPages startUrl s0 st →
         CrawlFiles (Standalone cli) s0 st)
  ∧ (∃ fuel r s,
       crawlDocumentation fuel (Standalone cli) w s0 startUrl maxPages delayMs
       = Some (r, s))
  ∧ ∀ fuel r s,
      crawlDocumentation fuel (Standalone cli) w s0 startUrl maxPages delayMs
      = Some (r, s) →
      (pages_file s = pages_file s0 ∧ meta_file s = meta_file s0)
      ∨ ∃ n : nat,
          (0 < n ≤ List.length (r_pages r))%nat ∧ Z.of_nat n mod 50 = 0
          ∧ pages_file s = Some (take n (r_pages r))
          ∧ (meta_file s = meta_file s0
             ∨ ∃ m, meta_file s = Some m
                    ∧ 0 < indexedCount m ≤ Z.of_nat n
                    ∧ indexedCount m mod 50 = 0).
Proof.
  split; [| split; [apply crawl_returns |]].
  - intros st Hh. by apply head_log in Hh as [_ HF].
  - intros fuel r s (final & -> & -> & _ & HF & _)%crawl_log. by destruct HF.
Qed.

(** X8.  The crawler inside the server writes no file. *)
Theorem in_process_crawl_writes_no_file `{UrlApi} `{Cheerio}
    (w : World) (s0 : Sys) (startUrl : string) (maxPages delayMs : Z) :
  (∃ fuel r s,
     crawlDocumentation fuel InProcess w s0 startUrl maxPages delayMs = Some (r, s))
  ∧ ∀ fuel r s,
      crawlDocumentation fuel InProcess w s0 startUrl maxPages delayMs
      = Some (r, s) →
      write_attempts s = write_attempts s0
      ∧ pages_file s = pages_file s0 ∧ meta_file s = meta_file s0.
Proof.
  split; [apply crawl_returns |].
  intros fuel r s (final & -> & -> & _ & HF & _)%crawl_log.
  destruct HF as [_ Hin]. by apply Hin.
Qed.

(** X9.  A crawl pauses between the pages it stores: the time it sleeps is a
    whole number of naps of [delayMs] each, at least one less than the
    pages it returns and at most the requests it sent.  With a delay of
    zero or less it does not sleep. *)
Theorem crawl_pauses_between_pages `{UrlApi} `{Cheerio}
    (k : Crawler) (w : World) (s0 : Sys) (startUrl : string) (maxPages delayMs : Z) :
  (∃ fuel r s,
     crawlDocumentation fuel k w s0 startUrl maxPages delayMs = Some (r, s))
  ∧ ∀ fuel r s,
      crawlDocumentation fuel k w s0 startUrl maxPages delayMs = Some (r, s) →
      (∃ naps,
         slept s = slept s0 + Z.max 0 delayMs * naps
         ∧ Js.len_list (r_pages r) - 1 ≤ naps ≤ Js.len_list (requests_of s0 s))
      ∧ (delayMs ≤ 0 → slept s = slept s0).
Proof.
  split; [apply crawl_returns |].
  intros fuel r s (final & Hexit & -> & ->)%crawl_exit.
  destruct (exit_log _ _ _ _ _ _ _ Hexit) as [[new [Hf _ _ _ _ _ _ _]] _].
  apply exit_pace in Hexit as (naps & Hslept & Hlow & Hhigh).
  assert (Hreq : Js.len_list (requests_of s0 (sys final))
                 = Js.len_list (fetched (sys final)) - Js.len_list (fetched s0)).
  { rewrite (requests_of_new s0 (sys final) new Hf), Hf.
    unfold Js.len_list. rewrite length_app. lia. }
  split.
  - exists naps. simpl. lia.
  - intros Hzero. rewrite Hslept. rewrite Z.max_l by lia. lia.
Qed.

(** ** Cleaned text *)

Lemma trimStart_idempotent (s : string) : Js.trimStart (Js.trimStart s) = Js.trimStart s.
Proof.
  induction s as [| c s IH]; simpl; [done |].
  destruct (Js.is_space c) eqn:Hc; [done |]. simpl. by rewrite Hc.
Qed.

Lemma trimEnd_idempotent (s : string) : Js.trimEnd (Js.trimEnd s) = Js.trimEnd s.
Proof.
  induction s as [| c s IH]; simpl; [done |].
  destruct (Js.trimEnd s) as [| d t] eqn:Ht.
  - destruct (Js.is_space c) eqn:Hc; simpl; [done | by rewrite Hc].
  - change (Js.trimEnd (String c (String d t)))
      with (match Js.trimEnd (String d t) with
            | EmptyString => if Js.is_space c then EmptyString
                             else String c EmptyString
            | u => String c u
            end).
    by rewrite IH.
Qed.

Lemma trimStart_starts_clean (s : string) : starts_clean (Js.trimStart s).
Proof.
  induction s as [| c s IH]; simpl; [done |].
  by destruct (Js.is_space c) eqn:Hc.
Qed.

Lemma trimStart_of_clean (s : string) : starts_clean s → Js.trimStart s = s.
Proof. destruct s as [| c s]; simpl; [done |]. by intros ->. Qed.

Lemma trimEnd_starts_clean (s : string) : starts_clean s → starts_clean (Js.trimEnd s).
Proof.
  destruct s as [| c s]; simpl; [done |]. intros Hc.
  destruct (Js.trimEnd s); simpl; [by rewrite Hc | done].
Qed.

Lemma trim_idempotent (s : string) : Js.trim (Js.trim s) = Js.trim s.
Proof.
  unfold Js.trim.
  rewrite (trimStart_of_clean (Js.trimEnd (Js.trimStart s)))
    by apply trimEnd_starts_clean, trimStart_starts_clean.
  apply trimEnd_idempotent.
Qed.

Lemma single_blanks_weaken (b : bool) (s : string) :
  single_blanks b s = true → single_blanks false s = true.
Proof.
  destruct s as [| c s]; simpl; [done |].
  destruct (Js.is_space c); [| done].
  intros [[-> _]%andb_true_iff ->]%andb_true_iff. done.
Qed.

Lemma collapse_single_blanks (b : bool) (s : string) :
  single_blanks b (Js.collapse_spaces_aux b s) = true.
Proof.
  revert b. induction s as [| c s IH]; intros b; simpl; [done |].
  destruct (Js.is_space c) eqn:Hc.
  - destruct b; [apply IH |]. simpl. by rewrite IH.
  - simpl. rewrite Hc. apply IH.
Qed.

Lemma collapse_of_single_blanks (b : bool) (s : string) :
  single_blanks b s = true → Js.collapse_spaces_aux b s = s.
Proof.
  revert b. induction s as [| c s IH]; intros b; simpl; [done |].
  destruct (Js.is_space c).
  - intros [[Hc Hb%negb_true_iff]%andb_true_iff Hs]%andb_true_iff. subst b.
    apply Ascii.eqb_eq in Hc as ->. by rewrite IH.
  - intros Hs. by rewrite IH.
Qed.

Lemma trimStart_single_blanks (s : string) :
  single_blanks false s = true → single_blanks false (Js.trimStart s) = true.
Proof.
  induction s as [| c s IH]; simpl; [done |].
  destruct (Js.is_space c) eqn:Hc; [| simpl; by rewrite Hc].
  intros [_ Hs]%andb_true_iff. apply IH. by eapply single_blanks_weaken.
Qed.

Lemma trimEnd_single_blanks (b : bool) (s : string) :
  single_blanks b s = true → single_blanks b (Js.trimEnd s) = true.
Proof.
  revert b. induction s as [| c s IH]; intros b; [done |].
  change (Js.trimEnd (String c s))
    with (match Js.trimEnd s with
          | EmptyString => if Js.is_space c then EmptyString
                           else String c EmptyString
          | u => String c u
          end).
  simpl. destruct (Js.is_space c) eqn:Hc.
  - intros [Hhead Hs]%andb_true_iff. specialize (IH true Hs).
    destruct (Js.trimEnd s) as [| d t]; [done |].
    cbn [single_blanks]. rewrite Hc, Hhead. exact IH.
  - intros Hs. specialize (IH false Hs).
    destruct (Js.trimEnd s) as [| d t]; cbn [single_blanks]; rewrite Hc; done.
Qed.

(** Text that was collapsed and trimmed stays as it is under both. *)
Lemma cleaned_text_is_stable (s : string) :
  let cleaned := Js.trim (Js.collapse_spaces s) in
  Js.trim cleaned = cleaned ∧ Js.collapse_spaces cleaned = cleaned.
Proof.
  split; [apply trim_idempotent |].
  apply (collapse_of_single_blanks false). unfold Js.trim.
  apply trimEnd_single_blanks, trimStart_single_blanks, collapse_single_blanks.
Qed.

Section CleanPages.
Context `{UrlApi} `{Cheerio}.

Lemma each_trimmed_clean (dom : Dom) (sel : string) :
  Forall (fun t => t ≠ EmptyString ∧ Js.trim t = t) (each_trimmed dom sel).
Proof.
  unfold each_trimmed. apply Forall_forall. intros t Ht.
  apply list_elem_of_filter in Ht as [Hne Ht].
  apply list_elem_of_fmap in Ht as (raw & -> & _). split.
  - intros Hempty. rewrite Hempty in Hne. done.
  - apply trim_idempotent.
Qed.

Lemma extracted_page_is_clean (dom : Dom) (i u time : string) :
  clean_page {| id := i; url := u; title := page_title dom;
                headings := each_trimmed dom "h1, h2, h3";
                text := page_text dom;
                codeBlocks := each_trimmed dom "pre";
                fetchedAt := time |}.
Proof.
  unfold clean_page. simpl.
  split; [apply trim_idempotent |].
  split; [apply cleaned_text_is_stable |].
  split; [apply cleaned_text_is_stable |].
  split; apply each_trimmed_clean.
Qed.

Ltac crush_body :=
  unfold loop_body, index_page, on_exception, on_http_error, checkpoint,
    count_failure, too_many, rate_limit, saveDocs, sys_write,
    MAX_CONSECUTIVE_FAILURES in *;
  repeat (case_match; simplify_eq/=).

Lemma body_clean (k : Crawler) (w : World) (delayMs : Z) (st : CrawlState)
    (c : Control) :
  Forall clean_page (pages st) → loop_body k w delayMs st = c →
  Forall clean_page (pages (control_state c)).
Proof.
  intros Hclean Hbody.
  crush_body; try done.
  all: apply Forall_app; split; [done |]; constructor; [| done];
    apply extracted_page_is_clean.
Qed.

Lemma head_clean (k : Crawler) (w : World) (delayMs maxPages : Z)
    (startUrl : string) (s0 : Sys) (st : CrawlState) :
  LoopHead k w delayMs maxPages startUrl s0 st → Forall clean_page (pages st).
Proof.
  induction 1 as [| st st' _ IH Htest Hbody]; [done |].
  apply (body_clean k w delayMs st _ IH Hbody).
Qed.

End CleanPages.

(** X10.  Every page a crawl returns has cleaned text fields: title and
    text have no white space at either end, the only white space in the
    text is single blanks, and no heading or code block is empty or has
    white space at either end. *)
Theorem crawl_stores_clean_pages `{UrlApi} `{Cheerio}
    (k : Crawler) (w : World) (s0 : Sys) (startUrl : string) (maxPages delayMs : Z) :
  (∃ fuel r s,
     crawlDocumentation fuel k w s0 startUrl maxPages delayMs = Some (r, s))
  ∧ ∀ fuel r s,
      crawlDocumentation fuel k w s0 startUrl maxPages delayMs = Some (r, s) →
      Forall clean_page (r_pages r).
Proof.
  split; [apply crawl_returns |].
  intros fuel r s (final & Hexit & -> & ->)%crawl_exit. simpl.
  destruct Hexit as [Hh _ | st Hh _ Hbody].
  - by eapply head_clean.
  - eapply head_clean in Hh. apply (body_clean k w delayMs st _ Hh Hbody).
Qed.

(** ** Links, hashes and merging *)

(** X11.  [extractLinks] returns no link twice; every link it returns is the
    normal form of an [href] of the document, resolved against the base
    URL, and is accepted by the scope filter. *)
Theorem extracted_links_are_allowed_and_distinct `{UrlApi} `{Cheerio}
    (html baseUrl : string) :
  NoDup (extractLinks html baseUrl)
  ∧ Forall (fun link =>
              isAllowedUrl link = true
              ∧ ∃ href resolved,
                  Some href ∈ sel_each_attr (cheerio_load html) "a[href]" "href"
                  ∧ href ≠ EmptyString
                  ∧ URL_new_base href baseUrl = Some resolved
                  ∧ link = normalizeUrl (URL_href resolved))
           (extractLinks html baseUrl).
Proof.
  unfold extractLinks. split; [apply set_of_list_NoDup |].
  apply Forall_forall. intros link Hlink.
  apply (proj1 (set_of_list_elem _ _)) in Hlink.
  apply list_elem_of_omap in Hlink as (a & Ha & Hsome).
  destruct a as [href |]; [| done].
  destruct (nonempty href) eqn:Hne; [| done].
  destruct (URL_new_base href baseUrl) as [resolved |] eqn:Hres; [| done].
  destruct (isAllowedUrl (normalizeUrl (URL_href resolved))) eqn:Hok; [| done].
  simplify_eq. split; [done |]. exists href, resolved.
  repeat split; try done.
  intros ->. by vm_compute in Hne.
Qed.

Lemma to_int32_add_l (a b : Z) : Js.to_int32 (Js.to_int32 a + b) = Js.to_int32 (a + b).
Proof.
  unfold Js.to_int32. f_equal.
  replace ((a + 2 ^ 31) mod 2 ^ 32 - 2 ^ 31 + b + 2 ^ 31)
    with ((a + 2 ^ 31) mod 2 ^ 32 + b) by ring.
  rewrite Zplus_mod_idemp_l. f_equal. ring.
Qed.

Lemma to_int32_mul_r (c a b : Z) :
  Js.to_int32 (c * Js.to_int32 a + b) = Js.to_int32 (c * a + b).
Proof.
  unfold Js.to_int32. f_equal.
  replace (c * ((a + 2 ^ 31) mod 2 ^ 32 - 2 ^ 31) + b + 2 ^ 31)
    with (c * ((a + 2 ^ 31) mod 2 ^ 32) + (b + 2 ^ 31 - c * 2 ^ 31)) by ring.
  rewrite <- Zplus_mod_idemp_l, Zmult_mod_idemp_r, Zplus_mod_idemp_l.
  f_equal. ring.
Qed.

(** One round of the hash is [31 * hash + char], wrapped to 32 bits. *)
Lemma hash_round_spec (h : Z) (c : ascii) :
  hash_round h c = Js.to_int32 (31 * h + Z.of_nat (nat_of_ascii c)).
Proof.
  unfold hash_round. rewrite Z.shiftl_mul_pow2 by lia.
  replace (Js.to_int32 (h * 2 ^ 5) - h + Z.of_nat (nat_of_ascii c))
    with (Js.to_int32 (h * 2 ^ 5) + (Z.of_nat (nat_of_ascii c) - h)) by ring.
  rewrite to_int32_add_l. f_equal. change (2 ^ 5) with 32. ring.
Qed.

Lemma list_ascii_of_string_app (s t : string) :
  list_ascii_of_string (s ++ t)
  = list_ascii_of_string s ++ list_ascii_of_string t.
Proof. induction s as [| c s IH]; simpl; [done | by rewrite IH]. Qed.

(** X12.  [hashString] is the 31-multiplier string hash on 32 bits, so it does
    not tell [Aa] from [BB]: two strings that differ only in that they
    hold one or the other at the same place have the same hash.  Two
    pages whose URLs differ so get the same [id]. *)
Theorem hashString_collides (s t : string) :
  hashString (s ++ "Aa" ++ t) = hashString (s ++ "BB" ++ t)
  ∧ (s ++ "Aa" ++ t)%string ≠ (s ++ "BB" ++ t)%string.
Proof.
  split.
  - assert (Hcore : ∀ h,
              fold_left hash_round (list_ascii_of_string "Aa") h
              = fold_left hash_round (list_ascii_of_string "BB") h).
    { intros h. cbn [fold_left list_ascii_of_string].
      rewrite !hash_round_spec, !to_int32_mul_r.
      apply (f_equal Js.to_int32).
      change (Z.of_nat (nat_of_ascii "A")) with 65.
      change (Z.of_nat (nat_of_ascii "a")) with 97.
      change (Z.of_nat (nat_of_ascii "B")) with 66. ring. }
    unfold hashString. rewrite !list_ascii_of_string_app, !fold_left_app.
    by rewrite Hcore.
  - induction s as [| c s IH]; cbn [String.append]; [discriminate |].
    intros Heq. injection Heq as Heq. by apply IH.
Qed.

Lemma filter_none {A} (P : A → Prop) `{∀ x, Decision (P x)} (l : list A) :
  Forall (fun x => ¬ P x) l → filter P l = [].
Proof.
  induction 1 as [| x l Hx _ IH]; [done |]. by rewrite filter_cons_False.
Qed.

Lemma merge_when_not_resuming (existingPages pages : list IndexedPage) :
  mergePages false existingPages pages = pages.
Proof. done. Qed.

(** X13.  Merging the pages of a crawl a second time changes nothing. *)
Theorem merge_is_idempotent (shouldContinue : bool)
    (existingPages pages : list IndexedPage) :
  mergePages shouldContinue (mergePages shouldContinue existingPages pages) pages
  = mergePages shouldContinue existingPages pages.
Proof.
  destruct shouldContinue; [| done].
  rewrite !merge_as_append.
  set (merged := existingPages ++ filter _ pages).
  rewrite (filter_none _ pages); [by rewrite app_nil_r |].
  apply Forall_forall. intros p Hp Hfresh. apply Hfresh.
  unfold merged. rewrite map_app, elem_of_app.
  destruct (decide (url p ∈ map url existingPages)) as [Hold | Hnew];
    [by left | right].
  apply list_elem_of_fmap. exists p. split; [done |].
  by apply list_elem_of_filter.
Qed.

(** X14.  No URL is lost in a merge: the merged sequence holds a page for the
    [url] of every page of the crawl and, when resuming, of every
    existing page, and for no other. *)
Theorem merge_covers_both_page_sets (shouldContinue : bool)
    (existingPages pages : list IndexedPage) (u : string) :
  u ∈ map url (mergePages shouldContinue existingPages pages)
  ↔ u ∈ map url pages ∨ (shouldContinue = true ∧ u ∈ map url existingPages).
Proof.
  destruct shouldContinue; [| rewrite merge_when_not_resuming; naive_solver].
  rewrite merge_as_append, map_app, elem_of_app. split.
  - intros [Hold | Hnew]; [by right |]. left.
    apply list_elem_of_fmap in Hnew as (p & -> & Hp).
    apply list_elem_of_filter in Hp as [_ Hp].
    apply list_elem_of_fmap. by exists p.
  - intros [Hnew | [_ Hold]]; [| by left].
    destruct (decide (u ∈ map url existingPages)) as [Hold | Hfresh]; [by left |].
    right. apply list_elem_of_fmap in Hnew as (p & -> & Hp).
    apply list_elem_of_fmap. exists p. split; [done |].
    by apply list_elem_of_filter.
Qed.

(** ** The query service, further *)

Lemma find_by_id {A} (key : A → string) (l : list A) (i : string) :
  i ∈ map key l →
  ∃ x, List.find (fun x => String.eqb (key x) i) l = Some x ∧ x ∈ l ∧ key x = i.
Proof.
  induction l as [| a l IH]; simpl; [by intros ?%elem_of_nil |].
  destruct (String.eqb_spec (key a) i) as [Heq | Hne].
  - intros _. exists a. split; [done |]. split; [by left | done].
  - intros [? | Hin]%elem_of_cons; [congruence |].
    destruct (IH Hin) as (x & Hfind & Hx & Hkey). exists x.
    split; [done |]. split; [by right | done].
Qed.

Lemma found_is_member {A} (f : A → bool) (l : list A) (x : A) :
  List.find f l = Some x → x ∈ l ∧ f x = true.
Proof.
  intros [Hin Hf]%find_some. split; [by apply list_elem_of_In | done].
Qed.

(** X16.  A refresh that reports success leaves the server, the index and the
    disk in agreement: the index is built from exactly the pages served,
    the pages are those written to pages.json, the metadata is the one
    written to meta.json, every page is in scope, and no [id] or [url]
    occurs twice.  The code examples are not touched. *)
Theorem refresh_success_is_consistent `{UrlApi} `{Cheerio}
    (fuel : nat) (w : World) (startUrl : string) (maxPages delayMs : Z)
    (st st' : ServerState) (s s' : Sys) (payload : Json) :
  handleRefreshIndex fuel w startUrl maxPages delayMs st s
  = Some (payload, st', s') →
  field "status" payload = Some (JStr "success") →
  searchIndex st' = Some {| documents := indexedPages st' |}
  ∧ Forall allowed_page (indexedPages st')
  ∧ NoDup (map id (indexedPages st'))
  ∧ NoDup (map url (indexedPages st'))
  ∧ pages_file s' = Some (indexedPages st')
  ∧ meta_file s' = indexMeta st'
  ∧ (indexedCount <$> indexMeta st') = Some (Js.len_list (indexedPages st'))
  ∧ field "indexedCount" payload = Some (JInt (Js.len_list (indexedPages st')))
  ∧ githubExamples st' = githubExamples st
  ∧ githubSearchIndex st' = githubSearchIndex st.
Proof.
  unfold handleRefreshIndex.
  destruct (isAllowedUrl startUrl); simpl; [| by intros [= <- <- <-]].
  destruct (crawlDocumentation fuel InProcess w s startUrl maxPages delayMs)
    as [[r s1] |] eqn:Hcrawl; [| done].
  apply crawl_log in Hcrawl as (final & -> & -> & _ & _ & HI).
  destruct HI as [Hallowed _ Hurls _ _ _].
  unfold saveIndex, sys_write, buildSearchIndex.
  repeat case_match; intros; simplify_eq/=.
  repeat split; try done.
  by eapply bool_decide_eq_true_1.
Qed.

(** X17.  A refresh that reports an error never replaces the search index.
    Either it leaves the whole state of the server as it was, or the
    crawl returned two pages with one [id]: then the pages served and the
    files are replaced, and the index still describes the old pages. *)
Theorem failed_refresh_keeps_the_search_index `{UrlApi} `{Cheerio}
    (fuel : nat) (w : World) (startUrl : string) (maxPages delayMs : Z)
    (st st' : ServerState) (s s' : Sys) (payload : Json) :
  handleRefreshIndex fuel w startUrl maxPages delayMs st s
  = Some (payload, st', s') →
  field "status" payload = Some (JStr "error") →
  searchIndex st' = searchIndex st
  ∧ (st' = st
     ∨ (¬ NoDup (map id (indexedPages st'))
        ∧ NoDup (map url (indexedPages st'))
        ∧ pages_file s' = Some (indexedPages st')
        ∧ meta_file s' = indexMeta st')).
Proof.
  unfold handleRefreshIndex.
  destruct (isAllowedUrl startUrl); simpl; [| intros [= <- <- <-]; auto].
  destruct (crawlDocumentation fuel InProcess w s startUrl maxPages delayMs)
    as [[r s1] |] eqn:Hcrawl; [| done].
  apply crawl_log in Hcrawl as (final & -> & -> & _ & _ & HI).
  destruct HI as [_ _ Hurls _ _ _].
  unfold saveIndex, sys_write, buildSearchIndex.
  repeat case_match; intros; simplify_eq/=; auto.
  split; [done |]. right. split; [by eapply bool_decide_eq_false_1 | done].
Qed.

(** Every refresh returns. *)
Lemma refresh_returns `{UrlApi} `{Cheerio}
    (w : World) (startUrl : string) (maxPages delayMs : Z)
    (st : ServerState) (s : Sys) :
  ∃ fuel answer,
    handleRefreshIndex fuel w startUrl maxPages delayMs st s = Some answer.
Proof.
  destruct (crawl_returns w delayMs maxPages startUrl s InProcess)
    as (fuel & r & s1 & Hcrawl).
  exists fuel. unfold handleRefreshIndex. rewrite Hcrawl.
  repeat case_match; eauto.
Qed.

(** X18.  A successful [handleOpenTopResult] returns a page of the store that
    the scope filter accepts, whatever the store holds. *)
Theorem open_top_result_stays_in_scope `{UrlApi} `{MiniSearchApi}
    (st : ServerState) (query : string) (includeCode : bool) (maxChars : Js.number) :
  field "status" (handleOpenTopResult query includeCode maxChars st)
  = Some (JStr "success") →
  ∃ page,
    page ∈ indexedPages st
    ∧ isAllowedUrl (url page) = true
    ∧ field "url" (handleOpenTopResult query includeCode maxChars st)
      = Some (JStr (url page))
    ∧ field "title" (handleOpenTopResult query includeCode maxChars st)
      = Some (JStr (title page)).
Proof.
  unfold handleOpenTopResult.
  destruct (searchIndex st) as [index |]; [| done].
  destruct (Js.len_list (indexedPages st) =? 0); [done |].
  destruct (search_pages index query) as [| topResult others]; [done |].
  destruct (find_page st (hit_id topResult)) as [topPage |] eqn:Hfind; [| done].
  destruct (isAllowedUrl (url topPage)) eqn:Hok; [| done].
  intros _. exists topPage. apply found_is_member in Hfind as [Hin _].
  by repeat split.
Qed.

(** X19.  The size of a successful answer of [handleOpenTopResult] is bounded:
    at most 10 headings and between 1 and 3 ranked results; code blocks
    are present only when asked for, and then between 1 and 5. *)
Theorem open_top_result_payload_is_bounded `{UrlApi} `{MiniSearchApi}
    (st : ServerState) (query : string) (includeCode : bool) (maxChars : Js.number) :
  field "status" (handleOpenTopResult query includeCode maxChars st)
  = Some (JStr "success") →
  ∃ hs top3,
    field "headings" (handleOpenTopResult query includeCode maxChars st)
    = Some (JStrs hs)
    ∧ (List.length hs ≤ 10)%nat
    ∧ field "top3Results" (handleOpenTopResult query includeCode maxChars st)
      = Some (JArr top3)
    ∧ (1 ≤ List.length top3 ≤ 3)%nat
    ∧ match field "codeBlocks" (handleOpenTopResult query includeCode maxChars st) with
      | None => True
      | Some blocks =>
          includeCode = true
          ∧ ∃ cs, blocks = JStrs cs ∧ (1 ≤ List.length cs ≤ 5)%nat
      end.
Proof.
  unfold handleOpenTopResult.
  destruct (searchIndex st) as [index |]; [| done].
  destruct (Js.len_list (indexedPages st) =? 0); [done |].
  destruct (search_pages index query) as [| topResult others]; [done |].
  destruct (find_page st (hit_id topResult)) as [topPage |]; [| done].
  destruct (isAllowedUrl (url topPage)); [| done].
  intros _. simpl. eexists _, _. split; [reflexivity |].
  split; [rewrite length_take; lia |]. split; [reflexivity |].
  split; [simpl; rewrite ?length_map, ?length_take; lia |].
  destruct includeCode; simpl; [| done].
  destruct (codeBlocks topPage) as [| c cs] eqn:Hcode; simpl; [done |].
  split; [done |]. eexists. split; [reflexivity |].
  simpl. rewrite length_take. lia.
Qed.

(** X20.  After a refresh that reported success, and with a search engine
    whose hits are documents of its index, [handleOpenTopResult] answers
    every query with [success] or [no_results] (with [no_index] when the
    crawl stored no page), never with an error. *)
Theorem refreshed_server_answers_queries `{UrlApi} `{Cheerio} `{MiniSearchApi}
    (fuel : nat) (w : World) (startUrl : string) (maxPages delayMs : Z)
    (st st' : ServerState) (s s' : Sys) (payload : Json)
    (query : string) (includeCode : bool) (maxChars : Js.number) :
  (∀ index q hit,
     hit ∈ search_pages index q → hit_id hit ∈ map id (documents index)) →
  handleRefreshIndex fuel w startUrl maxPages delayMs st s
  = Some (payload, st', s') →
  field "status" payload = Some (JStr "success") →
  field "status" (handleOpenTopResult query includeCode maxChars st')
  = Some (JStr (if bool_decide (indexedPages st' = []) then "no_index"
                else if bool_decide (search_pages {| documents := indexedPages st' |}
                                       query = [])
                     then "no_results" else "success")).
Proof.
  intros Hhits Hrun Hok.
  assert (Hfacts : searchIndex st' = Some {| documents := indexedPages st' |}
                   ∧ Forall allowed_page (indexedPages st')).
  { revert Hrun Hok. unfold handleRefreshIndex.
    destruct (isAllowedUrl startUrl); simpl; [| by intros [= <- <- <-]].
    destruct (crawlDocumentation fuel InProcess w s startUrl maxPages delayMs)
      as [[r s1] |] eqn:Hcrawl; [| done].
    apply crawl_log in Hcrawl as (final & -> & -> & _ & _ & HI).
    destruct HI as [Hallowed _ _ _ _ _].
    unfold saveIndex, sys_write, buildSearchIndex.
    repeat case_match; intros; by simplify_eq/=. }
  destruct Hfacts as [Hindex Hallowed].
  unfold handleOpenTopResult. rewrite Hindex.
  destruct (indexedPages st') as [| p ps] eqn:Hpages; [done |].
  rewrite bool_decide_eq_false_2 by done.
  replace (Js.len_list (p :: ps) =? 0) with false by done.
  destruct (search_pages {| documents := p :: ps |} query)
    as [| topResult others] eqn:Hsearch; [done |].
  rewrite bool_decide_eq_false_2 by done.
  assert (Hid : hit_id topResult ∈ map id (p :: ps)).
  { apply (Hhits {| documents := p :: ps |} query). rewrite Hsearch. by left. }
  apply find_by_id in Hid as (topPage & Hfind & Hin & _).
  unfold find_page. rewrite Hpages, Hfind.
  rewrite Forall_forall in Hallowed. rewrite (Hallowed topPage Hin). done.
Qed.

Lemma slice_list_from_start {A} (l : list A) (n : Z) :
  sublist (Js.slice_list l 0 n) l
  ∧ (0 ≤ n → Js.len_list (Js.slice_list l 0 n) ≤ n).
Proof.
  unfold Js.slice_list, Js.slice_index. replace (0 <? 0) with false by done.
  rewrite Z.min_l by (unfold Js.len_list; lia).
  case_match; [| split; [apply sublist_nil_l | unfold Js.len_list; simpl; lia]].
  rewrite drop_0, Z.sub_0_r. split; [apply sublist_take |].
  intros Hn. replace (n <? 0) with false by (symmetry; apply Z.ltb_ge; lia).
  unfold Js.len_list. rewrite length_take. lia.
Qed.

Lemma length_omap_le {A B} (f : A → option B) (l : list A) :
  (List.length (omap f l) ≤ List.length l)%nat.
Proof.
  induction l as [| a l IH]; [done |].
  change (omap f (a :: l))
    with (match f a with Some b => b :: omap f l | None => omap f l end).
  destruct (f a); simpl; lia.
Qed.

(** X21.  [handleSearchExamples] returns no more examples than asked for (when
    [maxResults] is not negative) and no more than the hits that passed
    the language filter; [returnedResults] is the number of examples in
    the answer. *)
Theorem search_examples_respects_limit `{MiniSearchApi}
    (st : ServerState) (query : string) (language : option string)
    (maxResults : Z) :
  field "status" (handleSearchExamples query language maxResults st)
  = Some (JStr "success") →
  ∃ total examples,
    field "totalResults" (handleSearchExamples query language maxResults st)
    = Some (JInt total)
    ∧ field "examples" (handleSearchExamples query language maxResults st)
      = Some (JArr examples)
    ∧ field "returnedResults" (handleSearchExamples query language maxResults st)
      = Some (JInt (Js.len_list examples))
    ∧ Js.len_list examples ≤ total
    ∧ (0 ≤ maxResults → Js.len_list examples ≤ maxResults).
Proof.
  unfold handleSearchExamples.
  destruct (githubSearchIndex st) as [index |]; [| done].
  destruct (Js.len_list (githubExamples st) =? 0); [done |].
  destruct (search_examples index query) as [| hit hits]; [done |].
  intros _. simpl. eexists _, _. split; [reflexivity |].
  split; [reflexivity |]. split; [reflexivity |].
  match goal with
  | |- context [Js.slice_list ?l 0 maxResults] =>
      destruct (slice_list_from_start l maxResults) as [Hsub Hmax];
      pose proof (length_omap_le
                    (fun r : SearchResult =>
                       match find_example st (hit_id r) with
                       | Some e =>
                           Some (JObj [ ("title", JStr (GitHub.title e));
                                        ("repoName", JStr (GitHub.repoName e));
                                        ("filePath", JStr (GitHub.filePath e));
                                        ("fileUrl", JStr (GitHub.fileUrl e));
                                        ("language", JStr (GitHub.language e));
                                        ("description", JStr (GitHub.description e));
                                        ("contentPreview", JStr (GitHub.contentPreview e));
                                        ("relatedClasses", JStrs (GitHub.relatedClasses e));
                                        ("relatedMethods", JStrs (GitHub.relatedMethods e));
                                        ("score", JNum (hit_score r)) ])
                       | None => None
                       end)
                    (Js.slice_list l 0 maxResults)) as Hle;
      apply sublist_length in Hsub
  end.
  unfold Js.len_list in *. split; [lia |]. intros Hpos. specialize (Hmax Hpos). lia.
Qed.

(** X22.  With a language filter, [handleSearchExamples] returns only examples
    of that language, compared in lower case.  The filter comes after
    the test for hits: when the search has hits and none is of the
    language, the answer is still [success], with no example. *)
Theorem search_examples_filters_by_language `{MiniSearchApi}
    (st : ServerState) (index : MiniSearch GitHub.GitHubExample)
    (query lang : string) (maxResults : Z) :
  githubSearchIndex st = Some index → githubExamples st ≠ [] →
  search_examples index query ≠ [] → lang ≠ EmptyString →
  let answer := handleSearchExamples query (Some lang) maxResults st in
  let matching :=
    filter (fun r => (GitHub.language <$> find_example st (hit_id r))
                     = Some (Js.toLowerCase lang))
           (search_examples index query) in
  field "status" answer = Some (JStr "success")
  ∧ field "totalResults" answer = Some (JInt (Js.len_list matching))
  ∧ ∃ examples,
      field "examples" answer = Some (JArr examples)
      ∧ Forall (fun e => field "language" e = Some (JStr (Js.toLowerCase lang)))
               examples
      ∧ (matching = [] → examples = []).
Proof.
  intros Hindex Hstore Hhits Hlang. unfold handleSearchExamples.
  rewrite Hindex.
  destruct (githubExamples st) as [| e es] eqn:Hex; [done |].
  replace (Js.len_list (e :: es) =? 0) with false by done.
  destruct (search_examples index query) as [| hit hits] eqn:Hsearch; [done |].
  assert (Hne : nonempty lang = true).
  { unfold nonempty. apply negb_true_iff. by apply String.eqb_neq. }
  simpl. rewrite Hne. simpl. split; [done |]. split; [done |].
  eexists. split; [reflexivity |]. split.
  - apply Forall_forall. intros j Hj.
    apply list_elem_of_omap in Hj as (r & Hr & Hj).
    destruct (slice_list_from_start
                (filter (fun r => (GitHub.language <$> find_example st (hit_id r))
                                  = Some (Js.toLowerCase lang)) (hit :: hits))
                maxResults) as [Hsub _].
    eapply sublist_subseteq in Hsub. apply Hsub in Hr.
    apply list_elem_of_filter in Hr as [Hmatch _].
    unfold find_example in *. rewrite Hex in *.
    destruct (List.find _ (e :: es)) as [found |]; [| done].
    simpl in Hmatch. simplify_eq. simpl. by rewrite Hmatch.
  - intros Hnone. simpl in Hnone. rewrite Hnone.
    destruct (slice_list_from_start (@nil SearchResult) maxResults) as [Hsub _].
    apply sublist_nil_r in Hsub. by rewrite Hsub.
Qed.

(** X23.  At start-up the server serves what the files hold: the pages of
    pages.json and the metadata of meta.json, an index over exactly those
    pages when there is one, none when there is no page; likewise for
    the code examples.  Start-up fails, and the process ends, exactly
    when the pages or the examples repeat an [id]. *)
Theorem startup_serves_what_the_files_hold (s : Sys)
    (loadedExamples : list GitHub.GitHubExample)
    (loadedMeta : option GitHub.GitHubMetadata) :
  match initializeIndex s loadedExamples loadedMeta with
  | Some st =>
      indexedPages st = default [] (pages_file s)
      ∧ indexMeta st = meta_file s
      ∧ githubExamples st = loadedExamples
      ∧ searchIndex st
        = (if bool_decide (indexedPages st = []) then None
           else Some {| documents := indexedPages st |})
      ∧ githubSearchIndex st
        = (if bool_decide (loadedExamples = []) then None
           else Some {| documents := loadedExamples |})
      ∧ NoDup (map id (indexedPages st))
      ∧ NoDup (map GitHub.id loadedExamples)
  | None =>
      ¬ (NoDup (map id (default [] (pages_file s)))
         ∧ NoDup (map GitHub.id loadedExamples))
  end.
Proof.
  unfold initializeIndex, buildSearchIndex, buildGitHubIndex.
  destruct (default [] (pages_file s)) as [| p ps] eqn:Hpages;
    destruct loadedExamples as [| e es]; simpl.
  - repeat split; constructor.
  - replace (0 <? Js.len_list (e :: es)) with true by done.
    case_bool_decide as He; simpl; [| tauto].
    repeat split; try done. constructor.
  - replace (0 <? Js.len_list (p :: ps)) with true by done.
    case_bool_decide as Hp; simpl; [| tauto].
    repeat split; try done. constructor.
  - replace (0 <? Js.len_list (p :: ps)) with true by done.
    replace (0 <? Js.len_list (e :: es)) with true by done.
    case_bool_decide as Hp; simpl; [| tauto].
    case_bool_decide as He; simpl; [| tauto].
    by repeat split.
Qed.

(** ** The code-example indexer, further *)

Section WalkFacts.
Import GitHub GitHubWalk.

Lemma each_item_budget (descend : string → Z → Run (list CodeFile))
  (maxDepth currentDepth maxFiles : Z) (items : list Entry)
  (files : list CodeFile) (t : Trace) :
(∀ path budget t',
   Js.len_list (descend path budget t').1 ≤ Z.max 0 budget
   ∧ Forall code_file_ok (descend path budget t').1) →
Js.len_list files ≤ Z.max 0 maxFiles → Forall code_file_ok files →
Js.len_list (each_item descend maxDepth currentDepth maxFiles items files t).1
≤ Z.max 0 maxFiles
∧ Forall code_file_ok
    (each_item descend maxDepth currentDepth maxFiles items files t).1.
Proof.
intros Hdesc. revert files t.
induction items as [| item rest IH]; intros files t Hlen Hok; simpl; [done |].
destruct (Z.leb_spec maxFiles (Js.len_list files)) as [| Hroom]; [done |].
repeat case_match; try (by apply IH).
- apply IH.
  + unfold Js.len_list in *. rewrite length_app. simpl. lia.
  + apply Forall_app. split; [done |]. constructor; [| done].
    split; [done |]. simpl. intros ->. done.
- unfold mbind, run_bind. simpl.
  destruct (Hdesc (entry_path item) (maxFiles - Js.len_list files)
              {| requests := requests t; waited := waited t + 100 |})
    as [Hsub Hsubok].
  destruct (descend _ _ _) as [subFiles t1]. simpl in *. apply IH.
  + unfold Js.len_list in *. rewrite length_app. lia.
  + by apply Forall_app.
Qed.

Lemma findCodeFiles_budget (levels : nat) (h : Hub)
  (owner repo basePath : string) (token : option string)
  (maxDepth currentDepth maxFiles : Z) (t : Trace) :
Js.len_list
  (findCodeFiles levels h owner repo basePath token maxDepth currentDepth
     maxFiles t).1
≤ Z.max 0 maxFiles
∧ Forall code_file_ok
    (findCodeFiles levels h owner repo basePath token maxDepth currentDepth
       maxFiles t).1.
Proof.
revert basePath currentDepth maxFiles t.
induction levels as [| levels IH]; intros basePath currentDepth maxFiles t;
  simpl.
- split; [unfold Js.len_list; simpl; lia | done].
- destruct (maxDepth <? currentDepth);
    [split; [unfold Js.len_list; simpl; lia | done] |].
  unfold mbind, run_bind.
  destruct (listRepoContents h owner repo basePath token t) as [contents t1].
  apply each_item_budget; [| unfold Js.len_list; simpl; lia | done].
  intros path budget t'. apply IH.
Qed.

(** X24.  [findCodeFiles] with a positive limit [maxFiles], whole or not,
  returns fewer than [maxFiles + 1] files, those of the sub-directories
  counted in (three for a limit of 2.5), and none for a limit of zero or
  less; each file has the name of a code file, in any letter case, and a
  download URL. *)
Theorem findCodeFiles_respects_budget (levels : nat) (h : Hub)
  (owner repo basePath : string) (token : option string)
  (maxDepth currentDepth : Z) (limit : Q) (t : Trace) :
let maxFiles := whole_limit limit in
let files :=
  (findCodeFiles levels h owner repo basePath token maxDepth currentDepth
     maxFiles t).1 in
within_limit limit (Js.len_list files) ∧ Forall code_file_ok files.
Proof.
intros maxFiles files.
destruct (findCodeFiles_budget levels h owner repo basePath token maxDepth
            currentDepth maxFiles t) as [Hlen Hok].
split; [| exact Hok].
apply count_within_limit; [unfold Js.len_list; lia | exact Hlen].
Qed.

Lemma each_item_requests (P : Request → Prop)
  (descend : string → Z → Run (list CodeFile))
  (maxDepth currentDepth maxFiles : Z) (items : list Entry)
  (files : list CodeFile) (t : Trace) :
(∀ path budget t',
   dir_name path ∉ SKIPPED_DIRS →
   ∃ new, requests (descend path budget t').2 = requests t' ++ new
          ∧ Forall P new) →
∃ new,
  requests (each_item descend maxDepth currentDepth maxFiles items files t).2
  = requests t ++ new
  ∧ Forall P new.
Proof.
intros Hdesc. revert files t.
induction items as [| item rest IH]; intros files t; simpl.
- exists []. by rewrite app_nil_r.
- repeat case_match; try apply IH.
  + exists []. by rewrite app_nil_r.
  + unfold mbind, run_bind. simpl.
    match goal with
    | Hskip : bool_decide _ = false |- _ =>
        apply bool_decide_eq_false in Hskip;
        destruct (Hdesc (entry_path item) (maxFiles - Js.len_list files)
                    {| requests := requests t; waited := waited t + 100 |} Hskip)
          as (new1 & Hreq1 & Hnew1)
    end.
    destruct (descend _ _ _) as [subFiles t1]. simpl in *.
    destruct (IH (files ++ subFiles) t1) as (new2 & Hreq2 & Hnew2).
    exists (new1 ++ new2). rewrite Hreq2, Hreq1, <- app_assoc.
    split; [done | by apply Forall_app].
Qed.

(** X25.  [findCodeFiles] only lists directories, and never one of the skipped
  names ([bin], [obj], [node_modules], ...), in any letter case, unless
  it is the directory it was called on. *)
Theorem findCodeFiles_skips_build_directories (levels : nat) (h : Hub)
  (owner repo basePath : string) (token : option string)
  (maxDepth currentDepth maxFiles : Z) (t : Trace) :
∃ new,
  requests (findCodeFiles levels h owner repo basePath token maxDepth
              currentDepth maxFiles t).2
  = requests t ++ new
  ∧ Forall (lists_from owner repo basePath) new.
Proof.
revert basePath currentDepth maxFiles t.
induction levels as [| levels IH]; intros basePath currentDepth maxFiles t;
  simpl.
- exists []. by rewrite app_nil_r.
- destruct (maxDepth <? currentDepth); [exists []; by rewrite app_nil_r |].
  unfold mbind, run_bind, listRepoContents, ask. simpl.
  match goal with
  | |- context [each_item ?d ?a ?b ?c ?items ?files ?tr] =>
      destruct (each_item_requests (lists_from owner repo basePath)
                  d a b c items files tr) as (new & Hreq & Hnew)
  end.
  + intros path budget t' Hgood.
    destruct (IH path (currentDepth + 1) budget t') as (new & Hreq & Hnew).
    exists new. split; [done |].
    eapply Forall_impl; [exact Hnew |].
    intros q (p & Hq & Hp). exists p. split; [done |].
    destruct Hp as [-> | Hp]; auto.
  + exists (ListContents owner repo basePath :: new).
    rewrite Hreq. simpl. rewrite <- app_assoc. split; [done |].
    constructor; [| done]. exists basePath. auto.
Qed.

End WalkFacts.

Lemma counted_refl (maxFiles : Z) (acc : list GitHub.GitHubExample * Z) :
  counted maxFiles acc acc.
Proof. unfold counted. lia. Qed.

Lemma counted_trans (maxFiles : Z) (a b c : list GitHub.GitHubExample * Z) :
  counted maxFiles a b → counted maxFiles b c → counted maxFiles a c.
Proof. unfold counted. lia. Qed.

Lemma counted_push (maxFiles : Z) (acc : list GitHub.GitHubExample * Z)
    (ex : GitHub.GitHubExample) :
  Js.len_list acc.1 < maxFiles →
  counted maxFiles acc (acc.1 ++ [ex], acc.2 + 1).
Proof.
  unfold counted, Js.len_list. simpl. rewrite length_app. simpl. lia.
Qed.

Lemma files_counted_app (l1 l2 : list GitHub.RepoCount) :
  files_counted (l1 ++ l2) = files_counted l1 + files_counted l2.
Proof.
  unfold files_counted. induction l1 as [| c l1 IH]; simpl; [done |].
  rewrite IH. lia.
Qed.

Lemma tallied_step (maxFiles : Z)
    (acc : list GitHub.GitHubExample * list GitHub.RepoCount)
    (done_ : list GitHub.GitHubExample * Z) (entry : Z → GitHub.RepoCount)
    (r : list GitHub.GitHubExample * list GitHub.RepoCount) :
  (∀ n, GitHub.filesIndexed (entry n) = n) →
  counted maxFiles (acc.1, 0) done_ →
  tallied maxFiles
    (done_.1, if 0 <? done_.2 then acc.2 ++ [entry done_.2] else acc.2) r →
  tallied maxFiles acc r.
Proof.
  intros Hentry (Hcount & Hpos & Hmax) (Hsum & Hall & Hlen). simpl in *.
  destruct (Z.ltb_spec 0 done_.2) as [Hsome | Hnone].
  - rewrite files_counted_app in Hsum. unfold files_counted at 3 in Hsum.
    simpl in Hsum. rewrite Hentry in Hsum.
    split; [lia |]. split; [| lia].
    intros Hacc. apply Hall, Forall_app. split; [done |].
    constructor; [by rewrite Hentry | done].
  - split; [lia |]. split; [done | lia].
Qed.

Section WalkCounts.
Import GitHub GitHubWalk.

Lemma walk_each_file_counted (h : Hub) (maxFiles : Z) (token : option string)
  (delayMs : Z) (owner repo : string) (files : list CodeFile)
  (acc : list GitHubExample * Z) (t : Trace) :
counted maxFiles acc
  (each_file h maxFiles token delayMs owner repo files acc t).1.
Proof.
revert acc t. induction files as [| file files IH]; intros acc t; simpl;
  [apply counted_refl |].
destruct (Z.leb_spec maxFiles (Js.len_list acc.1)) as [| Hroom];
  [apply counted_refl |].
unfold mbind, run_bind.
destruct (indexFile h owner repo (file_path file) (file_download_url file)
            token t) as [[ex |] t']; simpl.
- eapply counted_trans; [by apply (counted_push maxFiles acc ex) | apply IH].
- apply IH.
Qed.

#[local] Opaque GitHubWalk.findCodeFiles GitHubWalk.each_file.

Lemma walk_each_path_counted (h : Hub) (maxFiles : Z) (token : option string)
  (delayMs : Z) (owner repo : string) (basePaths : list string)
  (acc : list GitHubExample * Z) (t : Trace) :
counted maxFiles acc
  (each_path h maxFiles token delayMs owner repo basePaths acc t).1.
Proof.
revert acc t. induction basePaths as [| basePath rest IH]; intros acc t; simpl;
  [apply counted_refl |].
destruct (maxFiles <=? Js.len_list acc.1); [apply counted_refl |].
unfold mbind, run_bind.
match goal with
| |- context [findCodeFiles ?a ?b ?c ?d ?e ?f ?g ?i ?j ?tr] =>
    destruct (findCodeFiles a b c d e f g i j tr) as [files t1]
end.
pose proof (walk_each_file_counted h maxFiles token delayMs owner repo files
              acc t1) as Hfiles.
destruct (each_file h maxFiles token delayMs owner repo files acc t1)
  as [acc' t2].
eapply counted_trans; [exact Hfiles | apply IH].
Qed.

#[local] Opaque GitHubWalk.each_path.

Lemma walk_each_repo_tallied (h : Hub) (maxFiles : Z) (token : option string)
  (delayMs : Z) (rs : list Repo)
  (acc : list GitHubExample * list RepoCount) (t : Trace) :
tallied maxFiles acc (each_repo h maxFiles token delayMs rs acc t).1.
Proof.
revert acc t. induction rs as [| r rest IH]; intros acc t; simpl.
- unfold tallied. split; [lia |]. split; [done | lia].
- destruct (maxFiles <=? Js.len_list acc.1).
  { unfold tallied. simpl. split; [lia |]. split; [done | lia]. }
  unfold mbind, run_bind.
  match goal with
  | |- context [each_path ?h ?m ?tk ?d ?o ?rp ?ps ?a ?tr] =>
      pose proof (walk_each_path_counted h m tk d o rp ps a tr) as Hpaths;
      destruct (each_path h m tk d o rp ps a tr) as [done_ t1]
  end.
  simpl.
  eapply (tallied_step maxFiles acc done_
            (fun n => {| name := owner r ++ "/" ++ repo r;
                         url := "https://github.com/" ++ owner r ++ "/" ++ repo r;
                         filesIndexed := n |}));
    [done | exact Hpaths | apply IH].
Qed.

#[local] Opaque GitHubWalk.each_repo.

Lemma walk_run_counts (h : Hub) (options : Options) (t : Trace) :
counts_examples options (GitHubWalk.crawlGitHubExamples h options t).1.
Proof.
unfold counts_examples, GitHubWalk.crawlGitHubExamples, clock.
unfold mbind, run_bind.
match goal with
| |- context [each_repo ?h ?m ?tk ?d ?rs ?a ?tr] =>
    pose proof (walk_each_repo_tallied h m tk d rs a tr) as (Hsum & Hpos & Hmax);
    destruct (each_repo h m tk d rs a tr) as [r t1]
end.
simpl in *. change (files_counted []) with 0 in Hsum.
unfold Js.len_list in *. simpl in *.
split; [lia |]. split; [done |]. split; [by apply Hpos | lia].
Qed.

End WalkCounts.

Section SearchCounts.
Import GitHub GitHubSearch.

Lemma search_each_file_counted (h : Hub) (maxFiles : Z) (token : option string)
  (delayMs : Z) (owner repo : string) (files : list SearchItem)
  (acc : list GitHubExample * Z) (t : Trace) :
counted maxFiles acc
  (each_file h maxFiles token delayMs owner repo files acc t).1.
Proof.
revert acc t. induction files as [| file files IH]; intros acc t; simpl;
  [apply counted_refl |].
destruct (Z.leb_spec maxFiles (Js.len_list acc.1)) as [| Hroom];
  [apply counted_refl |].
unfold mbind, run_bind.
destruct (indexFile h owner repo (item_path file) (item_url file) token t)
  as [[ex |] t']; simpl.
- eapply counted_trans; [by apply (counted_push maxFiles acc ex) | apply IH].
- apply IH.
Qed.

Lemma search_each_language_counted (h : Hub) (maxFiles : Z)
  (token : option string) (delayMs : Z) (owner repo : string)
  (langs : list string) (acc : list GitHubExample * Z) (t : Trace) :
counted maxFiles acc
  (each_language h maxFiles token delayMs owner repo langs acc t).1.
Proof.
revert acc t. induction langs as [| lang langs IH]; intros acc t; simpl;
  [apply counted_refl |].
destruct (maxFiles <=? Js.len_list acc.1); [apply counted_refl |].
unfold mbind, run_bind.
destruct (searchRepoFiles h owner repo lang token 30 t) as [files t1].
pose proof (search_each_file_counted h maxFiles token delayMs owner repo files
              acc t1) as Hfiles.
destruct (each_file h maxFiles token delayMs owner repo files acc t1)
  as [acc' t2].
eapply counted_trans; [exact Hfiles | apply IH].
Qed.

#[local] Opaque GitHubSearch.each_language.

Lemma search_each_repo_tallied (h : Hub) (maxFiles : Z) (token : option string)
  (delayMs : Z) (repoPaths : list string)
  (acc : list GitHubExample * list RepoCount) (t : Trace) :
tallied maxFiles acc (each_repo h maxFiles token delayMs repoPaths acc t).1.
Proof.
revert acc t. induction repoPaths as [| repoPath rest IH]; intros acc t; simpl.
- unfold tallied. split; [lia |]. split; [done | lia].
- unfold mbind, run_bind.
  match goal with
  | |- context [each_language ?h ?m ?tk ?d ?o ?r ?ls ?a ?tr] =>
      pose proof (search_each_language_counted h m tk d o r ls a tr) as Hlang;
      destruct (each_language h m tk d o r ls a tr) as [done_ t1]
  end.
  simpl.
  match goal with
  | |- context [{| name := ?n; url := ?u; filesIndexed := _ |}] =>
      eapply (tallied_step maxFiles acc done_
                (fun k => {| name := n; url := u; filesIndexed := k |}));
        [done | exact Hlang | apply IH]
  end.
Qed.

#[local] Opaque GitHubSearch.each_repo.

Lemma search_run_counts (h : Hub) (options : Options) (t : Trace) :
counts_examples options (GitHubSearch.crawlGitHubExamples h options t).1.
Proof.
unfold counts_examples, GitHubSearch.crawlGitHubExamples, clock.
unfold mbind, run_bind.
match goal with
| |- context [each_repo ?h ?m ?tk ?d ?rs ?a ?tr] =>
    pose proof (search_each_repo_tallied h m tk d rs a tr) as (Hsum & Hpos & Hmax);
    destruct (each_repo h m tk d rs a tr) as [r t1]
end.
simpl in *. change (files_counted []) with 0 in Hsum.
unfold Js.len_list in *. simpl in *.
split; [lia |]. split; [done |]. split; [by apply Hpos | lia].
Qed.

End SearchCounts.

Lemma counts_with_limit (limit : option Q) (token : option string)
    (delay : option Z)
    (r : list GitHub.GitHubExample * GitHub.GitHubMetadata) :
  counts_examples {| GitHub.maxFiles := whole_limit <$> limit;
                     GitHub.githubToken := token;
                     GitHub.delayMs := delay |} r →
  counts_itself (default 100%Q limit) r.
Proof.
  intros (Hmax & Hrest). split; [| exact Hrest].
  apply count_within_limit; [unfold Js.len_list; lia |].
  by destruct limit.
Qed.

(** X26.  A run of the indexer, in either revision, with a positive limit
    [maxFiles], whole or not (100 when none is given), stores fewer than
    [maxFiles + 1] examples, and none for a limit of zero or less.  The
    metadata it returns counts them: [totalExamples] is their number,
    every repository listed has a positive count, and the counts add up
    to [totalExamples]. *)
Theorem metadata_counts_the_examples (h : GitHub.Hub) (limit : option Q)
    (token : option string) (delay : option Z) (t : GitHub.Trace) :
  let options := {| GitHub.maxFiles := whole_limit <$> limit;
                    GitHub.githubToken := token;
                    GitHub.delayMs := delay |} in
  counts_itself (default 100%Q limit)
    (GitHubSearch.crawlGitHubExamples h options t).1
  ∧ counts_itself (default 100%Q limit)
      (GitHubWalk.crawlGitHubExamples h options t).1.
Proof.
  intros options.
  split; apply (counts_with_limit limit token delay);
    [apply search_run_counts | apply walk_run_counts].
Qed.

Lemma language_of_tag (filePath : string) :
  GitHub.language_of filePath ∈ ["csharp"; "aspx"; "ascx"].
Proof.
  unfold GitHub.language_of.
  destruct (Js.endsWith filePath ".ascx"); [set_solver |].
  destruct (Js.endsWith filePath ".aspx"); set_solver.
Qed.

Lemma js_substring_nonempty (s : string) (n : Z) :
  0 < Js.len s → 0 < n → Js.substring s 0 n ≠ EmptyString.
Proof.
  intros Hs Hn. unfold Js.substring, Js.clamp.
  destruct s as [| c s]; [unfold Js.len in Hs; simpl in Hs; lia |].
  set (L := Js.len (String c s)) in *.
  replace (Z.min (Z.max 0 (Z.min 0 L)) (Z.max 0 (Z.min n L))) with 0 by lia.
  replace (Z.max (Z.max 0 (Z.min 0 L)) (Z.max 0 (Z.min n L)) - 0)
    with (Z.min n L) by lia.
  destruct (Z.to_nat (Z.min n L)) as [| k] eqn:Hk; [lia | done].
Qed.

Lemma len_take_le {A} (n : nat) (l : list A) :
  Js.len_list (take n l) ≤ Z.of_nat n.
Proof. unfold Js.len_list. rewrite length_take. lia. Qed.

Lemma walk_bounded (e : GitHub.GitHubExample) (file_text : string) :
  walk_indexed e file_text → bounded_example 15 300 e.
Proof.
  intros (owner & repo & filePath & time & He).
  unfold GitHubWalk.index_content in He.
  destruct (_ || _); [done |].
  destruct (GitHubWalk.extractMetadata file_text) as [classes methods].
  simplify_eq. unfold bounded_example. simpl.
  split; [done |]. split; [apply language_of_tag |]. split; [done |].
  split; [by apply js_substring_capped |].
  split; [apply (len_take_le 15) |]. split; [apply (len_take_le 15) |].
  unfold GitHubWalk.extractDescription. by apply js_substring_capped.
Qed.

Lemma search_bounded (e : GitHub.GitHubExample) (file_text : string) :
  search_indexed e file_text →
  bounded_example 10 200 e ∧ GitHub.description e ≠ EmptyString.
Proof.
  intros (owner & repo & filePath & fileUrl & time & He).
  unfold GitHubSearch.index_content in He.
  destruct (Z.eqb_spec (Js.len file_text) 0) as [| Hlen]; [done |].
  destruct (GitHubSearch.extractMetadata file_text) as [classes methods].
  simplify_eq. unfold bounded_example. simpl.
  assert (Hpos : 0 < Js.len file_text) by (unfold Js.len in *; lia).
  split.
  - split; [done |]. split; [apply language_of_tag |]. split; [done |].
    split; [by apply js_substring_capped |].
    split; [apply (len_take_le 10) |]. split; [apply (len_take_le 10) |].
    unfold GitHubSearch.extractDescription.
    destruct (nonempty _); by apply js_substring_capped.
  - unfold GitHubSearch.extractDescription.
    destruct (nonempty _) eqn:Hshort.
    + intros Hempty. rewrite Hempty in Hshort. done.
    + by apply js_substring_nonempty.
Qed.

(** X27.  Every example a run stores is a code file in one of the three
    languages, and its preview is the first 500 characters of its
    content.  In the search revision it lists at most 10 classes and 10
    methods, and its description has at most 200 characters and is not
    empty (a file without comment lines is described by its first 200
    characters).  In the tree walk it lists at most 15 classes and 15
    methods and its description has at most 300 characters. *)
Theorem stored_examples_are_bounded (h : GitHub.Hub) (options : GitHub.Options)
    (t : GitHub.Trace) :
  Forall (fun e => bounded_example 10 200 e ∧ GitHub.description e ≠ EmptyString)
         (GitHubSearch.crawlGitHubExamples h options t).1.1
  ∧ Forall (bounded_example 15 300)
           (GitHubWalk.crawlGitHubExamples h options t).1.1.
Proof.
  split.
  - apply search_examples_indexed. apply search_bounded.
  - apply walk_examples_indexed. apply walk_bounded.
Qed.

(** ** Snippets and tool calls *)

Lemma string_length_app (s t : string) :
  String.length (s ++ t) = (String.length s + String.length t)%nat.
Proof. induction s as [| c s IH]; simpl; [done | by rewrite IH]. Qed.

(** X28.  A snippet of at least three characters is never longer than asked
    for: [createSnippet] returns the cleaned text when it fits and
    otherwise exactly [maxLength] characters that end in three dots. *)
Theorem snippet_fits (text : string) (maxLength : Z) :
  3 ≤ maxLength →
  let cleaned := Js.trim (Js.collapse_spaces text) in
  Js.len (createSnippet text maxLength) ≤ maxLength
  ∧ (Js.len cleaned ≤ maxLength → createSnippet text maxLength = cleaned)
  ∧ (maxLength < Js.len cleaned →
     Js.len (createSnippet text maxLength) = maxLength
     ∧ createSnippet text maxLength
       = (String.substring 0 (Z.to_nat (maxLength - 3)) cleaned ++ "...")%string).
Proof.
  intros Hmin cleaned. unfold createSnippet. fold cleaned.
  destruct (Z.leb_spec (Js.len cleaned) maxLength) as [Hfit | Hlong].
  - split; [done |]. split; [done | lia].
  - assert (Hcut : Js.slice cleaned 0 (maxLength - 3)
                   = String.substring 0 (Z.to_nat (maxLength - 3)) cleaned).
    { destruct (Z.eq_dec maxLength 3) as [-> | Hmore].
      - simpl. unfold Js.slice, Js.slice_index. simpl.
        rewrite Z.min_l by (unfold Js.len; lia). simpl.
        by destruct cleaned.
      - apply js_slice_prefix; lia. }
    assert (Hlen : Js.len (Js.slice cleaned 0 (maxLength - 3) ++ "...")
                   = maxLength).
    { rewrite Hcut. unfold Js.len in *. rewrite string_length_app.
      rewrite substring_length_exact by lia. simpl. lia. }
    split; [lia |]. split; [lia |]. intros _. split; [done | by rewrite Hcut].
Qed.

(** X29.  [handleRefreshGitHub] always runs the crawl and then saves once; it
    never touches the documentation.  When it reports success the
    examples served are those of the crawl, the index is built from
    exactly them, no [id] occurs twice, and the counts reported agree.
    When it reports an error the index of the examples is the old one;
    the examples served are the old ones too, unless the crawl returned
    two examples with one [id]. *)
Theorem github_refresh_is_consistent (g : CrawlerModule)
    (maxFiles : Z) (githubToken : option string) (delayMs : Z)
    (m m' : Machine) (payload : Json) :
  handleRefreshGitHub g maxFiles githubToken delayMs m = (payload, m') →
  let run :=
    crawl_examples g
      {| GitHub.maxFiles := Some maxFiles;
         GitHub.githubToken := githubToken;
         GitHub.delayMs := Some delayMs |} (github m) in
  let examples := run.1.1 in
  let meta := run.1.2 in
  github m' = run.2
  ∧ (disk m', code_disk m')
    = (save_examples g examples meta (disk m) (code_disk m)).1
  ∧ indexedPages (server m') = indexedPages (server m)
  ∧ searchIndex (server m') = searchIndex (server m)
  ∧ indexMeta (server m') = indexMeta (server m)
  ∧ (field "status" payload = Some (JStr "success") →
     githubExamples (server m') = examples
     ∧ githubSearchIndex (server m') = Some {| documents := examples |}
     ∧ NoDup (map GitHub.id examples)
     ∧ githubMeta (server m')
       = Some (GitHub.totalExamples meta, GitHub.lastRefresh meta)
     ∧ field "totalExamples" payload = Some (JInt (Js.len_list examples)))
  ∧ (field "status" payload = Some (JStr "error") →
     githubSearchIndex (server m') = githubSearchIndex (server m)
     ∧ (server m' = server m
        ∨ (githubExamples (server m') = examples
           ∧ ¬ NoDup (map GitHub.id examples)))).
Proof.
  unfold handleRefreshGitHub.
  destruct (crawl_examples g _ (github m)) as [[examples meta] t]. simpl.
  destruct (save_examples g examples meta (disk m) (code_disk m))
    as [[s d] saved]. simpl.
  unfold buildGitHubIndex.
  destruct saved; [case_bool_decide as Hids |]; intros [= <- <-]; simpl.
  - repeat split; try done.
  - repeat split; try done. right. by split.
  - repeat split; try done. by left.
Qed.

Lemma in_names (l : list string) (x : string) :
  x ∈ l ↔ existsb (String.eqb x) l = true.
Proof.
  induction l as [| a l IH]; simpl.
  - rewrite elem_of_nil. split; [done | discriminate].
  - rewrite elem_of_cons, orb_true_iff, IH, String.eqb_eq. tauto.
Qed.

(** X30.  A tool call is flagged as an error only for a tool name that is not
    known and for a query tool called without a (non-empty) query.  A
    flagged call changes nothing.  The errors the handlers report
    themselves (a start URL out of scope, a failed save) come without the
    flag. *)
Theorem only_protocol_errors_are_flagged `{UrlApi} `{Cheerio} `{MiniSearchApi}
    (fuel : nat) (w : World) (g : CrawlerModule) (name : string)
    (args : ToolArgs) (m m' : Machine) (result : ToolResult) :
  callTool fuel w g name args m = Some (result, m') →
  (isError result = true
   ↔ name ∉ TOOL_NAMES
     ∨ (name ∈ QUERY_TOOLS ∧ truthy (arg_query args) = None))
  ∧ (isError result = true →
     m' = m ∧ field "status" (result_text result) = Some (JStr "error")).
Proof.
  unfold callTool. rewrite !in_names. unfold TOOL_NAMES, QUERY_TOOLS.
  cbn [existsb app].
  destruct (String.eqb_spec name "devexpress_bootstrap_status") as [-> | _].
  { intros [= <- <-]; cbn.
    split; [split; [done | intros [? | [? ?]]; done] | done]. }
  destruct (String.eqb_spec name "devexpress_bootstrap_refresh_index") as [-> | _].
  { destruct (handleRefreshIndex _ _ _ _ _ _ _) as [[[text st] s] |]; [| done].
    intros [= <- <-]; cbn.
    split; [split; [done | intros [? | [? ?]]; done] | done]. }
  destruct (String.eqb_spec name "devexpress_bootstrap_open_top_result") as [-> | _].
  { cbn. destruct (truthy (arg_query args)); intros [= <- <-]; cbn.
    - split; [split; [done | intros [? | [? ?]]; done] | done].
    - split; [split; [by right | done] | done]. }
  destruct (String.eqb_spec name "devexpress_bootstrap_open_to") as [-> | _].
  { cbn. destruct (truthy (arg_query args)); intros [= <- <-]; cbn.
    - split; [split; [done | intros [? | [? ?]]; done] | done].
    - split; [split; [by right | done] | done]. }
  cbn [orb].
  destruct (String.eqb_spec name "devexpress_bootstrap_refresh_github") as [-> | _].
  { destruct (handleRefreshGitHub _ _ _ _ _) as [text m1].
    intros [= <- <-]; cbn.
    split; [split; [done | intros [? | [? ?]]; done] | done]. }
  destruct (String.eqb_spec name "devexpress_bootstrap_search_examples") as [-> | _].
  { cbn. destruct (truthy (arg_query args)); intros [= <- <-]; cbn.
    - split; [split; [done | intros [? | [? ?]]; done] | done].
    - split; [split; [by right | done] | done]. }
  intros [= <- <-]; cbn. split; [split; [by left | done] | done].
Qed.

(** * Further sample runs *)

Section ReplayRuns.
Import Sample Runs Replay.
#[local] Existing Instance PlainUrl.api.
#[local] Existing Instance Sample.link_pages.
#[local] Existing Instance Sample.substring_search.

Lemma small_crawl_run :
crawlDocumentation 30 InProcess small_site sys0 (doc "page1") 800 200
= Some (small_crawl.1, small_crawl.2).
Proof. vm_compute. reflexivity. Qed.

Lemma outage_crawl_run :
crawlDocumentation 30 (Standalone cli0) outage sys0 DEFAULT_START_URL 800 200
= Some (outage_crawl.1, outage_crawl.2).
Proof. vm_compute. reflexivity. Qed.

Lemma chain_crawl_run :
crawlDocumentation 100 (Standalone chain_cli) chain sys0 (chain_page 0) 800 0
= Some (chain_crawl.1, chain_crawl.2).
Proof. vm_compute. reflexivity. Qed.

Lemma chain_cut_run :
crawlDocumentation 100 InProcess chain sys0 (chain_page 0)
  (whole_limit (5 # 2)) 0
= Some (chain_cut.1, chain_cut.2).
Proof. vm_compute. reflexivity. Qed.

Lemma small_refresh_run :
handleRefreshIndex 30 small_site (doc "page1") 800 200 one_page_server sys0
= Some (small_refresh.1.1, small_refresh.1.2, small_refresh.2).
Proof. vm_compute. reflexivity. Qed.

Lemma twins_refresh_run :
handleRefreshIndex 30 twins (doc "Aa") 800 200 one_page_server sys0
= Some (twins_refresh.1.1, twins_refresh.1.2, twins_refresh.2).
Proof. vm_compute. reflexivity. Qed.



Lemma crawl_pages_follow_the_requests_sample :
map url (r_pages outage_crawl.1) = [DEFAULT_START_URL]
∧ sublist (map url (r_pages outage_crawl.1)) (requests_of sys0 outage_crawl.2).
Proof.
destruct (crawl_pages_follow_the_requests (Standalone cli0) outage sys0
            DEFAULT_START_URL 800 200) as [_ Hall].
destruct (Hall 30%nat outage_crawl.1 outage_crawl.2 outage_crawl_run)
  as (Hsub & _).
split; [vm_compute; reflexivity | exact Hsub].
Defined.

(** On the site with the outage: one page, ten failures, eleven
  requests. *)
Lemma crawl_accounts_for_every_request_sample :
Js.len_list (r_pages outage_crawl.1) = 1
∧ r_failures outage_crawl.1 = 10
∧ Js.len_list (requests_of sys0 outage_crawl.2)
  = Js.len_list (r_pages outage_crawl.1) + r_failures outage_crawl.1.
Proof.
destruct (crawl_accounts_for_every_request (Standalone cli0) outage sys0
            DEFAULT_START_URL 800 200) as [_ Hall].
destruct (Hall 30%nat outage_crawl.1 outage_crawl.2 outage_crawl_run)
  as (_ & _ & Hexact).
split; [vm_compute; reflexivity |]. split; [vm_compute; reflexivity |].
apply Hexact. right. intros n. reflexivity.
Defined.

(** The chain crawled with a page limit of 2.5: three pages. *)
Lemma crawl_respects_page_limit_sample :
map url (r_pages chain_cut.1) = [chain_page 0; chain_page 1; chain_page 2]
∧ within_limit (5 # 2) (Js.len_list (r_pages chain_cut.1)).
Proof.
destruct (crawl_respects_page_limit InProcess chain sys0 (chain_page 0)
            (5 # 2) 0) as [_ Hall].
destruct (Hall 100%nat chain_cut.1 chain_cut.2 chain_cut_run) as (Hmax & _).
split; [vm_compute; reflexivity | exact Hmax].
Defined.

(** The crawl of the small site sleeps twice 200 ms, once after each of
  its two pages. *)
Lemma crawl_pauses_between_pages_sample :
slept small_crawl.2 = 400
∧ ∃ naps,
    slept small_crawl.2 = slept sys0 + Z.max 0 200 * naps
    ∧ Js.len_list (r_pages small_crawl.1) - 1 ≤ naps
      ≤ Js.len_list (requests_of sys0 small_crawl.2).
Proof.
destruct (crawl_pauses_between_pages InProcess small_site sys0
            (doc "page1") 800 200) as [_ Hall].
destruct (Hall 30%nat small_crawl.1 small_crawl.2 small_crawl_run)
  as (Hnaps & _).
split; [vm_compute; reflexivity | exact Hnaps].
Defined.

(** The stand-alone crawler pointed at the root of the documentation,
  which is out of scope once normalised, replaces an index of one page
  by an empty one. *)
Lemma main_out_of_scope_start_saves_no_new_page_sample :
pages_file old_disk = Some [grid_page]
∧ ∃ s',
    main_docs 5 small_site root_cli old_disk = Some (s', true)
    ∧ fetched s' = fetched old_disk
    ∧ pages_file s' = Some [].
Proof.
split; [reflexivity |].
apply (main_out_of_scope_start_saves_no_new_page 5 small_site root_cli true
         old_disk).
- vm_compute. reflexivity.
- vm_compute. reflexivity.
- lia.
- reflexivity.
- reflexivity.
Defined.

(** After the chain of sixty pages, pages.json holds the first fifty. *)
Lemma progress_file_is_a_prefix_of_the_crawl_sample :
pages_file chain_crawl.2 = Some (take 50 (r_pages chain_crawl.1))
∧ ((pages_file chain_crawl.2 = pages_file sys0
    ∧ meta_file chain_crawl.2 = meta_file sys0)
   ∨ ∃ n : nat,
       (0 < n ≤ List.length (r_pages chain_crawl.1))%nat
       ∧ Z.of_nat n mod 50 = 0
       ∧ pages_file chain_crawl.2 = Some (take n (r_pages chain_crawl.1))
       ∧ (meta_file chain_crawl.2 = meta_file sys0
          ∨ ∃ m, meta_file chain_crawl.2 = Some m
                 ∧ 0 < indexedCount m ≤ Z.of_nat n
                 ∧ indexedCount m mod 50 = 0)).
Proof.
destruct (progress_file_is_a_prefix_of_the_crawl chain_cli chain sys0
            (chain_page 0) 800 0) as (_ & _ & Hall).
split; [vm_compute; reflexivity |].
exact (Hall 100%nat chain_crawl.1 chain_crawl.2 chain_crawl_run).
Defined.

Lemma in_process_crawl_writes_no_file_sample :
write_attempts small_crawl.2 = write_attempts sys0
∧ pages_file small_crawl.2 = pages_file sys0
∧ meta_file small_crawl.2 = meta_file sys0.
Proof.
destruct (in_process_crawl_writes_no_file small_site sys0 (doc "page1") 800 200)
  as [_ Hall].
exact (Hall 30%nat small_crawl.1 small_crawl.2 small_crawl_run).
Defined.

(** A resumed run on the small site keeps the page of the earlier run
  and adds the two it crawled. *)
Lemma resumed_index_has_distinct_urls_sample :
option_map (map url) (pages_file resumed_disk)
= Some [doc "grid"; doc "page1"; doc "page2"]
∧ ∃ newPages,
    pages_file resumed_disk = Some (loadExisting resume_cli old_disk ++ newPages)
    ∧ NoDup (map url (loadExisting resume_cli old_disk ++ newPages)).
Proof.
split; [vm_compute; reflexivity |].
apply (resumed_index_has_distinct_urls 30 small_site resume_cli old_disk
         resumed_disk).
- reflexivity.
- apply (bool_decide_unpack _). vm_compute. exact I.
- vm_compute. reflexivity.
Defined.

Lemma refresh_success_is_consistent_sample :
map url (indexedPages small_refresh.1.2) = [doc "page1"; doc "page2"]
∧ searchIndex small_refresh.1.2
  = Some {| documents := indexedPages small_refresh.1.2 |}
∧ pages_file small_refresh.2 = Some (indexedPages small_refresh.1.2).
Proof.
destruct (refresh_success_is_consistent 30 small_site (doc "page1") 800 200
            one_page_server small_refresh.1.2 sys0 small_refresh.2
            small_refresh.1.1 small_refresh_run)
  as (Hindex & _ & _ & _ & Hfile & _).
- vm_compute. reflexivity.
- split; [vm_compute; reflexivity |]. split; [exact Hindex | exact Hfile].
Defined.

(** The two pages [Aa] and [BB] get one [id]: the refresh reports an
  error, serves the two new pages and keeps the index of the old one. *)
Lemma failed_refresh_keeps_the_search_index_sample :
map url (indexedPages twins_refresh.1.2) = [doc "Aa"; doc "BB"]
∧ map id (indexedPages twins_refresh.1.2) = ["dhb11f"; "dhb11f"]
∧ searchIndex twins_refresh.1.2 = Some {| documents := [grid_page] |}
∧ searchIndex twins_refresh.1.2 = searchIndex one_page_server.
Proof.
destruct (failed_refresh_keeps_the_search_index 30 twins (doc "Aa") 800 200
            one_page_server twins_refresh.1.2 sys0 twins_refresh.2
            twins_refresh.1.1 twins_refresh_run)
  as (Hindex & _).
- vm_compute. reflexivity.
- split; [vm_compute; reflexivity |]. split; [vm_compute; reflexivity |].
  split; [vm_compute; reflexivity | exact Hindex].
Defined.

Lemma open_top_result_stays_in_scope_sample :
∃ page,
  page ∈ indexedPages one_page_server
  ∧ isAllowedUrl (url page) = true
  ∧ field "url" (handleOpenTopResult "Grid" true 15000 one_page_server)
    = Some (JStr (url page))
  ∧ field "title" (handleOpenTopResult "Grid" true 15000 one_page_server)
    = Some (JStr (title page)).
Proof.
apply (open_top_result_stays_in_scope one_page_server "Grid" true 15000).
vm_compute. reflexivity.
Defined.

Lemma open_top_result_payload_is_bounded_sample :
field "codeBlocks" (handleOpenTopResult "Grid" false 15000 one_page_server) = None
∧ ∃ hs top3,
    field "headings" (handleOpenTopResult "Grid" true 15000 one_page_server)
    = Some (JStrs hs)
    ∧ (List.length hs ≤ 10)%nat
    ∧ field "top3Results" (handleOpenTopResult "Grid" true 15000 one_page_server)
      = Some (JArr top3)
    ∧ (1 ≤ List.length top3 ≤ 3)%nat.
Proof.
split; [vm_compute; reflexivity |].
destruct (open_top_result_payload_is_bounded one_page_server "Grid" true 15000)
  as (hs & top3 & Hhs & Hlen & Htop & Hlen3 & _).
- vm_compute. reflexivity.
- exists hs, top3. split; [exact Hhs |]. split; [exact Hlen |].
  split; [exact Htop | exact Hlen3].
Defined.

Lemma substring_hits_are_documents (index : MiniSearch IndexedPage) (q : string)
  (hit : SearchResult) :
hit ∈ search_pages index q → hit_id hit ∈ map id (documents index).
Proof.
simpl. intros (p & -> & Hp)%list_elem_of_fmap.
apply list_elem_of_filter in Hp as [_ Hp]. simpl.
apply list_elem_of_fmap. by exists p.
Qed.

(** After the refresh from the small site, a query that matches the
  start page is answered, and one that matches nothing has no results. *)
Lemma refreshed_server_answers_queries_sample :
field "status" (handleOpenTopResult "Other" true 15000 small_refresh.1.2)
= Some (JStr "success")
∧ field "status" (handleOpenTopResult "GridView" true 15000 small_refresh.1.2)
  = Some (JStr "no_results").
Proof.
pose proof (refreshed_server_answers_queries 30 small_site (doc "page1") 800 200
              one_page_server small_refresh.1.2 sys0 small_refresh.2
              small_refresh.1.1 "Other" true 15000
              substring_hits_are_documents small_refresh_run) as Hfirst.
rewrite Hfirst by (vm_compute; reflexivity).
split; vm_compute; reflexivity.
Defined.

Lemma search_examples_respects_limit_sample :
∃ total examples,
  field "totalResults" (handleSearchExamples "Grid" None 5 code_server)
  = Some (JInt total)
  ∧ field "examples" (handleSearchExamples "Grid" None 5 code_server)
    = Some (JArr examples)
  ∧ field "returnedResults" (handleSearchExamples "Grid" None 5 code_server)
    = Some (JInt (Js.len_list examples))
  ∧ Js.len_list examples ≤ total
  ∧ (0 ≤ 5 → Js.len_list examples ≤ 5).
Proof.
apply (search_examples_respects_limit code_server "Grid" None 5).
vm_compute. reflexivity.
Defined.

(** The listing of five files with a limit of 2.5: three files. *)
Lemma findCodeFiles_respects_budget_sample :
map GitHubWalk.file_path found_files = ["Demo1.cs"; "Demo2.cs"; "Demo3.cs"]
∧ within_limit (5 # 2) (Js.len_list found_files)
∧ Forall code_file_ok found_files.
Proof.
split; [vm_compute; reflexivity |].
exact (findCodeFiles_respects_budget 4 five_files "DevExpress" "Demos"
         EmptyString None 3 0 (5 # 2) GitHub.trace0).
Defined.

(** A run of the tree walk with a limit of 2.5: three examples, from
  three repositories. *)
Lemma metadata_counts_the_examples_sample :
Js.len_list walk_cut.1 = 3
∧ map GitHub.filesIndexed (GitHub.repos walk_cut.2) = [1; 1; 1]
∧ counts_itself (5 # 2) walk_cut.
Proof.
split; [vm_compute; reflexivity |]. split; [vm_compute; reflexivity |].
exact (proj2 (metadata_counts_the_examples (hub_with twice) (Some (5 # 2))
                None (Some 0) GitHub.trace0)).
Defined.

(** The one stored example is C#: the filter [CSharp] keeps it, the
  filter [aspx] leaves nothing and the answer is still [success]. *)
Lemma search_examples_filters_by_language_sample :
field "totalResults" (handleSearchExamples "Grid" (Some "CSharp") 5 code_server)
= Some (JInt 1)
∧ field "status" (handleSearchExamples "Grid" (Some "aspx") 5 code_server)
  = Some (JStr "success")
∧ field "examples" (handleSearchExamples "Grid" (Some "aspx") 5 code_server)
  = Some (JArr []).
Proof.
split; [vm_compute; reflexivity |].
destruct (search_examples_filters_by_language code_server
            {| documents := code_examples |} "Grid" "aspx" 5)
  as (Hstatus & _ & examples & Hexamples & _ & Hnone).
- reflexivity.
- vm_compute. discriminate.
- vm_compute. discriminate.
- discriminate.
- split; [exact Hstatus |]. rewrite Hexamples. rewrite Hnone; [reflexivity |].
  vm_compute. reflexivity.
Defined.

Lemma snippet_fits_sample :
createSnippet "  a   b  c   d e f g" 5 = "a ..."
∧ Js.len (createSnippet "  a   b  c   d e f g" 5) ≤ 5.
Proof.
destruct (snippet_fits "  a   b  c   d e f g" 5) as (Hfit & _); [lia |].
split; [vm_compute; reflexivity | exact Hfit].
Defined.

Lemma untidy_crawl_run :
crawlDocumentation 30 InProcess untidy sys0 (doc "u") 800 0
= Some (untidy_crawl.1, untidy_crawl.2).
Proof. vm_compute. reflexivity. Qed.

(** A page full of blanks and line breaks is stored with single blanks. *)
Lemma crawl_stores_clean_pages_sample :
map text (r_pages untidy_crawl.1) = ["/AspNetBootstrap/v /AspNetBootstrap/w"]
∧ Forall clean_page (r_pages untidy_crawl.1).
Proof.
destruct (crawl_stores_clean_pages InProcess untidy sys0 (doc "u") 800 0)
  as [_ Hall].
split; [vm_compute; reflexivity |].
exact (Hall 30%nat untidy_crawl.1 untidy_crawl.2 untidy_crawl_run).
Defined.

Lemma github_refresh_is_consistent_sample :
field "status" github_refresh.1 = Some (JStr "success")
∧ githubExamples (server github_refresh.2) = code_examples
∧ githubSearchIndex (server github_refresh.2)
  = Some {| documents := code_examples |}
∧ indexedPages (server github_refresh.2) = [grid_page].
Proof.
assert (Hok : field "status" github_refresh.1 = Some (JStr "success"))
  by (vm_compute; reflexivity).
destruct (github_refresh_is_consistent (walk_module (hub_with twice) small_site)
            1 None 0 machine0 github_refresh.2 github_refresh.1)
  as (_ & _ & Hpages & _ & _ & Hsuccess & _).
- vm_compute. reflexivity.
- destruct (Hsuccess Hok) as (Hexamples & Hindex & _).
  split; [exact Hok |]. split; [exact Hexamples |].
  split; [exact Hindex | exact Hpages].
Defined.

(** A refresh from a start URL on another host reports an error of its
  own, which is not flagged; a tool that does not exist is flagged. *)
Lemma only_protocol_errors_are_flagged_sample :
(∃ result,
   callTool 5 small_site (walk_module (hub_with twice) small_site)
     "devexpress_bootstrap_refresh_index" elsewhere_args machine0
   = Some (result, machine0)
   ∧ field "status" (result_text result) = Some (JStr "error")
   ∧ isError result = false)
∧ (∃ result,
     callTool 5 small_site (walk_module (hub_with twice) small_site)
       "devexpress_bootstrap_search" no_args machine0
     = Some (result, machine0)
     ∧ isError result = true).
Proof.
split.
- eexists. split; [vm_compute; reflexivity |]. split; reflexivity.
- eexists. split; [vm_compute; reflexivity |].
  match goal with
  | |- isError ?r = true =>
      destruct (only_protocol_errors_are_flagged 5 small_site
                  (walk_module (hub_with twice) small_site)
                  "devexpress_bootstrap_search" no_args machine0 machine0 r)
        as [Hiff _]
  end.
  + vm_compute. reflexivity.
  + apply Hiff. left. vm_compute.
    intros Hin. repeat (apply elem_of_cons in Hin as [Heq | Hin]; [discriminate Heq |]).
    by apply elem_of_nil in Hin.
Defined.

End ReplayRuns.
